(** * gpgpu_math: compiling, keying, validating and running WebGL programs

    A shallow embedding of [src/backends/webgl/gpgpu_math.ts].

    Modelling conventions.
    - Tensor dimensions, texture dimensions and flat offsets are integer-valued
      JavaScript numbers and live in [Z].  A number that JavaScript computes
      from [undefined] (an array read out of range) is [NaN]; both are the
      [None] of [option Z], which every operator used here propagates.
      Halving and rounding up are exact on such numbers; the one product the
      file computes on them is a product of doubles, rounded to the nearest
      double and infinite on overflow ([JS.mul]).
    - Tensor values travel as IEEE doubles ([float]); they are only moved,
      never computed with.
    - The WebGL context is an explicit argument.  Its queries are oracle
      functions; every call made on it is recorded, in order, in the list of
      [GLCall]s that a computation in [GL] carries besides its result.
    - A thrown JavaScript exception is the [Throw] of [Result]; it ends the
      computation and keeps the calls made so far. *)

From Stdlib Require Import ZArith PrimFloat FloatOps SpecFloat Ascii.
From stdpp Require Import gmap strings pretty list.

Local Open Scope Z_scope.

(** ** Exceptions *)

Inductive JSError :=
  | Error (message : string)       (* [throw Error(...)] *)
  | TypeError (message : string).  (* property read on [null] / [undefined] *)

Inductive Result (A : Type) :=
  | Ok (a : A)
  | Throw (e : JSError).
Arguments Ok {A} a.
Arguments Throw {A} e.

Global Instance Result_ret : MRet Result := @Ok.
Global Instance Result_bind : MBind Result := λ A B f m,
  match m with
  | Ok a => f a
  | Throw e => Throw e
  end.

(** [Array.prototype.forEach] with a callback that may throw: elements are
    visited in index order and the first exception ends the loop. *)
Fixpoint forEachFrom {A} (f : A → nat → Result unit) (i : nat) (l : list A)
  : Result unit :=
  match l with
  | [] => Ok tt
  | x :: l' => f x i ;; forEachFrom f (S i) l'
  end.
Definition forEach {A} (f : A → nat → Result unit) (l : list A) : Result unit :=
  forEachFrom f 0 l.

(** ** String conversions of template literals *)

Module JS.
(** [String(n)] for an integer-valued number. *)
Definition ofNumber (n : Z) : string := pretty n.
(** [String(n)] for an array length. *)
Definition ofLength (n : nat) : string := pretty n.
Definition ofBool (b : bool) : string := if b then "true" else "false".

(** [Array.prototype.join]. *)
Fixpoint join (sep : string) (l : list string) : string :=
  match l with
  | [] => ""
  | [s] => s
  | s :: l' => s +:+ sep +:+ join sep l'
  end.
(** [String(a)] for an array of numbers: the elements joined by commas. *)
Definition ofArray (a : list Z) : string := join "," (ofNumber <$> a).
(** [String(a)] for an array that may be [null]. *)
Definition ofNullableArray (a : option (list Z)) : string :=
  match a with
  | Some a => ofArray a
  | None => "null"
  end.
(** [String(s)] for a string that may be [undefined]; this is also the
    property key JavaScript uses for [o[s]]. *)
Definition ofName (s : option string) : string := default "undefined" s.

(** [a[i]] for a possibly negative index: [undefined] out of range. *)
Definition index {A} (a : list A) (i : Z) : option A :=
  if bool_decide (0 ≤ i) then a !! Z.to_nat i else None.

(** [Math.ceil(x * 0.5)] on an integer-valued [x]. *)
Definition ceilHalf (x : Z) : Z := (x + 1) `div` 2.

(** The conversion [ToInt32] applied to each element by [new Int32Array(a)]. *)
Definition toInt32 (x : Z) : Z := (x + 2 ^ 31) `mod` 2 ^ 32 - 2 ^ 31.

(** A number without fractional part that is not [NaN]: an integer, or an
    infinity (what a product of two large integers overflows to). *)
Inductive integral :=
  | Int (z : Z)
  | Inf (negative : bool).

(** The double nearest to the integer [z], ties going to the even
    significand: [z] itself below [2^53] in absolute value; beyond, [z]
    rounded to 53 significant bits; an infinity when that reaches [2^1024]. *)
Definition roundToDouble (z : Z) : integral :=
  let m := Z.abs z in
  if bool_decide (m < 2 ^ 53) then Int z
  else
    let e := Z.log2 m - 52 in
    let q := m `div` 2 ^ e in
    let r := m `mod` 2 ^ e in
    let q' :=
      if bool_decide (2 * r < 2 ^ e) then q
      else if bool_decide (2 ^ e < 2 * r) then q + 1
      else if Z.even q then q else q + 1 in
    if bool_decide (q' * 2 ^ e < 2 ^ 1024) then Int (Z.sgn z * (q' * 2 ^ e))
    else Inf (bool_decide (z < 0)).

(** [a * b] on two integer-valued doubles: the exact product, rounded. *)
Definition mul (a b : Z) : integral := roundToDouble (a * b).
End JS.

(** ** Helpers of [util.ts] *)

Module util.
(** Modelled from the spec: [util.arraysEqual] lives in [util.ts], which is
    not part of the sources at hand.  The validator "fails if logical shape
    differs from the recorded logical shape" and "fails if physical texture
    shape differs from the recorded one", where a texture shape may be
    [null]: the helper is equality of nullable number arrays. *)
Definition arraysEqual (n1 n2 : option (list Z)) : bool :=
  bool_decide (n1 = n2).

(** Modelled from the spec: [util.sizeFromShape] lives in [util.ts]; it is
    "the logical element count", the product of the dimensions (1 for a
    scalar). *)
Definition sizeFromShape (shape : list Z) : Z := foldr Z.mul 1 shape.
End util.

(** ** Data model *)

Definition WebGLTexture : Type := N.
Definition WebGLProgram : Type := N.
Definition WebGLUniformLocation : Type := N.

Module Slice.
Record t := mk { flatOffset : Z }.
End Slice.

Module TextureData.
(** Modelled from the spec: [TextureData] is declared in [tex_util.ts].  A
    texture-backed operand has a "physical texture shape (2 dimensions),
    packed-layout flag, backing texture handle, optional slice descriptor";
    these are the fields this file reads. *)
Record t := mk {
  texture : WebGLTexture;
  texShape : Z * Z;
  isPacked : bool;
  slice : option Slice.t
}.
End TextureData.

Module TypedArray.
(** Modelled from the spec: [TypedArray] is declared in [types.ts]; a
    uniform-backed operand carries "a flat numeric value sequence".  The
    record keeps its elements and the outcome of [instanceof Float32Array]. *)
Record t := mk { isFloat32Array : bool; elements : list float }.
End TypedArray.

Module TensorData.
Record t := mk {
  shape : list Z;
  texData : option TextureData.t;  (* [null] for operands uploaded as uniforms *)
  isUniform : bool;
  uniformValues : option TypedArray.t
}.
End TensorData.

Module ShapeInfo.
(** Modelled from the spec: [ShapeInfo] is declared in [shader_compiler.ts];
    "logical shape, physical texture shape (nullable if uniform), packed
    flag, nonzero offset (nullable)", and the [isUniform] flag the code
    sets beside them. *)
Record t := mk {
  logicalShape : list Z;
  texShape : option (Z * Z);
  isUniform : bool;
  isPacked : bool;
  flatOffset : option Z
}.
End ShapeInfo.

Module InputInfo.
Record t := mk { name : option string; shapeInfo : ShapeInfo.t }.
End InputInfo.

Module GPGPUProgram.
Record t := mk {
  constructor_name : string;       (* [program.constructor.name] *)
  variableNames : list string;
  outputShape : list Z;
  userCode : string;
  usesPackedTextures : option bool;
  isPackShader : option bool
}.
End GPGPUProgram.

Module GPGPUBinary.
Record t := mk {
  webGLProgram : WebGLProgram;
  program : GPGPUProgram.t;
  uniformLocations : gmap string (option WebGLUniformLocation);
  source : string;
  inShapeInfos : list ShapeInfo.t;
  outShapeInfo : ShapeInfo.t;
  infLoc : option WebGLUniformLocation;
  nanLoc : option WebGLUniformLocation
}.
End GPGPUBinary.

(** A two-element texture shape seen as the array it is. *)
Definition texShapeArray (s : Z * Z) : list Z := [s.1; s.2].

(** [x != null && x.slice != null && x.slice.flatOffset > 0] on [x.texData]. *)
Definition hasOffset (x : TensorData.t) : bool :=
  match TensorData.texData x with
  | Some td =>
      match TextureData.slice td with
      | Some s => bool_decide (0 < Slice.flatOffset s)
      | None => false
      end
  | None => false
  end.

(** [x.texData.f]: reading a field of [texData] throws on [null]. *)
Definition texDataOf (x : TensorData.t) (field : string) : Result TextureData.t :=
  match TensorData.texData x with
  | Some td => Ok td
  | None => Throw (TypeError ("Cannot read property '" +:+ field +:+ "' of null"))
  end.

(** [x.isUniform ? null : x.texData.texShape]. *)
Definition texShapeOrNull (x : TensorData.t) : Result (option (Z * Z)) :=
  if TensorData.isUniform x then Ok None
  else td ← texDataOf x "texShape"; Ok (Some (TextureData.texShape td)).

(** ** validateBinaryAndProgram *)

Definition countMismatch (compiled executed : nat) : JSError :=
  Error ("Binary was compiled with " +:+ JS.ofLength compiled +:+
         " inputs, but was executed with " +:+ JS.ofLength executed +:+
         " inputs").
Definition shapeMismatch (shapeA shapeB : list Z) : JSError :=
  Error ("Binary was compiled with different shapes than the current args. " +:+
         "Shapes " +:+ JS.ofArray shapeA +:+ " and " +:+ JS.ofArray shapeB +:+
         " must match").
Definition texShapeMismatch (texShapeA texShapeB : option (Z * Z)) : JSError :=
  Error ("Binary was compiled with different texture shapes than the" +:+
         " current args. Shape " +:+
         JS.ofNullableArray (texShapeArray <$> texShapeA) +:+ " and " +:+
         JS.ofNullableArray (texShapeArray <$> texShapeB) +:+ " must match").

(** The body of the [forEach] callback, for the recorded [s] and the current
    [input]. *)
Definition validateOperand (s : ShapeInfo.t) (input : TensorData.t)
  : Result unit :=
  let shapeA := ShapeInfo.logicalShape s in
  let shapeB := TensorData.shape input in
  if negb (util.arraysEqual (Some shapeA) (Some shapeB)) then
    Throw (shapeMismatch shapeA shapeB)
  else if ShapeInfo.isUniform s && TensorData.isUniform input then
    Ok tt
  else
    let texShapeA := ShapeInfo.texShape s in
    texShapeB ← texShapeOrNull input;
    if negb (util.arraysEqual (texShapeArray <$> texShapeA)
                              (texShapeArray <$> texShapeB)) then
      Throw (texShapeMismatch texShapeA texShapeB)
    else Ok tt.

Definition validateBinaryAndProgram
    (shapeInfos : list ShapeInfo.t) (inputs : list TensorData.t) : Result unit :=
  if negb (bool_decide (length shapeInfos = length inputs)) then
    Throw (countMismatch (length shapeInfos) (length inputs))
  else
    forEach (λ s i,
      match inputs !! i with
      | Some input => validateOperand s input
      | None => Throw (TypeError "Cannot read property 'shape' of undefined")
      end) shapeInfos.

(** ** The WebGL context: recorded calls *)

Inductive GLCall :=
  | CreateProgram (source : string)
  | GetUniformLocation (program : WebGLProgram) (name : string) (shouldThrow : bool)
  | SetOutputPackedMatrixTexture (tex : WebGLTexture) (rows columns : Z)
  | SetOutputMatrixTexture (tex : WebGLTexture) (rows columns : Z)
  | SetProgram (program : WebGLProgram)
  | Uniform1f (loc : WebGLUniformLocation) (x : option float)
  | Uniform1fv (loc : WebGLUniformLocation) (v : list float)
  | Uniform1i (loc : WebGLUniformLocation) (x : option JS.integral)
  | Uniform1iv (loc : WebGLUniformLocation) (v : list Z)
  | SetInputMatrixTexture (tex : WebGLTexture) (loc : WebGLUniformLocation)
                          (textureUnit : nat)
  | ExecuteProgram.

(** A computation on the context: its result, and the calls it made. *)
Record GL (A : Type) := mkGL { result : Result A; calls : list GLCall }.
Arguments mkGL {A} result calls.
Arguments result {A} g.
Arguments calls {A} g.

Global Instance GL_ret : MRet GL := λ A a, mkGL (Ok a) [].
Global Instance GL_bind : MBind GL := λ A B f m,
  match result m with
  | Ok a => mkGL (result (f a)) (calls m ++ calls (f a))
  | Throw e => mkGL (Throw e) (calls m)
  end.

(** One call on the context. *)
Definition gl (c : GLCall) : GL unit := mkGL (Ok tt) [c].
(** A computation that touches no context. *)
Definition pure {A} (r : Result A) : GL A := mkGL r [].
(** [if (c) { m }] *)
Definition when (c : bool) (m : GL unit) : GL unit := if c then m else mret tt.

Fixpoint forEachGLFrom {A} (f : A → nat → GL unit) (i : nat) (l : list A)
  : GL unit :=
  match l with
  | [] => mret tt
  | x :: l' => f x i ;; forEachGLFrom f (S i) l'
  end.
Definition forEachGL {A} (f : A → nat → GL unit) (l : list A) : GL unit :=
  forEachGLFrom f 0 l.

(** Modelled from the spec: [GPGPUContext] is declared in [gpgpu_context.ts]
    and is consumed through "createProgram(source) -> handle,
    getUniformLocation(program, name, throwIfMissing) -> location|null" and
    calls that return nothing.  These are the context's own answers:
    [createProgram] throws when the driver rejects the source, and
    [getUniformLocation] is only ever called with [shouldThrow = false], where
    a missing uniform is [null]. *)
Record GPGPUContext := mkContext {
  createProgram : string → Result WebGLProgram;
  getUniformLocation : WebGLProgram → string → bool → option WebGLUniformLocation
}.

Definition gpgpu_createProgram (gpgpu : GPGPUContext) (source : string)
  : GL WebGLProgram :=
  mkGL (createProgram gpgpu source) [CreateProgram source].

Definition gpgpu_getUniformLocation (gpgpu : GPGPUContext)
    (webGLProgram : WebGLProgram) (name : string) (shouldThrow : bool)
  : GL (option WebGLUniformLocation) :=
  mkGL (Ok (getUniformLocation gpgpu webGLProgram name shouldThrow))
       [GetUniformLocation webGLProgram name shouldThrow].

(** ** What the file imports from outside

    [ENV.getNumber] of the environment, [makeShader] of the shader compiler
    (returning source and key), the shape helpers of [util.ts] whose results
    this file only passes on, and the rounding to single precision that
    [new Float32Array(vals)] applies to each element. *)
Class Imports := {
  ENV_getNumber : string → Z;
  shader_compiler_makeShader :
    list InputInfo.t → ShapeInfo.t → string → option bool → string * string;
  util_squeezeShape : list Z → list Z;
  util_packedShapeTransform : list Z → list Z;
  util_computeStrides : list Z → list Z;
  Math_fround : float → float
}.

(** ** assembleProgramSource *)

Definition inputShapeInfo (input : TensorData.t) : Result ShapeInfo.t :=
  texShape ← texShapeOrNull input;
  isPacked ← (if TensorData.isUniform input then Ok false
              else td ← texDataOf input "isPacked"; Ok (TextureData.isPacked td));
  Ok {| ShapeInfo.logicalShape := TensorData.shape input;
        ShapeInfo.texShape := texShape;
        ShapeInfo.isUniform := TensorData.isUniform input;
        ShapeInfo.isPacked := isPacked;
        ShapeInfo.flatOffset :=
          match TensorData.texData input with
          | Some td =>
              match TextureData.slice td with
              | Some s =>
                  if bool_decide (0 < Slice.flatOffset s)
                  then Some (Slice.flatOffset s) else None
              | None => None
              end
          | None => None
          end |}.

Fixpoint inputInfosFrom (variableNames : list string) (i : nat)
    (inputs : list TensorData.t) : Result (list InputInfo.t) :=
  match inputs with
  | [] => Ok []
  | input :: inputs' =>
      shapeInfo ← inputShapeInfo input;
      rest ← inputInfosFrom variableNames (S i) inputs';
      Ok ({| InputInfo.name := variableNames !! i;
             InputInfo.shapeInfo := shapeInfo |} :: rest)
  end.

Record AssembledSource := mkAssembled {
  key : string;
  assembledSource : string;
  inputInfos : list InputInfo.t;
  assembledOutShapeInfo : ShapeInfo.t
}.

Definition assembleProgramSource `{!Imports} (program : GPGPUProgram.t)
    (inputs : list TensorData.t) (output : TensorData.t)
  : Result AssembledSource :=
  let userCode := GPGPUProgram.userCode program in
  inputInfos ← inputInfosFrom (GPGPUProgram.variableNames program) 0 inputs;
  outTexData ← texDataOf output "texShape";
  let outShapeInfo :=
    {| ShapeInfo.logicalShape := TensorData.shape output;
       ShapeInfo.texShape := Some (TextureData.texShape outTexData);
       ShapeInfo.isUniform := false;
       ShapeInfo.isPacked := TextureData.isPacked outTexData;
       ShapeInfo.flatOffset := None |} in
  let '(source, key) :=
    shader_compiler_makeShader inputInfos outShapeInfo userCode
      (GPGPUProgram.usesPackedTextures program) in
  Ok (mkAssembled key source inputInfos outShapeInfo).

(** ** compileProgram *)

Definition recordUniformLocations (gpgpu : GPGPUContext)
    (webGLProgram : WebGLProgram)
    (uniformLocations : gmap string (option WebGLUniformLocation))
    (shouldThrow : bool) (varNames : list string)
  : GL (gmap string (option WebGLUniformLocation)) :=
  foldl (λ acc varName,
    uniformLocations ← acc;
    varLocation ← gpgpu_getUniformLocation gpgpu webGLProgram varName shouldThrow;
    mret (match varLocation with
          | Some _ => <[varName := varLocation]> uniformLocations
          | None => uniformLocations
          end)) (mret uniformLocations) varNames.

Definition inputUniformNames (name : option string) : list string :=
  [ "shape" +:+ JS.ofName name;
    "texShape" +:+ JS.ofName name;
    "strides" +:+ JS.ofName name;
    "packedTexShape" +:+ JS.ofName name;
    "valuesPerRow" +:+ JS.ofName name;
    "texelsInBatch" +:+ JS.ofName name ].

Definition outputUniformNames : list string :=
  [ "outputShape"; "outputStrides"; "outputTexShape"; "outputPackedTexShape";
    "outputTexelsInLogicalRow"; "outputTexelsInBatch" ].

Definition compileProgram `{!Imports} (gpgpu : GPGPUContext)
    (program : GPGPUProgram.t) (inputs : list TensorData.t)
    (output : TensorData.t) : GL GPGPUBinary.t :=
  assembled ← pure (assembleProgramSource program inputs output);
  let source := assembledSource assembled in
  let inputInfos := inputInfos assembled in
  let outShapeInfo := assembledOutShapeInfo assembled in
  webGLProgram ← gpgpu_createProgram gpgpu source;
  (* Add special uniforms (NAN, INFINITY) *)
  nanLoc ← gpgpu_getUniformLocation gpgpu webGLProgram "NAN" false;
  infLoc ← (if bool_decide (ENV_getNumber "WEBGL_VERSION" = 1)
            then gpgpu_getUniformLocation gpgpu webGLProgram "INFINITY" false
            else mret None);
  (* Add user-defined uniforms *)
  uniformLocations ← foldl (λ acc varName,
      uniformLocations ← acc;
      let shouldThrow := false in
      loc ← gpgpu_getUniformLocation gpgpu webGLProgram varName shouldThrow;
      offsetLoc ← gpgpu_getUniformLocation gpgpu webGLProgram
                    ("offset" +:+ varName) shouldThrow;
      mret (<["offset" +:+ varName := offsetLoc]>
              (<[varName := loc]> uniformLocations)))
    (mret ∅) (GPGPUProgram.variableNames program);
  (* Record uniform locations for input shapes *)
  uniformLocations ← foldl (λ acc inputInfo,
      uniformLocations ← acc;
      let inShapeInfo := InputInfo.shapeInfo inputInfo in
      if bool_decide (0 < length (ShapeInfo.logicalShape inShapeInfo))%nat then
        let shouldThrow := false in
        recordUniformLocations gpgpu webGLProgram uniformLocations shouldThrow
          (inputUniformNames (InputInfo.name inputInfo))
      else mret uniformLocations)
    (mret uniformLocations) inputInfos;
  (* Record location of uniforms for output *)
  uniformLocations ←
    (if bool_decide (0 < length (ShapeInfo.logicalShape outShapeInfo))%nat then
       let shouldThrow := false in
       recordUniformLocations gpgpu webGLProgram uniformLocations shouldThrow
         outputUniformNames
     else mret uniformLocations);
  let inShapeInfos := InputInfo.shapeInfo <$> inputInfos in
  mret {| GPGPUBinary.program := program;
          GPGPUBinary.source := source;
          GPGPUBinary.webGLProgram := webGLProgram;
          GPGPUBinary.uniformLocations := uniformLocations;
          GPGPUBinary.inShapeInfos := inShapeInfos;
          GPGPUBinary.outShapeInfo := outShapeInfo;
          GPGPUBinary.infLoc := infLoc;
          GPGPUBinary.nanLoc := nanLoc |}.

(** ** runProgram *)

(** [binary.uniformLocations[uniformName]], where a missing entry
    ([undefined]) and a stored [null] are both "no location". *)
Definition uniformLocation (binary : GPGPUBinary.t) (uniformName : string)
  : option WebGLUniformLocation :=
  mjoin (GPGPUBinary.uniformLocations binary !! uniformName).

(** The array [values] is a [number[]] at every call, so it is always
    converted by [new Int32Array(vals)]. *)
Definition uploadUniform1ivVals (binary : GPGPUBinary.t) (uniformName : string)
    (values : list Z) : GL unit :=
  match uniformLocation binary uniformName with
  | Some varLoc => gl (Uniform1iv varLoc (JS.toInt32 <$> values))
  | None => mret tt
  end.

Definition uploadUniform1iVals (binary : GPGPUBinary.t) (uniformName : string)
    (values : option JS.integral) : GL unit :=
  match uniformLocation binary uniformName with
  | Some varLoc => gl (Uniform1i varLoc values)
  | None => mret tt
  end.

(** [[Math.ceil(texShape[0] * 0.5), Math.ceil(texShape[1] * 0.5)]] *)
Definition packedTexShape (texShape : Z * Z) : list Z :=
  [JS.ceilHalf texShape.1; JS.ceilHalf texShape.2].

(** [Math.ceil(shape[rank - 1] * 0.5)] with [rank = shape.length]. *)
Definition valuesPerRow (shape : list Z) : option Z :=
  let rank := Z.of_nat (length shape) in
  JS.ceilHalf <$> JS.index shape (rank - 1).

(** [valuesPerRow * Math.ceil(shape[rank - 2] * 0.5)]: a product of two
    doubles. *)
Definition texelsInBatch (shape : list Z) : option JS.integral :=
  let rank := Z.of_nat (length shape) in
  valuesPerRow ← valuesPerRow shape;
  rows ← JS.ceilHalf <$> JS.index shape (rank - 2);
  Some (JS.mul valuesPerRow rows).

(** The truth value of the optional flag [usesPackedTextures]. *)
Definition usesPacked (binary : GPGPUBinary.t) : bool :=
  default false (GPGPUProgram.usesPackedTextures (GPGPUBinary.program binary)).

(** The shape the shader sees for a texture-backed input. *)
Definition shaderShape `{!Imports} (binary : GPGPUBinary.t)
    (input : TensorData.t) : list Z :=
  if usesPacked binary
  then util_packedShapeTransform (TensorData.shape input)
  else util_squeezeShape (TensorData.shape input).

(** [input.uniformValues[0]]: throws when [uniformValues] is [undefined],
    and is [undefined] when the array is empty. *)
Definition firstUniformValue (input : TensorData.t) : Result (option float) :=
  match TensorData.uniformValues input with
  | Some vals => Ok (TypedArray.elements vals !! 0%nat)
  | None => Throw (TypeError "Cannot read property '0' of undefined")
  end.

(** [vals instanceof Float32Array ? vals : new Float32Array(vals)]; the array
    built from [undefined] is empty. *)
Definition asFloat32Array `{!Imports} (vals : option TypedArray.t) : list float :=
  match vals with
  | Some a =>
      if TypedArray.isFloat32Array a then TypedArray.elements a
      else Math_fround <$> TypedArray.elements a
  | None => []
  end.

(** The callback of [inputs.forEach] in [runProgram]. *)
Definition runProgramInput `{!Imports} (binary : GPGPUBinary.t)
    (input : TensorData.t) (i : nat) : GL unit :=
  let varName :=
    JS.ofName (GPGPUProgram.variableNames (GPGPUBinary.program binary) !! i) in
  match uniformLocation binary varName with
  | None =>
      (* The compiler inferred that this variable is not used in this shader. *)
      mret tt
  | Some varLoc =>
      if TensorData.isUniform input then
        (* Upload the values of the tensor as uniform. *)
        if bool_decide (util.sizeFromShape (TensorData.shape input) < 2) then
          x ← pure (firstUniformValue input);
          gl (Uniform1f varLoc x)
        else
          gl (Uniform1fv varLoc (asFloat32Array (TensorData.uniformValues input)))
      else
        let shape := shaderShape binary input in
        uploadUniform1ivVals binary ("shape" +:+ varName) shape;;
        uploadUniform1ivVals binary ("strides" +:+ varName)
          (util_computeStrides shape);;
        texData ← pure (texDataOf input "texShape");
        let texShape := TextureData.texShape texData in
        uploadUniform1ivVals binary ("texShape" +:+ varName)
          (texShapeArray texShape);;
        uploadUniform1ivVals binary ("packedTexShape" +:+ varName)
          (packedTexShape texShape);;
        uploadUniform1iVals binary ("valuesPerRow" +:+ varName)
          (JS.Int <$> valuesPerRow shape);;
        uploadUniform1iVals binary ("texelsInBatch" +:+ varName)
          (texelsInBatch shape);;
        (* If the input was sliced, upload the flat offset index. *)
        match TextureData.slice texData with
        | Some slice =>
            uploadUniform1iVals binary ("offset" +:+ varName)
              (Some (JS.Int (Slice.flatOffset slice)))
        | None => mret tt
        end;;
        gl (SetInputMatrixTexture (TextureData.texture texData) varLoc i)
  end.

(** The block [if (output.shape.length > 0) { ... }] of [runProgram]. *)
Definition runProgramOutput `{!Imports} (binary : GPGPUBinary.t)
    (output : TensorData.t) : GL unit :=
  when (bool_decide (0 < length (TensorData.shape output))%nat) (
    let outputShape := TensorData.shape output in
    uploadUniform1ivVals binary "outputShape" outputShape;;
    uploadUniform1ivVals binary "outputStrides" (util_computeStrides outputShape);;
    texData ← pure (texDataOf output "texShape");
    let outputTexShape := TextureData.texShape texData in
    uploadUniform1ivVals binary "outputTexShape" (texShapeArray outputTexShape);;
    uploadUniform1ivVals binary "outputPackedTexShape"
      (packedTexShape outputTexShape);;
    uploadUniform1iVals binary "outputTexelsInLogicalRow"
      (JS.Int <$> valuesPerRow outputShape);;
    uploadUniform1iVals binary "outputTexelsInBatch" (texelsInBatch outputShape)).

(** The statements of [runProgram] between validation and the setup hook:
    output binding, program activation and every standard uniform upload. *)
Definition runProgramUploads `{!Imports} (binary : GPGPUBinary.t)
    (inputs : list TensorData.t) (output : TensorData.t) : GL unit :=
  outTexData ← pure (texDataOf output "texture");
  let outTex := TextureData.texture outTexData in
  let outTexShape := TextureData.texShape outTexData in
  (if TextureData.isPacked outTexData
   then gl (SetOutputPackedMatrixTexture outTex outTexShape.1 outTexShape.2)
   else gl (SetOutputMatrixTexture outTex outTexShape.1 outTexShape.2));;
  gl (SetProgram (GPGPUBinary.webGLProgram binary));;
  (* Set special uniforms (NAN, INFINITY) *)
  when (bool_decide (ENV_getNumber "WEBGL_VERSION" = 1)) (
    match GPGPUBinary.infLoc binary with
    | Some infLoc => gl (Uniform1f infLoc (Some infinity))
    | None => mret tt
    end);;
  match GPGPUBinary.nanLoc binary with
  | Some nanLoc => gl (Uniform1f nanLoc (Some nan))
  | None => mret tt
  end;;
  (* Set user-defined inputs *)
  forEachGL (runProgramInput binary) inputs;;
  (* Upload output shape uniforms *)
  runProgramOutput binary output.

Definition runProgram `{!Imports} (gpgpu : GPGPUContext) (binary : GPGPUBinary.t)
    (inputs : list TensorData.t) (output : TensorData.t)
    (customSetup : option (GPGPUContext → WebGLProgram → GL unit)) : GL unit :=
  pure (validateBinaryAndProgram (GPGPUBinary.inShapeInfos binary) inputs);;
  pure (validateBinaryAndProgram [GPGPUBinary.outShapeInfo binary] [output]);;
  runProgramUploads binary inputs output;;
  match customSetup with
  | Some customSetup => customSetup gpgpu (GPGPUBinary.webGLProgram binary)
  | None => mret tt
  end;;
  gl ExecuteProgram.

(** ** makeShaderKey *)

(** The text one operand adds to [keyInputs]. *)
Definition operandKey (x : TensorData.t) : Result string :=
  let hasOffset := hasOffset x in
  texShape ← (if TensorData.isUniform x then Ok "uniform"
              else td ← texDataOf x "texShape";
                   Ok (JS.ofArray (texShapeArray (TextureData.texShape td))));
  Ok (JS.ofArray (TensorData.shape x) +:+ "_" +:+ texShape +:+ "_" +:+
      JS.ofBool hasOffset).

(** [inputs.concat(output).forEach(x => { keyInputs += ... })] *)
Fixpoint keyInputsFrom (keyInputs : string) (xs : list TensorData.t)
  : Result string :=
  match xs with
  | [] => Ok keyInputs
  | x :: xs' => k ← operandKey x; keyInputsFrom (keyInputs +:+ k) xs'
  end.

Definition makeShaderKey (program : GPGPUProgram.t)
    (inputs : list TensorData.t) (output : TensorData.t) : Result string :=
  keyInputs ← keyInputsFrom "" (inputs ++ [output]);
  let keyUserCode := GPGPUProgram.userCode program in
  let key := GPGPUProgram.constructor_name program in
  Ok (key +:+ ("_" +:+ keyInputs +:+ "_" +:+ keyUserCode)).

(** ** Uniform state seen by a dispatch *)

Inductive UniformValue :=
  | FloatValue (x : option float)
  | FloatArrayValue (v : list float)
  | IntValue (x : option JS.integral)
  | IntArrayValue (v : list Z)
  | SamplerValue (textureUnit : nat).

(** The uniform a call writes, if it writes one. *)
Definition uniformWrite (c : GLCall)
  : option (WebGLUniformLocation * UniformValue) :=
  match c with
  | Uniform1f loc x => Some (loc, FloatValue x)
  | Uniform1fv loc v => Some (loc, FloatArrayValue v)
  | Uniform1i loc x => Some (loc, IntValue x)
  | Uniform1iv loc v => Some (loc, IntArrayValue v)
  | SetInputMatrixTexture _ loc textureUnit => Some (loc, SamplerValue textureUnit)
  | _ => None
  end.

(** The value a location holds after a sequence of calls: the last one
    written to it. *)
Fixpoint uniformState (trace : list GLCall) (loc : WebGLUniformLocation)
  : option UniformValue :=
  match trace with
  | [] => None
  | c :: trace' =>
      match uniformState trace' loc with
      | Some v => Some v
      | None =>
          match uniformWrite c with
          | Some (l, v) => if bool_decide (l = loc) then Some v else None
          | None => None
          end
      end
  end.

(** ** Properties named in the statements below *)

(** The errors [validateBinaryAndProgram] throws. *)
Inductive ShapeMismatch : JSError → Prop :=
  | CountMismatch compiled executed :
      ShapeMismatch (countMismatch compiled executed)
  | LogicalShapeMismatch shapeA shapeB :
      ShapeMismatch (shapeMismatch shapeA shapeB)
  | TexShapeMismatch texShapeA texShapeB :
      ShapeMismatch (texShapeMismatch texShapeA texShapeB).

(** An operand that is not uniform-backed has texture data. *)
Definition hasStorage (x : TensorData.t) : bool :=
  TensorData.isUniform x || bool_decide (is_Some (TensorData.texData x)).

(** The physical texture shape of an operand: none when it is uniform-backed
    (or has no texture data to read it from). *)
Definition physicalTexShape (x : TensorData.t) : option (Z * Z) :=
  if TensorData.isUniform x then None
  else TextureData.texShape <$> TensorData.texData x.

(** Two operands that read the same in a key: logical shape, storage mode,
    physical texture shape and the flag [hasOffset] that the key prints. *)
Definition sameLayout (x y : TensorData.t) : Prop :=
  TensorData.shape x = TensorData.shape y ∧
  TensorData.isUniform x = TensorData.isUniform y ∧
  physicalTexShape x = physicalTexShape y ∧
  hasOffset x = hasOffset y.

(** Following the spec, "whether it carries a nonzero slice offset": the
    operand is a sliced view and the flat offset of the slice is not zero. *)
Definition carriesNonzeroOffset (x : TensorData.t) : bool :=
  match TensorData.texData x ≫= TextureData.slice with
  | Some slice => negb (bool_decide (Slice.flatOffset slice = 0))
  | None => false
  end.

(** Following the spec, "a flat starting offset" into the backing buffer: the
    flat offset of a sliced view is not negative. *)
Definition offsetInBuffer (x : TensorData.t) : bool :=
  match TensorData.texData x ≫= TextureData.slice with
  | Some slice => bool_decide (0 ≤ Slice.flatOffset slice)
  | None => true
  end.


(** A current operand that agrees with a recorded [ShapeInfo] on all that the
    validator compares. *)
Definition agreesWith (s : ShapeInfo.t) (input : TensorData.t) : Prop :=
  ShapeInfo.logicalShape s = TensorData.shape input ∧
  (ShapeInfo.isUniform s && TensorData.isUniform input = true ∨
   texShapeOrNull input = Ok (ShapeInfo.texShape s)).

(** [c] is the ceiling of [x / 2]. *)
Definition isCeilHalf (x c : Z) : Prop := x ≤ 2 * c < x + 2.

(** ** Stand-ins for the imports, to run the model on examples *)

Fixpoint strides (shape : list Z) : list Z :=
  match shape with
  | [] => []
  | _ :: rest =>
      match rest with
      | [] => []
      | _ => foldr Z.mul 1 rest :: strides rest
      end
  end.

Definition exampleImports (webglVersion : Z) : Imports := {|
  ENV_getNumber := λ name,
    if bool_decide (name = "WEBGL_VERSION") then webglVersion else 0;
  shader_compiler_makeShader := λ _ _ userCode _, (userCode, "");
  util_squeezeShape := filter (λ d, d ≠ 1);
  util_packedShapeTransform := λ shape,
    match reverse shape with
    | c :: r :: batch => reverse batch ++ [JS.ceilHalf r; JS.ceilHalf c]
    | _ => shape
    end;
  util_computeStrides := strides;
  Math_fround := λ x, x
|}.

(** A context that compiles every source to program 1 and resolves a uniform
    exactly when it is listed. *)
Definition exampleContext (uniforms : list (string * WebGLUniformLocation))
  : GPGPUContext := {|
  createProgram := λ _, Ok 1%N;
  getUniformLocation := λ _ name _,
    (list_to_map uniforms : gmap string WebGLUniformLocation) !! name
|}.

Definition exampleProgram : GPGPUProgram.t := {|
  GPGPUProgram.constructor_name := "BinaryOpProgram";
  GPGPUProgram.variableNames := ["A"; "B"];
  GPGPUProgram.outputShape := [2; 6];
  GPGPUProgram.userCode := "return a + b;";
  GPGPUProgram.usesPackedTextures := None;
  GPGPUProgram.isPackShader := None
|}.

Definition textureOperand (shape : list Z) (texture : WebGLTexture)
    (texShape : Z * Z) (isPacked : bool) (slice : option Slice.t)
  : TensorData.t := {|
  TensorData.shape := shape;
  TensorData.texData := Some (TextureData.mk texture texShape isPacked slice);
  TensorData.isUniform := false;
  TensorData.uniformValues := None
|}.

Definition uniformOperand (shape : list Z) (values : list float)
  : TensorData.t := {|
  TensorData.shape := shape;
  TensorData.texData := None;
  TensorData.isUniform := true;
  TensorData.uniformValues := Some (TypedArray.mk true values)
|}.

Definition exampleBinary (uniforms : list (string * WebGLUniformLocation))
    (inShapeInfos : list ShapeInfo.t) (outShapeInfo : ShapeInfo.t)
    (infLoc nanLoc : option WebGLUniformLocation) : GPGPUBinary.t := {|
  GPGPUBinary.webGLProgram := 1%N;
  GPGPUBinary.program := exampleProgram;
  GPGPUBinary.uniformLocations := Some <$> list_to_map uniforms;
  GPGPUBinary.source := "return a + b;";
  GPGPUBinary.inShapeInfos := inShapeInfos;
  GPGPUBinary.outShapeInfo := outShapeInfo;
  GPGPUBinary.infLoc := infLoc;
  GPGPUBinary.nanLoc := nanLoc
|}.

Definition textureInfo (shape : list Z) (texShape : Z * Z) (isPacked : bool)
    (flatOffset : option Z) : ShapeInfo.t :=
  ShapeInfo.mk shape (Some texShape) false isPacked flatOffset.

Definition uniformInfo (shape : list Z) : ShapeInfo.t :=
  ShapeInfo.mk shape None true false None.

(** ** Example operands and binaries *)

(** A binary compiled for a [2,6] texture input [A], a [1,4] uniform input
    [B] and a [2,6] output, with every uniform resolved. *)
Definition allUniforms : list (string * WebGLUniformLocation) :=
  [ ("A", 10); ("offsetA", 11); ("shapeA", 12); ("texShapeA", 13);
    ("stridesA", 14); ("packedTexShapeA", 15); ("valuesPerRowA", 16);
    ("texelsInBatchA", 17); ("B", 20);
    ("outputShape", 30); ("outputStrides", 31); ("outputTexShape", 32);
    ("outputPackedTexShape", 33); ("outputTexelsInLogicalRow", 34);
    ("outputTexelsInBatch", 35) ]%N.

Definition addBinary : GPGPUBinary.t :=
  exampleBinary allUniforms
    [textureInfo [2; 6] (3, 5) false None; uniformInfo [1; 4]]
    (textureInfo [2; 6] (3, 5) false None)
    (Some 2%N) (Some 3%N).

Definition inputA : TensorData.t := textureOperand [2; 6] 100%N (3, 5) false None.
Definition inputB : TensorData.t := uniformOperand [1; 4] [1; 2; 3; 4]%float.
Definition outputC : TensorData.t := textureOperand [2; 6] 102%N (3, 5) false None.

(** [A] with another logical shape, and with another texture shape. *)
Definition inputA_reshaped : TensorData.t :=
  textureOperand [3; 4] 100%N (3, 5) false None.
Definition inputA_retextured : TensorData.t :=
  textureOperand [2; 6] 100%N (4, 3) false None.
(** [A] packed and sliced at flat offset 4, with the texture shape it had. *)
Definition inputA_packed_sliced : TensorData.t :=
  textureOperand [2; 6] 100%N (3, 5) true (Some (Slice.mk 4)).
(** [A] sliced at flat offset 0. *)
Definition inputA_sliced_at_0 : TensorData.t :=
  textureOperand [2; 6] 100%N (3, 5) false (Some (Slice.mk 0)).
(** [A] with a slice whose flat offset is negative: no view of a buffer. *)
Definition inputA_sliced_before_0 : TensorData.t :=
  textureOperand [2; 6] 100%N (3, 5) false (Some (Slice.mk (-3))).
(** The output with another texture shape, and sliced at flat offset 4. *)
Definition outputC_retextured : TensorData.t :=
  textureOperand [2; 6] 102%N (4, 3) false None.

(** The same binary with neither special constant resolved. *)
Definition withoutSpecialUniforms (binary : GPGPUBinary.t) : GPGPUBinary.t := {|
  GPGPUBinary.webGLProgram := GPGPUBinary.webGLProgram binary;
  GPGPUBinary.program := GPGPUBinary.program binary;
  GPGPUBinary.uniformLocations := GPGPUBinary.uniformLocations binary;
  GPGPUBinary.source := GPGPUBinary.source binary;
  GPGPUBinary.inShapeInfos := GPGPUBinary.inShapeInfos binary;
  GPGPUBinary.outShapeInfo := GPGPUBinary.outShapeInfo binary;
  GPGPUBinary.infLoc := None;
  GPGPUBinary.nanLoc := None
|}.

(** [B] as a one-element uniform, and a binary compiled for [A] and such a
    [B]. *)
Definition inputB_scalar : TensorData.t := uniformOperand [1; 1] [7]%float.
Definition scalarBinary : GPGPUBinary.t :=
  exampleBinary allUniforms
    [textureInfo [2; 6] (3, 5) false None; uniformInfo [1; 1]]
    (textureInfo [2; 6] (3, 5) false None)
    (Some 2%N) (Some 3%N).
(** A rank-1 output and a texture input that squeezes to rank 1. *)
Definition outputRow : TensorData.t := textureOperand [6] 102%N (1, 6) false None.
Definition inputRow : TensorData.t := textureOperand [1; 6] 100%N (1, 6) false None.

(** A hook that overwrites the uniform at location 12 ([shapeA]). *)
Definition overwriteShapeA (gpgpu : GPGPUContext) (webGLProgram : WebGLProgram)
  : GL unit :=
  gl (Uniform1iv 12%N [6; 2]).

(** A context whose shaders use [INFINITY] but not [NAN]. *)
Definition contextWithoutNaN : GPGPUContext :=
  exampleContext (("INFINITY", 2%N) :: allUniforms).

(** The call is no query for the uniform [INFINITY]. *)
Definition notInfinityQuery (c : GLCall) : Prop :=
  match c with
  | GetUniformLocation _ name _ => name ≠ "INFINITY"
  | _ => True
  end.

(** ** Characters of a shader key *)

Fixpoint allChars (P : ascii → bool) (s : string) : bool :=
  match s with
  | EmptyString => true
  | String c s' => P c && allChars P s'
  end.

(** A character of the decimal text of an integer. *)
Definition isNumberChar (c : ascii) : bool :=
  bool_decide (c ∈ ["0"; "1"; "2"; "3"; "4"; "5"; "6"; "7"; "8"; "9"; "-"]%char).

(** A character of the text of an array of integers. *)
Definition isArrayChar (c : ascii) : bool :=
  isNumberChar c || bool_decide (c = ","%char).

Definition notUnderscore (c : ascii) : bool := negb (bool_decide (c = "_"%char)).

(** [A] in another texture, packed, with the logical and physical shape it had. *)
Definition inputA_repacked : TensorData.t :=
  textureOperand [2; 6] 555%N (3, 5) true None.

(** ** Further properties named in the statements below *)

(** The queries [compileProgram] makes for one declared variable. *)
Definition variableQueries (webGLProgram : WebGLProgram) (varName : string)
  : list GLCall :=
  [ GetUniformLocation webGLProgram varName false;
    GetUniformLocation webGLProgram ("offset" +:+ varName) false ].

(** One query per name, in order. *)
Definition queries (webGLProgram : WebGLProgram) (shouldThrow : bool)
    (names : list string) : list GLCall :=
  (λ name, GetUniformLocation webGLProgram name shouldThrow) <$> names.

(** The layout queries for one input: none for a scalar. *)
Definition inputQueries (webGLProgram : WebGLProgram) (info : InputInfo.t)
  : list GLCall :=
  if bool_decide (0 < length (ShapeInfo.logicalShape (InputInfo.shapeInfo info)))%nat
  then queries webGLProgram false (inputUniformNames (InputInfo.name info))
  else [].

(** Every entry of a location table is the context's answer for its name. *)
Definition tableSound (oracle : string → option WebGLUniformLocation)
    (t : gmap string (option WebGLUniformLocation)) : Prop :=
  ∀ name v, t !! name = Some v → v = oracle name.

(** Looking [name] up in the table gives the context's answer for it. *)
Definition tableKnows (oracle : string → option WebGLUniformLocation)
    (t : gmap string (option WebGLUniformLocation)) (name : string) : Prop :=
  mjoin (t !! name) = oracle name.

(** The property key under which [runProgram] looks up the location of the
    input at position [i]: [binary.program.variableNames[i]]. *)
Definition inputVarName (binary : GPGPUBinary.t) (i : nat) : string :=
  JS.ofName (GPGPUProgram.variableNames (GPGPUBinary.program binary) !! i).

(** What the optional setup hook of [runProgram] does. *)
Definition setupHook (gpgpu : GPGPUContext) (binary : GPGPUBinary.t)
    (customSetup : option (GPGPUContext → WebGLProgram → GL unit)) : GL unit :=
  match customSetup with
  | Some customSetup => customSetup gpgpu (GPGPUBinary.webGLProgram binary)
  | None => mret tt
  end.

(** Every uniform-backed input whose variable is used by the shader and whose
    size is below 2 carries its [uniformValues]. *)
Definition scalarUniformsHaveValues (binary : GPGPUBinary.t)
    (inputs : list TensorData.t) : Prop :=
  ∀ i input loc,
    inputs !! i = Some input →
    uniformLocation binary (inputVarName binary i) = Some loc →
    TensorData.isUniform input = true →
    util.sizeFromShape (TensorData.shape input) < 2 →
    is_Some (TensorData.uniformValues input).

(** ** Further example operands *)

(** A one-element uniform-backed [B] that lost its values. *)
Definition inputB_without_values : TensorData.t := {|
  TensorData.shape := [1; 1];
  TensorData.texData := None;
  TensorData.isUniform := true;
  TensorData.uniformValues := None
|}.

(** A context whose driver rejects every source. *)
Definition rejectingContext : GPGPUContext := {|
  createProgram := λ _,
    Throw (Error "Failed to link vertex and fragment shaders.");
  getUniformLocation := λ _ _ _, None
|}.

(** ** Doubles

    [JS.mul] is compared, on examples, with the multiplication of the
    primitive doubles. *)

(** The double that is the integer [z], when [z] is one. *)
Definition doubleOfZ (z : Z) : float :=
  SF2Prim (binary_normalize 53 1024 z 0 false).

Definition doubleOf (x : JS.integral) : float :=
  match x with
  | JS.Int z => doubleOfZ z
  | JS.Inf negative => if negative then neg_infinity else infinity
  end.

(** The product of the doubles [a] and [b] is the double [JS.mul a b]. *)
Definition mulIsDoubleProduct (a b : Z) : bool :=
  PrimFloat.eqb (PrimFloat.mul (doubleOfZ a) (doubleOfZ b)) (doubleOf (JS.mul a b)).

(** Pairs of doubles: small, rounded down, rounded up, ties to even both
    ways, negative, at the largest finite double and beyond. *)
Definition productExamples : list (Z * Z) :=
  [ (3, 5); (-3, 5); (0, 5); (2 ^ 53, 1); (2 ^ 53 - 1, 3);
    (134217729, 134217729); (2 ^ 27 + 1, 2 ^ 27 + 3);
    (2 ^ 52 + 1, 3); (2 ^ 52 + 1, 5); (2 ^ 52 + 3, 3); (- (2 ^ 52 + 1), 3);
    (3, 2 ^ 53 + 2); (5, 2 ^ 53 + 2); (7, 2 ^ 53 + 2);
    (2 ^ 53 - 1, 2 ^ 53 - 1); (2 ^ 53 - 1, 2 ^ 53 - 3);
    (2 ^ 511, 2 ^ 512); (2 ^ 512, 2 ^ 512); (- (2 ^ 600), 2 ^ 600);
    ((2 ^ 53 - 1) * 2 ^ 971, 1); ((2 ^ 53 - 1) * 2 ^ 970, 2);
    ((2 ^ 53 - 1) * 2 ^ 970, 3); (2 ^ 1023, 1); (2 ^ 1023, 2) ].

(** * Properties *)

(** ** The [Result] and [GL] monads *)

Lemma GL_bind_result_Ok {A B} (m : GL A) (f : A → GL B) b :
  result (m ≫= f) = Ok b →
  ∃ a, result m = Ok a ∧ result (f a) = Ok b ∧
       calls (m ≫= f) = calls m ++ calls (f a).
Proof.
  unfold mbind, GL_bind. destruct (result m) as [a|e]; simpl; [|done].
  intros Hb. by exists a.
Qed.

Lemma GL_eta {A} (m : GL A) : m = mkGL (result m) (calls m).
Proof. by destruct m. Qed.

(** ** The validator *)

Lemma arraysEqual_true n1 n2 : util.arraysEqual n1 n2 = true ↔ n1 = n2.
Proof. unfold util.arraysEqual. apply bool_decide_eq_true. Qed.

Lemma arraysEqual_false n1 n2 : util.arraysEqual n1 n2 = false ↔ n1 ≠ n2.
Proof. unfold util.arraysEqual. apply bool_decide_eq_false. Qed.

Lemma texShapeArray_inj : Inj (=) (=) texShapeArray.
Proof. intros [h w] [h' w']; unfold texShapeArray; simpl. congruence. Qed.

Lemma texShapeArray_fmap_inj (a b : option (Z * Z)) :
  texShapeArray <$> a = texShapeArray <$> b → a = b.
Proof.
  destruct a, b; simpl; intros Heq; try done.
  f_equal. apply texShapeArray_inj. congruence.
Qed.

Lemma texShapeOrNull_hasStorage x :
  hasStorage x = true → ∃ ts, texShapeOrNull x = Ok ts.
Proof.
  unfold hasStorage, texShapeOrNull, texDataOf.
  destruct (TensorData.isUniform x); simpl; [by eexists|].
  rewrite bool_decide_eq_true. intros [td ->]. simpl. by eexists.
Qed.

(** With matching logical shapes, the operand check is decided by the
    storage modes and the texture shapes alone. *)
Lemma validateOperand_same_shape s input :
  ShapeInfo.logicalShape s = TensorData.shape input →
  validateOperand s input =
    if ShapeInfo.isUniform s && TensorData.isUniform input then Ok tt
    else texShapeB ← texShapeOrNull input;
         if bool_decide (texShapeB = ShapeInfo.texShape s) then Ok tt
         else Throw (texShapeMismatch (ShapeInfo.texShape s) texShapeB).
Proof.
  intros Hshape. unfold validateOperand.
  assert (util.arraysEqual (Some (ShapeInfo.logicalShape s))
            (Some (TensorData.shape input)) = true) as ->
    by (apply arraysEqual_true; congruence).
  simpl. destruct (_ && _); [done|].
  destruct (texShapeOrNull input) as [tsB|e]; simpl; [|done].
  case_bool_decide as Hts.
  - subst. by rewrite (proj2 (arraysEqual_true _ _)).
  - rewrite (proj2 (arraysEqual_false _ _)); [done|].
    intros Heq. apply Hts. symmetry. by apply texShapeArray_fmap_inj.
Qed.

Lemma validateOperand_shape_differs s input :
  ShapeInfo.logicalShape s ≠ TensorData.shape input →
  validateOperand s input =
    Throw (shapeMismatch (ShapeInfo.logicalShape s) (TensorData.shape input)).
Proof.
  intros Hne. unfold validateOperand.
  rewrite (proj2 (arraysEqual_false _ _)); [done|congruence].
Qed.

Lemma validateOperand_Throw_hasStorage s input e :
  hasStorage input = true →
  validateOperand s input = Throw e → ShapeMismatch e.
Proof.
  intros Hst.
  destruct (decide (ShapeInfo.logicalShape s = TensorData.shape input)) as [Heq|Hne].
  - rewrite (validateOperand_same_shape _ _ Heq).
    destruct (_ && _); [done|].
    destruct (texShapeOrNull_hasStorage _ Hst) as [ts ->]; simpl.
    case_bool_decide; [done|]. intros [= <-]. constructor.
  - rewrite (validateOperand_shape_differs _ _ Hne).
    intros [= <-]. constructor.
Qed.

Lemma validateOperand_agreesWith s input :
  agreesWith s input → validateOperand s input = Ok tt.
Proof.
  intros [Hshape Hlayout]. rewrite (validateOperand_same_shape _ _ Hshape).
  destruct (_ && _); [done|].
  destruct Hlayout as [Hu| ->]; [done|]. simpl. by rewrite bool_decide_true.
Qed.

(** The loop of the validator, started at index [k]. *)
Lemma validate_forEachFrom_Ok (inputs : list TensorData.t) (l : list ShapeInfo.t) k :
  Forall2 (λ s x, validateOperand s x = Ok tt) l (drop k inputs) →
  forEachFrom (λ s i,
    match inputs !! i with
    | Some input => validateOperand s input
    | None => Throw (TypeError "Cannot read property 'shape' of undefined")
    end) k l = Ok tt.
Proof.
  revert k. induction l as [|s l IH]; intros k Hall; [done|].
  apply Forall2_cons_inv_l in Hall as (x & rest & Hsx & Hrest & Hdrop). simpl.
  assert (inputs !! k = Some x) as Hx.
  { pose proof (lookup_drop inputs k 0) as Hd.
    rewrite Hdrop, Nat.add_0_r in Hd. by rewrite <-Hd. }
  rewrite Hx, Hsx. simpl. apply IH.
  rewrite (drop_S _ _ _ Hx) in Hdrop. by simplify_eq.
Qed.

Lemma validate_forEachFrom_Throw (inputs : list TensorData.t)
    (l : list ShapeInfo.t) k i s x e :
  length l = length (drop k inputs) →
  l !! i = Some s → inputs !! (k + i)%nat = Some x →
  validateOperand s x = Throw e →
  ∃ j s' x' e', l !! j = Some s' ∧ inputs !! (k + j)%nat = Some x' ∧
    validateOperand s' x' = Throw e' ∧
    forEachFrom (λ s i,
      match inputs !! i with
      | Some input => validateOperand s input
      | None => Throw (TypeError "Cannot read property 'shape' of undefined")
      end) k l = Throw e'.
Proof.
  revert k i. induction l as [|s0 l IH]; intros k i Hlen Hs Hx He; [done|].
  simpl. destruct (inputs !! k) as [x0|] eqn:Hx0.
  2:{ apply lookup_ge_None in Hx0. rewrite length_drop in Hlen.
      simpl in Hlen. lia. }
  destruct (validateOperand s0 x0) as [[ ]|e0] eqn:Hv0.
  - destruct i as [|i]; simpl in Hs.
    + simplify_eq. rewrite Nat.add_0_r in Hx. congruence.
    + destruct (IH (S k) i) as (j & s' & x' & e' & Hj & Hxj & Hvj & Hrun); auto.
      * rewrite length_drop in *. simpl in Hlen. lia.
      * by replace (S k + i)%nat with (k + S i)%nat by lia.
      * exists (S j), s', x', e'. simpl. split_and!; auto.
        by replace (k + S j)%nat with (S k + j)%nat by lia.
  - exists 0%nat, s0, x0, e0. rewrite Nat.add_0_r. by simpl.
Qed.

Lemma validateBinaryAndProgram_Ok shapeInfos inputs :
  Forall2 (λ s x, validateOperand s x = Ok tt) shapeInfos inputs →
  validateBinaryAndProgram shapeInfos inputs = Ok tt.
Proof.
  intros Hall. unfold validateBinaryAndProgram.
  rewrite bool_decide_true by (by eapply Forall2_length). simpl.
  by apply validate_forEachFrom_Ok.
Qed.

(** A failing operand makes the validator throw: the count error, or the
    error of the first operand that fails. *)
Lemma validateBinaryAndProgram_Throw shapeInfos inputs i s x e :
  shapeInfos !! i = Some s → inputs !! i = Some x →
  validateOperand s x = Throw e →
  ∃ e', validateBinaryAndProgram shapeInfos inputs = Throw e' ∧
        (Forall (λ x, hasStorage x = true) inputs → ShapeMismatch e').
Proof.
  intros Hs Hx He. unfold validateBinaryAndProgram.
  case_bool_decide as Hlen; simpl.
  - destruct (validate_forEachFrom_Throw inputs shapeInfos 0 i s x e)
      as (j & s' & x' & e' & Hj & Hxj & Hvj & Hrun); auto.
    exists e'. split; [exact Hrun|]. intros Hall.
    eapply validateOperand_Throw_hasStorage; [|exact Hvj].
    rewrite Forall_lookup in Hall. by eapply Hall.
  - eexists. split; [done|]. intros _. constructor.
Qed.

Lemma runProgram_validation_Throw `{!Imports} gpgpu binary inputs output
    customSetup e :
  validateBinaryAndProgram (GPGPUBinary.inShapeInfos binary) inputs = Throw e →
  runProgram gpgpu binary inputs output customSetup = mkGL (Throw e) [].
Proof. intros He. unfold runProgram. by rewrite He. Qed.

Lemma runProgram_output_validation_Throw `{!Imports} gpgpu binary inputs output
    customSetup e :
  validateBinaryAndProgram (GPGPUBinary.inShapeInfos binary) inputs = Ok tt →
  validateBinaryAndProgram [GPGPUBinary.outShapeInfo binary] [output] = Throw e →
  runProgram gpgpu binary inputs output customSetup = mkGL (Throw e) [].
Proof. intros Hin He. unfold runProgram. by rewrite Hin, He. Qed.

(** C1. For every compiled program and every list of current operands: when
    the operand count differs from the recorded one, or the logical shape of
    an operand (an input, or the output) differs from the shape recorded for
    it, [runProgram] throws and makes no call on the context at all, so the
    dispatch [ExecuteProgram] is never issued; the exception is one of the
    validator's shape-mismatch errors as soon as every input that is not
    uniform-backed has its texture data. *)
Theorem runProgram_rejects_shape_mismatch `{!Imports} gpgpu binary inputs
    output customSetup :
  (length (GPGPUBinary.inShapeInfos binary) ≠ length inputs ∨
   (∃ i s input,
      GPGPUBinary.inShapeInfos binary !! i = Some s ∧ inputs !! i = Some input ∧
      ShapeInfo.logicalShape s ≠ TensorData.shape input) ∨
   ShapeInfo.logicalShape (GPGPUBinary.outShapeInfo binary)
     ≠ TensorData.shape output) →
  ∃ e, runProgram gpgpu binary inputs output customSetup = mkGL (Throw e) [] ∧
       (ExecuteProgram ∉ calls (runProgram gpgpu binary inputs output customSetup)) ∧
       (Forall (λ x, hasStorage x = true) inputs → ShapeMismatch e).
Proof.
  intros Hbad.
  cut (∃ e, runProgram gpgpu binary inputs output customSetup
              = mkGL (Throw e) [] ∧
            (Forall (λ x, hasStorage x = true) inputs → ShapeMismatch e)).
  { intros (e & Hrun & He). exists e. rewrite Hrun. simpl.
    split_and!; auto. apply not_elem_of_nil. }
  destruct (validateBinaryAndProgram (GPGPUBinary.inShapeInfos binary) inputs)
    as [[ ]|e] eqn:Hin.
  - destruct Hbad as [Hlen|[(i & s & input & Hs & Hx & Hne)|Hout]].
    + unfold validateBinaryAndProgram in Hin.
      by rewrite bool_decide_false in Hin.
    + destruct (validateBinaryAndProgram_Throw _ _ i s input _ Hs Hx
                  (validateOperand_shape_differs _ _ Hne)) as (e' & He' & _).
      congruence.
    + eexists. split.
      * apply runProgram_output_validation_Throw; [done|].
        unfold validateBinaryAndProgram, forEach. simpl.
        by rewrite (validateOperand_shape_differs _ _ Hout).
      * intros _. constructor.
  - exists e. split; [by apply runProgram_validation_Throw|].
    intros Hall. unfold validateBinaryAndProgram in Hin.
    case_bool_decide as Hlen; simpl in Hin.
    + clear Hbad. revert Hin. unfold forEach.
      assert (∀ l k e, Forall (λ x, hasStorage x = true) inputs →
        forEachFrom (λ s i,
          match inputs !! i with
          | Some input => validateOperand s input
          | None => Throw (TypeError "Cannot read property 'shape' of undefined")
          end) k l = Throw e →
        length l = length (drop k inputs) → ShapeMismatch e) as Hloop.
      { clear. intros l. induction l as [|s l IH]; intros k e Hall; [done|].
        simpl. intros Hrun Hlen.
        destruct (inputs !! k) as [x|] eqn:Hx.
        2:{ apply lookup_ge_None in Hx. rewrite length_drop in Hlen.
            simpl in Hlen. lia. }
        destruct (validateOperand s x) as [[ ]|e0] eqn:Hv; simpl in Hrun.
        - eapply (IH (S k)); eauto. rewrite length_drop in *.
          simpl in Hlen. lia.
        - injection Hrun as <-.
          eapply validateOperand_Throw_hasStorage; [|exact Hv].
          rewrite Forall_lookup in Hall. by eapply Hall. }
      intros Hin. eapply (Hloop _ 0%nat); eauto.
    + injection Hin as <-. constructor.
Qed.

Lemma runProgram_rejects_shape_mismatch_witness :
  ∃ e, @runProgram (exampleImports 2) (exampleContext allUniforms) addBinary
         [inputA_reshaped; inputB] outputC None = mkGL (Throw e) [] ∧
       (ExecuteProgram
          ∉ calls (@runProgram (exampleImports 2) (exampleContext allUniforms)
                     addBinary [inputA_reshaped; inputB] outputC None)) ∧
       (Forall (λ x, hasStorage x = true) [inputA_reshaped; inputB] →
        ShapeMismatch e).
Proof.
  apply (@runProgram_rejects_shape_mismatch (exampleImports 2)).
  right; left. exists 0%nat, (textureInfo [2; 6] (3, 5) false None), inputA_reshaped.
  split_and!; [reflexivity|reflexivity|discriminate].
Defined.

(** Whatever the validator throws is one of its three errors, as soon as
    every operand that is not uniform-backed has its texture data. *)
Lemma validate_forEachFrom_Throw_ShapeMismatch (inputs : list TensorData.t)
    (l : list ShapeInfo.t) k e :
  Forall (λ x, hasStorage x = true) inputs →
  forEachFrom (λ s i,
    match inputs !! i with
    | Some input => validateOperand s input
    | None => Throw (TypeError "Cannot read property 'shape' of undefined")
    end) k l = Throw e →
  length l = length (drop k inputs) →
  ShapeMismatch e.
Proof.
  intros Hall. revert k. induction l as [|s l IH]; intros k; [done|].
  simpl. intros Hrun Hlen.
  destruct (inputs !! k) as [x|] eqn:Hx.
  2:{ apply lookup_ge_None in Hx. rewrite length_drop in Hlen.
      simpl in Hlen. lia. }
  destruct (validateOperand s x) as [[ ]|e0] eqn:Hv; simpl in Hrun.
  - apply (IH (S k)); [done|]. rewrite length_drop in *. simpl in Hlen. lia.
  - injection Hrun as <-.
    eapply validateOperand_Throw_hasStorage; [|exact Hv].
    rewrite Forall_lookup in Hall. by eapply Hall.
Qed.

Lemma validateBinaryAndProgram_Throw_ShapeMismatch shapeInfos inputs e :
  validateBinaryAndProgram shapeInfos inputs = Throw e →
  Forall (λ x, hasStorage x = true) inputs →
  ShapeMismatch e.
Proof.
  unfold validateBinaryAndProgram, forEach. intros Hrun Hall.
  case_bool_decide as Hlen; simpl in Hrun.
  - by eapply (validate_forEachFrom_Throw_ShapeMismatch inputs shapeInfos 0).
  - injection Hrun as <-. constructor.
Qed.

(** C3. For every operand whose recorded and current logical shapes match:
    when both the recorded [ShapeInfo] and the current operand are
    uniform-backed, the operand check succeeds without looking at any texture
    shape; otherwise, when the current physical texture shape differs from the
    recorded one, the check throws the texture-shape mismatch, and
    [runProgram] throws without making any call on the context (so it never
    dispatches) both on any input list that has this operand at the position
    of this [ShapeInfo] and on this operand as the output of a binary whose
    recorded output is this [ShapeInfo]; the error is a shape-mismatch error
    as soon as every input that is not uniform-backed has its texture
    data. *)
Theorem validate_texture_shape `{!Imports} s operand :
  ShapeInfo.logicalShape s = TensorData.shape operand →
  (ShapeInfo.isUniform s = true → TensorData.isUniform operand = true →
   validateOperand s operand = Ok tt) ∧
  (ShapeInfo.isUniform s && TensorData.isUniform operand = false →
   ∀ texShapeB,
     texShapeOrNull operand = Ok texShapeB →
     texShapeB ≠ ShapeInfo.texShape s →
     validateOperand s operand
       = Throw (texShapeMismatch (ShapeInfo.texShape s) texShapeB) ∧
     (∀ gpgpu binary inputs output customSetup i,
        GPGPUBinary.inShapeInfos binary !! i = Some s →
        inputs !! i = Some operand →
        ∃ e, runProgram gpgpu binary inputs output customSetup
               = mkGL (Throw e) [] ∧
             (ExecuteProgram
                ∉ calls (runProgram gpgpu binary inputs output customSetup)) ∧
             (Forall (λ x, hasStorage x = true) inputs → ShapeMismatch e)) ∧
     (∀ gpgpu binary inputs customSetup,
        GPGPUBinary.outShapeInfo binary = s →
        ∃ e, runProgram gpgpu binary inputs operand customSetup
               = mkGL (Throw e) [] ∧
             (ExecuteProgram
                ∉ calls (runProgram gpgpu binary inputs operand customSetup)) ∧
             (Forall (λ x, hasStorage x = true) inputs → ShapeMismatch e))).
Proof.
  intros Hshape. rewrite (validateOperand_same_shape _ _ Hshape). split.
  - by intros -> ->.
  - intros Hu texShapeB Hts Hne.
    assert (validateOperand s operand
              = Throw (texShapeMismatch (ShapeInfo.texShape s) texShapeB)) as Hv.
    { rewrite (validateOperand_same_shape _ _ Hshape), Hu, Hts. simpl.
      by rewrite bool_decide_false. }
    rewrite <-(validateOperand_same_shape _ _ Hshape). split_and!; [done|..].
    + intros gpgpu binary inputs output customSetup i Hs Hx.
      destruct (validateBinaryAndProgram_Throw
                  (GPGPUBinary.inShapeInfos binary) inputs i s operand _
                  Hs Hx Hv) as (e & He & Hkind).
      exists e. rewrite (runProgram_validation_Throw _ _ _ _ _ _ He). simpl.
      split_and!; auto. apply not_elem_of_nil.
    + intros gpgpu binary inputs customSetup Hs.
      destruct (validateBinaryAndProgram (GPGPUBinary.inShapeInfos binary)
                  inputs) as [[ ]|e] eqn:Hin.
      * exists (texShapeMismatch (ShapeInfo.texShape s) texShapeB).
        rewrite (runProgram_output_validation_Throw _ _ _ _ _
                   (texShapeMismatch (ShapeInfo.texShape s) texShapeB) Hin).
        -- simpl. split_and!; [done|apply not_elem_of_nil|].
           intros _. constructor.
        -- unfold validateBinaryAndProgram, forEach. simpl.
           by rewrite Hs, Hv.
      * exists e. rewrite (runProgram_validation_Throw _ _ _ _ _ _ Hin). simpl.
        split_and!; [done|apply not_elem_of_nil|].
        by apply (validateBinaryAndProgram_Throw_ShapeMismatch _ _ _ Hin).
Qed.

Lemma validate_texture_shape_witness :
  validateOperand (uniformInfo [1; 4]) inputB = Ok tt ∧
  validateOperand (textureInfo [2; 6] (3, 5) false None) inputA_retextured
    = Throw (texShapeMismatch (Some (3, 5)) (Some (4, 3))) ∧
  (∃ e, @runProgram (exampleImports 2) (exampleContext allUniforms) addBinary
          [inputA_retextured; inputB] outputC None = mkGL (Throw e) [] ∧
        ShapeMismatch e) ∧
  (∃ e, @runProgram (exampleImports 2) (exampleContext allUniforms) addBinary
          [inputA; inputB] outputC_retextured None = mkGL (Throw e) [] ∧
        ShapeMismatch e).
Proof.
  destruct (@validate_texture_shape (exampleImports 2)
              (uniformInfo [1; 4]) inputB eq_refl) as [Huniform _].
  destruct (@validate_texture_shape (exampleImports 2)
              (textureInfo [2; 6] (3, 5) false None) inputA_retextured eq_refl)
    as [_ Hinput].
  destruct (@validate_texture_shape (exampleImports 2)
              (textureInfo [2; 6] (3, 5) false None) outputC_retextured eq_refl)
    as [_ Houtput].
  destruct (Hinput eq_refl (Some (4, 3)) eq_refl) as (Hop & Hrun & _);
    [discriminate|].
  destruct (Houtput eq_refl (Some (4, 3)) eq_refl) as (_ & _ & Hrun');
    [discriminate|].
  destruct (Hrun (exampleContext allUniforms) addBinary
              [inputA_retextured; inputB] outputC None 0%nat eq_refl eq_refl)
    as (e & He & _ & Hkind).
  destruct (Hrun' (exampleContext allUniforms) addBinary [inputA; inputB] None
              eq_refl) as (e' & He' & _ & Hkind').
  split_and!; [by apply Huniform|exact Hop| |].
  - exists e. split; [exact He|]. apply Hkind. repeat constructor.
  - exists e'. split; [exact He'|]. apply Hkind'. repeat constructor.
Defined.

(** C6. The validator accepts every operand list that agrees with the
    recorded [ShapeInfo]s on logical shape and on physical texture shape (or
    is uniform-backed on both sides), whatever packed-layout flag and flat
    offset were recorded: these two fields are never compared, so validation
    succeeds also when they differ from the current operand's. *)
Theorem validate_ignores_packing_and_offset shapeInfos inputs
    (recordedPacked : ShapeInfo.t → bool)
    (recordedOffset : ShapeInfo.t → option Z) :
  Forall2 agreesWith shapeInfos inputs →
  validateBinaryAndProgram
    ((λ s, {| ShapeInfo.logicalShape := ShapeInfo.logicalShape s;
              ShapeInfo.texShape := ShapeInfo.texShape s;
              ShapeInfo.isUniform := ShapeInfo.isUniform s;
              ShapeInfo.isPacked := recordedPacked s;
              ShapeInfo.flatOffset := recordedOffset s |}) <$> shapeInfos)
    inputs = Ok tt.
Proof.
  intros Hall. apply validateBinaryAndProgram_Ok.
  apply Forall2_fmap_l. eapply Forall2_impl; [exact Hall|].
  intros s x Hagree. by apply validateOperand_agreesWith.
Qed.

Lemma validate_ignores_packing_and_offset_witness :
  validateBinaryAndProgram
    [textureInfo [2; 6] (3, 5) false None; uniformInfo [1; 4]]
    [inputA_packed_sliced; inputB] = Ok tt ∧
  (TextureData.isPacked <$> TensorData.texData inputA_packed_sliced) = Some true ∧
  hasOffset inputA_packed_sliced = true.
Proof.
  split; [|by split].
  apply (validate_ignores_packing_and_offset
           [textureInfo [2; 6] (3, 5) true (Some 9); uniformInfo [1; 4]]
           [inputA_packed_sliced; inputB]
           (λ _, false) (λ _, None)).
  constructor; [split; [reflexivity|right; reflexivity]|].
  constructor; [split; [reflexivity|left; reflexivity]|].
  constructor.
Defined.

(** ** The executor: shape of a run *)

Lemma GL_bind_Ok_eq {A B} (m : GL A) (f : A → GL B) a :
  result m = Ok a → m ≫= f = mkGL (result (f a)) (calls m ++ calls (f a)).
Proof. unfold mbind, GL_bind. by intros ->. Qed.

Lemma GL_bind_pure_Ok {A B} (a : A) (f : A → GL B) : pure (Ok a) ≫= f = f a.
Proof. unfold mbind, GL_bind, pure. simpl. by destruct (f a). Qed.

Lemma uploadUniform1ivVals_result binary uniformName values :
  result (uploadUniform1ivVals binary uniformName values) = Ok tt.
Proof. unfold uploadUniform1ivVals. by destruct (uniformLocation _ _). Qed.

Lemma uploadUniform1iVals_result binary uniformName values :
  result (uploadUniform1iVals binary uniformName values) = Ok tt.
Proof. unfold uploadUniform1iVals. by destruct (uniformLocation _ _). Qed.

(** The upload of the slice offset at the end of the input callback. *)
Lemma offsetUpload_result binary varName (slice : option Slice.t) :
  result (match slice with
          | Some slice =>
              uploadUniform1iVals binary ("offset" +:+ varName)
                (Some (JS.Int (Slice.flatOffset slice)))
          | None => mret tt
          end) = Ok tt.
Proof. destruct slice; [apply uploadUniform1iVals_result|done]. Qed.

(** The calls of the input callback for a texture-backed input whose primary
    location is resolved. *)
Lemma runProgramInput_texture `{!Imports} binary input i td varLoc :
  let varName :=
    JS.ofName (GPGPUProgram.variableNames (GPGPUBinary.program binary) !! i) in
  let shape := shaderShape binary input in
  uniformLocation binary varName = Some varLoc →
  TensorData.isUniform input = false →
  TensorData.texData input = Some td →
  runProgramInput binary input i = mkGL (Ok tt) (
    calls (uploadUniform1ivVals binary ("shape" +:+ varName) shape) ++
    calls (uploadUniform1ivVals binary ("strides" +:+ varName)
             (util_computeStrides shape)) ++
    calls (uploadUniform1ivVals binary ("texShape" +:+ varName)
             (texShapeArray (TextureData.texShape td))) ++
    calls (uploadUniform1ivVals binary ("packedTexShape" +:+ varName)
             (packedTexShape (TextureData.texShape td))) ++
    calls (uploadUniform1iVals binary ("valuesPerRow" +:+ varName)
             (JS.Int <$> valuesPerRow shape)) ++
    calls (uploadUniform1iVals binary ("texelsInBatch" +:+ varName)
             (texelsInBatch shape)) ++
    calls (match TextureData.slice td with
           | Some slice =>
               uploadUniform1iVals binary ("offset" +:+ varName)
                 (Some (JS.Int (Slice.flatOffset slice)))
           | None => mret tt
           end) ++
    [SetInputMatrixTexture (TextureData.texture td) varLoc i]).
Proof.
  intros varName shape Hloc Huni Htd. unfold runProgramInput.
  fold varName. rewrite Hloc, Huni. fold shape.
  unfold texDataOf. rewrite Htd.
  repeat (rewrite GL_bind_pure_Ok ||
          rewrite (GL_bind_Ok_eq _ _ tt)
            by (apply uploadUniform1ivVals_result ||
                apply uploadUniform1iVals_result ||
                apply offsetUpload_result)).
  simpl. done.
Qed.

(** The calls of the output block for a non-scalar output. *)
Lemma runProgramOutput_nonscalar `{!Imports} binary output td :
  let outputShape := TensorData.shape output in
  (0 < length outputShape)%nat →
  TensorData.texData output = Some td →
  runProgramOutput binary output = mkGL (Ok tt) (
    calls (uploadUniform1ivVals binary "outputShape" outputShape) ++
    calls (uploadUniform1ivVals binary "outputStrides"
             (util_computeStrides outputShape)) ++
    calls (uploadUniform1ivVals binary "outputTexShape"
             (texShapeArray (TextureData.texShape td))) ++
    calls (uploadUniform1ivVals binary "outputPackedTexShape"
             (packedTexShape (TextureData.texShape td))) ++
    calls (uploadUniform1iVals binary "outputTexelsInLogicalRow"
             (JS.Int <$> valuesPerRow outputShape)) ++
    calls (uploadUniform1iVals binary "outputTexelsInBatch"
             (texelsInBatch outputShape))).
Proof.
  intros outputShape Hrank Htd. unfold runProgramOutput, when.
  rewrite bool_decide_true by done. fold outputShape.
  unfold texDataOf. rewrite Htd.
  repeat (rewrite GL_bind_pure_Ok ||
          rewrite (GL_bind_Ok_eq _ _ tt)
            by (apply uploadUniform1ivVals_result ||
                apply uploadUniform1iVals_result)).
  simpl. rewrite uploadUniform1iVals_result.
  by rewrite (GL_eta (uploadUniform1iVals _ _ _)), uploadUniform1iVals_result.
Qed.

(** A loop that completes made the calls of each of its iterations. *)
Lemma forEachGLFrom_Ok_lookup {A} (f : A → nat → GL unit) l k i x :
  result (forEachGLFrom f k l) = Ok tt →
  l !! i = Some x →
  result (f x (k + i)%nat) = Ok tt ∧
  ∃ before after,
    calls (forEachGLFrom f k l) = before ++ calls (f x (k + i)%nat) ++ after.
Proof.
  revert k i. induction l as [|y l IH]; intros k i Hok Hx; [done|].
  simpl in Hok. apply GL_bind_result_Ok in Hok as ([] & Hy & Hrest & Hcalls).
  simpl. rewrite Hcalls. destruct i as [|i]; simpl in Hx.
  - simplify_eq. rewrite Nat.add_0_r. split; [done|].
    by exists [], (calls (forEachGLFrom f (S k) l)).
  - destruct (IH (S k) i Hrest Hx) as (Hfx & before & after & Heq).
    replace (k + S i)%nat with (S k + i)%nat by lia. split; [done|].
    exists (calls (f y k) ++ before), after. by rewrite Heq, <-app_assoc.
Qed.

(** The hook as a computation: nothing when it is absent. *)
Lemma runProgram_unfold `{!Imports} gpgpu binary inputs output customSetup :
  validateBinaryAndProgram (GPGPUBinary.inShapeInfos binary) inputs = Ok tt →
  validateBinaryAndProgram [GPGPUBinary.outShapeInfo binary] [output] = Ok tt →
  runProgram gpgpu binary inputs output customSetup =
    (runProgramUploads binary inputs output;;
     match customSetup with
     | Some customSetup => customSetup gpgpu (GPGPUBinary.webGLProgram binary)
     | None => mret tt
     end;;
     gl ExecuteProgram).
Proof.
  intros Hin Hout. unfold runProgram. rewrite Hin, Hout.
  by rewrite !GL_bind_pure_Ok.
Qed.

(** A run that completes passed both validations, made the standard calls,
    then the calls of the hook, then the dispatch. *)
Lemma runProgram_Ok `{!Imports} gpgpu binary inputs output customSetup :
  result (runProgram gpgpu binary inputs output customSetup) = Ok tt →
  validateBinaryAndProgram (GPGPUBinary.inShapeInfos binary) inputs = Ok tt ∧
  validateBinaryAndProgram [GPGPUBinary.outShapeInfo binary] [output] = Ok tt ∧
  result (runProgramUploads binary inputs output) = Ok tt ∧
  calls (runProgram gpgpu binary inputs output customSetup) =
    calls (runProgramUploads binary inputs output) ++
    calls (match customSetup with
           | Some customSetup =>
               customSetup gpgpu (GPGPUBinary.webGLProgram binary)
           | None => mret tt
           end) ++ [ExecuteProgram].
Proof.
  intros Hok.
  destruct (validateBinaryAndProgram (GPGPUBinary.inShapeInfos binary) inputs)
    as [[ ]|e] eqn:Hin.
  2:{ by rewrite (runProgram_validation_Throw _ _ _ _ _ _ Hin) in Hok. }
  destruct (validateBinaryAndProgram [GPGPUBinary.outShapeInfo binary] [output])
    as [[ ]|e] eqn:Hout.
  2:{ by rewrite (runProgram_output_validation_Throw _ _ _ _ _ _ Hin Hout) in Hok. }
  rewrite (runProgram_unfold _ _ _ _ _ Hin Hout) in Hok |- *.
  apply GL_bind_result_Ok in Hok as ([] & Hup & Hrest & Hcalls).
  apply GL_bind_result_Ok in Hrest as ([] & Hhook & _ & Hcalls').
  split_and!; [done..|]. by rewrite Hcalls, Hcalls'.
Qed.


(** The standard calls of a run that completes: output binding, program
    activation, the special constants, the inputs in order, the output. *)
Lemma runProgramUploads_Ok `{!Imports} binary inputs output :
  result (runProgramUploads binary inputs output) = Ok tt →
  ∃ td, TensorData.texData output = Some td ∧
    result (forEachGL (runProgramInput binary) inputs) = Ok tt ∧
    result (runProgramOutput binary output) = Ok tt ∧
    calls (runProgramUploads binary inputs output) =
      [ if TextureData.isPacked td
        then SetOutputPackedMatrixTexture (TextureData.texture td)
               (TextureData.texShape td).1 (TextureData.texShape td).2
        else SetOutputMatrixTexture (TextureData.texture td)
               (TextureData.texShape td).1 (TextureData.texShape td).2;
        SetProgram (GPGPUBinary.webGLProgram binary) ] ++
      (if bool_decide (ENV_getNumber "WEBGL_VERSION" = 1) then
         match GPGPUBinary.infLoc binary with
         | Some infLoc => [Uniform1f infLoc (Some infinity)]
         | None => []
         end
       else []) ++
      match GPGPUBinary.nanLoc binary with
      | Some nanLoc => [Uniform1f nanLoc (Some nan)]
      | None => []
      end ++
      calls (forEachGL (runProgramInput binary) inputs) ++
      calls (runProgramOutput binary output).
Proof.
  unfold runProgramUploads, texDataOf.
  destruct (TensorData.texData output) as [td|]; [|done].
  rewrite GL_bind_pure_Ok. intros Hok. exists td. split; [done|].
  apply GL_bind_result_Ok in Hok as ([] & _ & Hok & ->).
  apply GL_bind_result_Ok in Hok as ([] & _ & Hok & ->).
  apply GL_bind_result_Ok in Hok as ([] & _ & Hok & ->).
  apply GL_bind_result_Ok in Hok as ([] & _ & Hok & ->).
  apply GL_bind_result_Ok in Hok as ([] & Hloop & Hout & ->).
  split_and!; [done..|].
  destruct (TextureData.isPacked td); simpl;
    (do 2 f_equal); unfold when;
    destruct (bool_decide _); destruct (GPGPUBinary.infLoc binary);
    destruct (GPGPUBinary.nanLoc binary); simpl; done.
Qed.

Lemma runProgram_Ok_hook `{!Imports} gpgpu binary inputs output customSetup :
  result (runProgram gpgpu binary inputs output (Some customSetup)) = Ok tt →
  result (customSetup gpgpu (GPGPUBinary.webGLProgram binary)) = Ok tt.
Proof.
  intros Hok. pose proof (runProgram_Ok _ _ _ _ _ Hok) as (Hin & Hout & _).
  rewrite (runProgram_unfold _ _ _ _ _ Hin Hout) in Hok.
  apply GL_bind_result_Ok in Hok as ([] & _ & Hrest & _).
  by apply GL_bind_result_Ok in Hrest as ([] & Hhook & _).
Qed.

(** Contiguous parts of a list of calls. *)
Lemma calls_part_app_l (m l p : list GLCall) :
  (∃ before after, l = before ++ m ++ after) →
  ∃ before after, p ++ l = before ++ m ++ after.
Proof.
  intros (b & a & ->). exists (p ++ b), a. by rewrite <-app_assoc.
Qed.

Lemma calls_part_app_r (m l q : list GLCall) :
  (∃ before after, l = before ++ m ++ after) →
  ∃ before after, l ++ q = before ++ m ++ after.
Proof.
  intros (b & a & ->). exists b, (a ++ q). by rewrite <-!app_assoc.
Qed.

Lemma calls_part_refl (m : list GLCall) : ∃ before after, m = before ++ m ++ after.
Proof. exists [], []. by rewrite app_nil_r. Qed.

(** In a run that completes, the calls of each input's callback and of the
    output block are part of the run. *)
Lemma runProgram_calls_input `{!Imports} gpgpu binary inputs output customSetup
    i input :
  result (runProgram gpgpu binary inputs output customSetup) = Ok tt →
  inputs !! i = Some input →
  ∃ before after,
    calls (runProgram gpgpu binary inputs output customSetup)
      = before ++ calls (runProgramInput binary input i) ++ after.
Proof.
  intros Hok Hi. apply runProgram_Ok in Hok as (_ & _ & Hup & ->).
  apply runProgramUploads_Ok in Hup as (td & _ & Hloop & _ & ->).
  destruct (forEachGLFrom_Ok_lookup _ _ 0%nat i input Hloop Hi)
    as (_ & Hpart).
  apply calls_part_app_r. do 3 apply calls_part_app_l.
  apply calls_part_app_r. exact Hpart.
Qed.

Lemma runProgram_calls_output `{!Imports} gpgpu binary inputs output customSetup :
  result (runProgram gpgpu binary inputs output customSetup) = Ok tt →
  ∃ before after,
    calls (runProgram gpgpu binary inputs output customSetup)
      = before ++ calls (runProgramOutput binary output) ++ after.
Proof.
  intros Hok. apply runProgram_Ok in Hok as (_ & _ & Hup & ->).
  apply runProgramUploads_Ok in Hup as (td & _ & _ & _ & ->).
  apply calls_part_app_r. do 4 apply calls_part_app_l.
  apply calls_part_refl.
Qed.

Lemma calls_part_elem (c : GLCall) (m l : list GLCall) :
  c ∈ m → (∃ before after, l = before ++ m ++ after) → c ∈ l.
Proof. intros Hc (b & a & ->). rewrite !elem_of_app. auto. Qed.

(** ** The executor: what is uploaded *)

Lemma elem_of_uploadUniform1iVals binary uniformName values loc x :
  Uniform1i loc x ∈ calls (uploadUniform1iVals binary uniformName values) ↔
  uniformLocation binary uniformName = Some loc ∧ x = values.
Proof.
  unfold uploadUniform1iVals.
  destruct (uniformLocation binary uniformName) as [l|]; simpl.
  - rewrite list_elem_of_singleton. split; [by intros [= -> ->]|].
    by intros [[= ->] ->].
  - rewrite elem_of_nil. split; [done|by intros [? _]].
Qed.

Lemma Uniform1i_not_in_uploadUniform1ivVals binary uniformName values loc x :
  Uniform1i loc x ∉ calls (uploadUniform1ivVals binary uniformName values).
Proof.
  unfold uploadUniform1ivVals.
  destruct (uniformLocation binary uniformName) as [l|]; simpl.
  - rewrite list_elem_of_singleton. done.
  - apply not_elem_of_nil.
Qed.

Lemma elem_of_uploadUniform1ivVals binary uniformName values loc v :
  Uniform1iv loc v ∈ calls (uploadUniform1ivVals binary uniformName values) ↔
  uniformLocation binary uniformName = Some loc ∧ v = JS.toInt32 <$> values.
Proof.
  unfold uploadUniform1ivVals.
  destruct (uniformLocation binary uniformName) as [l|]; simpl.
  - rewrite list_elem_of_singleton. split; [by intros [= -> ->]|].
    by intros [[= ->] ->].
  - rewrite elem_of_nil. split; [done|by intros [? _]].
Qed.

(** C4 (as the code has it). For every texture-backed input whose primary
    location and [offset<name>] location are resolved, the input callback
    completes, and it uploads the offset uniform exactly when the operand
    carries a slice descriptor: the value uploaded is the slice's flat offset,
    zero included, and an operand with no slice gets no offset upload.  (The
    offset location is told apart from the two other integer uniforms of the
    operand.)  In a run that completes, the upload of a sliced input is among
    the calls of the run. *)
Theorem offset_uploaded_iff_sliced `{!Imports} binary input i td varLoc offsetLoc :
  let varName :=
    JS.ofName (GPGPUProgram.variableNames (GPGPUBinary.program binary) !! i) in
  TensorData.isUniform input = false →
  TensorData.texData input = Some td →
  uniformLocation binary varName = Some varLoc →
  uniformLocation binary ("offset" +:+ varName) = Some offsetLoc →
  uniformLocation binary ("valuesPerRow" +:+ varName) ≠ Some offsetLoc →
  uniformLocation binary ("texelsInBatch" +:+ varName) ≠ Some offsetLoc →
  result (runProgramInput binary input i) = Ok tt ∧
  (∀ x, Uniform1i offsetLoc x ∈ calls (runProgramInput binary input i) ↔
        ∃ slice, TextureData.slice td = Some slice ∧
                 x = Some (JS.Int (Slice.flatOffset slice))) ∧
  (∀ gpgpu inputs output customSetup slice,
     result (runProgram gpgpu binary inputs output customSetup) = Ok tt →
     inputs !! i = Some input →
     TextureData.slice td = Some slice →
     Uniform1i offsetLoc (Some (JS.Int (Slice.flatOffset slice)))
       ∈ calls (runProgram gpgpu binary inputs output customSetup)).
Proof.
  intros varName Huni Htd Hloc Hoff Hvpr Htib.
  pose proof (runProgramInput_texture binary input i td varLoc Hloc Huni Htd)
    as Hrun. fold varName in Hrun.
  assert (∀ x, Uniform1i offsetLoc x ∈ calls (runProgramInput binary input i) ↔
               ∃ slice, TextureData.slice td = Some slice ∧
                        x = Some (JS.Int (Slice.flatOffset slice))) as Hiff.
  { intros x. rewrite Hrun. simpl. rewrite !elem_of_app.
    rewrite !elem_of_uploadUniform1iVals, list_elem_of_singleton.
    split.
    - intros [Hin|[Hin|[Hin|[Hin|[[Hl _]|[[Hl _]|[Hin|Hin]]]]]]];
        try (by apply Uniform1i_not_in_uploadUniform1ivVals in Hin);
        try congruence.
      destruct (TextureData.slice td) as [slice|]; simpl in Hin.
      + apply elem_of_uploadUniform1iVals in Hin as [_ ->]. eauto.
      + by apply elem_of_nil in Hin.
    - intros (slice & -> & ->). do 6 right. left.
      by apply elem_of_uploadUniform1iVals. }
  split_and!; [by rewrite Hrun|exact Hiff|].
  intros gpgpu inputs output customSetup slice Hok Hi Hslice.
  eapply calls_part_elem; [|by eapply runProgram_calls_input].
  apply Hiff. eauto.
Qed.

Lemma offset_uploaded_iff_sliced_witness :
  result (@runProgramInput (exampleImports 2) addBinary inputA_packed_sliced 0)
    = Ok tt ∧
  Uniform1i 11%N (Some (JS.Int 4))
    ∈ calls (@runProgramInput (exampleImports 2) addBinary inputA_packed_sliced 0).
Proof.
  destruct (@offset_uploaded_iff_sliced (exampleImports 2) addBinary
              inputA_packed_sliced 0
              (TextureData.mk 100%N (3, 5) true (Some (Slice.mk 4))) 10%N 11%N)
    as (Hok & Hiff & _); [reflexivity..|discriminate|discriminate|].
  split; [exact Hok|]. apply Hiff. by exists (Slice.mk 4).
Defined.

(** C4, as stated, fails: an input sliced at flat offset 0 carries no nonzero
    slice offset, and the run uploads its offset uniform all the same (the
    call [Uniform1i 11 (Some (JS.Int 0))] below). *)
Lemma offset_zero_is_uploaded :
  hasOffset inputA_sliced_at_0 = false ∧
  uniformLocation addBinary "A" = Some 10%N ∧
  uniformLocation addBinary "offsetA" = Some 11%N ∧
  @runProgram (exampleImports 2) (exampleContext allUniforms) addBinary
    [inputA_sliced_at_0; inputB] outputC None =
  mkGL (Ok tt)
    [ SetOutputMatrixTexture 102%N 3 5; SetProgram 1%N;
      Uniform1f 3%N (Some nan);
      Uniform1iv 12%N [2; 6]; Uniform1iv 14%N [6]; Uniform1iv 13%N [3; 5];
      Uniform1iv 15%N [2; 3]; Uniform1i 16%N (Some (JS.Int 3));
      Uniform1i 17%N (Some (JS.Int 3));
      Uniform1i 11%N (Some (JS.Int 0));
      SetInputMatrixTexture 100%N 10%N 0;
      Uniform1fv 20%N [1; 2; 3; 4]%float;
      Uniform1iv 30%N [2; 6]; Uniform1iv 31%N [6]; Uniform1iv 32%N [3; 5];
      Uniform1iv 33%N [2; 3]; Uniform1i 34%N (Some (JS.Int 3));
      Uniform1i 35%N (Some (JS.Int 3));
      ExecuteProgram ].
Proof. split_and!; vm_compute; reflexivity. Qed.

Lemma ceilHalf_isCeilHalf x : isCeilHalf x (JS.ceilHalf x).
Proof.
  unfold isCeilHalf, JS.ceilHalf.
  pose proof (Z.div_mod (x + 1) 2 ltac:(lia)) as Hdm.
  pose proof (Z.mod_pos_bound (x + 1) 2 ltac:(lia)) as Hb. lia.
Qed.

Lemma isCeilHalf_unique x c c' : isCeilHalf x c → isCeilHalf x c' → c = c'.
Proof. unfold isCeilHalf. lia. Qed.

Lemma toInt32_small x : - 2 ^ 31 ≤ x < 2 ^ 31 → JS.toInt32 x = x.
Proof.
  intros Hx. unfold JS.toInt32. rewrite Z.mod_small; lia.
Qed.

(** C5. For every physical texture shape [(h, w)] the packed texture shape
    the executor computes is [(ceil(h/2), ceil(w/2))], odd dimensions included
    ([(3, 5)] gives [(2, 3)]).  In every run that completes, for a non-scalar
    output and for a texture-backed input with a resolved primary location,
    this shape is what is uploaded (as an [Int32Array], which leaves values in
    the 32-bit range as they are) at the location of [outputPackedTexShape],
    resp. [packedTexShape<name>], whenever that location exists.  Nothing in
    this depends on the program's [usesPackedTextures] flag. *)
Theorem packedTexShape_uploaded `{!Imports} :
  (∀ h w, ∃ ph pw, packedTexShape (h, w) = [ph; pw] ∧
                   isCeilHalf h ph ∧ isCeilHalf w pw) ∧
  packedTexShape (3, 5) = [2; 3] ∧
  (∀ x, - 2 ^ 31 ≤ x < 2 ^ 31 → JS.toInt32 x = x) ∧
  (∀ gpgpu binary inputs output customSetup td loc,
     result (runProgram gpgpu binary inputs output customSetup) = Ok tt →
     (0 < length (TensorData.shape output))%nat →
     TensorData.texData output = Some td →
     uniformLocation binary "outputPackedTexShape" = Some loc →
     Uniform1iv loc (JS.toInt32 <$> packedTexShape (TextureData.texShape td))
       ∈ calls (runProgram gpgpu binary inputs output customSetup)) ∧
  (∀ gpgpu binary inputs output customSetup i input td varLoc loc,
     let varName :=
       JS.ofName (GPGPUProgram.variableNames (GPGPUBinary.program binary) !! i) in
     result (runProgram gpgpu binary inputs output customSetup) = Ok tt →
     inputs !! i = Some input →
     TensorData.isUniform input = false →
     TensorData.texData input = Some td →
     uniformLocation binary varName = Some varLoc →
     uniformLocation binary ("packedTexShape" +:+ varName) = Some loc →
     Uniform1iv loc (JS.toInt32 <$> packedTexShape (TextureData.texShape td))
       ∈ calls (runProgram gpgpu binary inputs output customSetup)).
Proof.
  split_and!.
  - intros h w. exists (JS.ceilHalf h), (JS.ceilHalf w).
    split; [done|]. split; apply ceilHalf_isCeilHalf.
  - reflexivity.
  - apply toInt32_small.
  - intros gpgpu binary inputs output customSetup td loc Hok Hrank Htd Hloc.
    eapply calls_part_elem; [|by eapply runProgram_calls_output].
    rewrite (runProgramOutput_nonscalar _ _ td Hrank Htd). simpl.
    rewrite !elem_of_app. do 3 right. left.
    by apply elem_of_uploadUniform1ivVals.
  - intros gpgpu binary inputs output customSetup i input td varLoc loc varName
      Hok Hi Huni Htd Hvar Hloc.
    eapply calls_part_elem; [|by eapply runProgram_calls_input].
    rewrite (runProgramInput_texture _ _ _ td varLoc Hvar Huni Htd). simpl.
    rewrite !elem_of_app. do 3 right. left.
    by apply elem_of_uploadUniform1ivVals.
Qed.

Lemma packedTexShape_uploaded_witness :
  Uniform1iv 33%N [2; 3]
    ∈ calls (@runProgram (exampleImports 2) (exampleContext allUniforms)
               addBinary [inputA; inputB] outputC None) ∧
  Uniform1iv 15%N [2; 3]
    ∈ calls (@runProgram (exampleImports 2) (exampleContext allUniforms)
               addBinary [inputA; inputB] outputC None) ∧
  usesPacked addBinary = false.
Proof.
  destruct (@packedTexShape_uploaded (exampleImports 2))
    as (_ & _ & _ & Hout & Hin).
  split_and!; [| |reflexivity].
  - apply (Hout (exampleContext allUniforms) addBinary [inputA; inputB] outputC
             None (TextureData.mk 102%N (3, 5) false None) 33%N);
      [vm_compute; reflexivity|simpl; lia|reflexivity|reflexivity].
  - apply (Hin (exampleContext allUniforms) addBinary [inputA; inputB] outputC
             None 0%nat inputA (TextureData.mk 100%N (3, 5) false None)
             10%N 15%N);
      [vm_compute; reflexivity|reflexivity..].
Defined.



(** C10. For a shape of rank 1, the read [shape[rank - 2]] of the
    texels-per-batch computation is out of bounds and yields no element, so
    the computed [texelsInBatch] is not a number.  This is the value the
    executor passes to [uniform1i] for every texture-backed input whose
    shader-visible shape (squeezed or packed) has rank 1, and for every
    output of rank 1, where the corresponding location exists. *)
Theorem texelsInBatch_rank_1 `{!Imports} :
  (∀ shape : list Z, length shape = 1%nat →
     JS.index shape (Z.of_nat (length shape) - 2) = None ∧
     texelsInBatch shape = None) ∧
  (∀ binary input i td varLoc loc,
     let varName :=
       JS.ofName (GPGPUProgram.variableNames (GPGPUBinary.program binary) !! i) in
     TensorData.isUniform input = false →
     TensorData.texData input = Some td →
     uniformLocation binary varName = Some varLoc →
     length (shaderShape binary input) = 1%nat →
     uniformLocation binary ("texelsInBatch" +:+ varName) = Some loc →
     Uniform1i loc None ∈ calls (runProgramInput binary input i)) ∧
  (∀ binary output td loc,
     length (TensorData.shape output) = 1%nat →
     TensorData.texData output = Some td →
     uniformLocation binary "outputTexelsInBatch" = Some loc →
     Uniform1i loc None ∈ calls (runProgramOutput binary output)).
Proof.
  assert (∀ shape : list Z, length shape = 1%nat →
     JS.index shape (Z.of_nat (length shape) - 2) = None ∧
     texelsInBatch shape = None) as Hrank1.
  { intros shape Hlen. unfold texelsInBatch, valuesPerRow. rewrite Hlen.
    destruct shape as [|d [|]]; done. }
  split_and!; [exact Hrank1|..].
  - intros binary input i td varLoc loc varName Huni Htd Hvar Hlen Hloc.
    rewrite (runProgramInput_texture _ _ _ td varLoc Hvar Huni Htd). simpl.
    rewrite !elem_of_app. do 5 right. left.
    apply elem_of_uploadUniform1iVals. split; [done|].
    symmetry. by apply Hrank1.
  - intros binary output td loc Hlen Htd Hloc.
    rewrite (runProgramOutput_nonscalar _ _ td) by (done || lia). simpl.
    rewrite !elem_of_app. do 5 right.
    apply elem_of_uploadUniform1iVals. split; [done|].
    symmetry. by apply Hrank1.
Qed.

Lemma texelsInBatch_rank_1_witness :
  texelsInBatch [6] = None ∧
  Uniform1i 17%N None
    ∈ calls (@runProgramInput (exampleImports 2) addBinary inputRow 0) ∧
  Uniform1i 35%N None
    ∈ calls (@runProgramOutput (exampleImports 2) addBinary outputRow).
Proof.
  destruct (@texelsInBatch_rank_1 (exampleImports 2)) as (Hshape & Hin & Hout).
  split_and!.
  - by apply (Hshape [6]).
  - by apply (Hin addBinary inputRow 0%nat
                (TextureData.mk 100%N (1, 6) false None) 10%N 17%N).
  - by apply (Hout addBinary outputRow
                (TextureData.mk 102%N (1, 6) false None) 35%N).
Defined.

(** ** The setup hook *)

Lemma uniformState_app before after loc :
  uniformState (before ++ after) loc =
    match uniformState after loc with
    | Some v => Some v
    | None => uniformState before loc
    end.
Proof.
  induction before as [|c before IH]; simpl.
  - by destruct (uniformState after loc).
  - rewrite IH. by destruct (uniformState after loc).
Qed.

(** No standard call is a dispatch. *)
Lemma no_dispatch_bind {A B} (m : GL A) (f : A → GL B) :
  ExecuteProgram ∉ calls m → (∀ a, ExecuteProgram ∉ calls (f a)) →
  ExecuteProgram ∉ calls (m ≫= f).
Proof.
  intros Hm Hf. unfold mbind, GL_bind. destruct (result m) as [a|e]; simpl.
  - rewrite elem_of_app. intros [?|?]; [done|by eapply Hf].
  - done.
Qed.

Lemma no_dispatch_pure {A} (r : Result A) : ExecuteProgram ∉ calls (pure r).
Proof. apply not_elem_of_nil. Qed.

Lemma no_dispatch_uploadUniform1ivVals binary uniformName values :
  ExecuteProgram ∉ calls (uploadUniform1ivVals binary uniformName values).
Proof.
  unfold uploadUniform1ivVals. destruct (uniformLocation _ _); simpl.
  - by rewrite list_elem_of_singleton.
  - apply not_elem_of_nil.
Qed.

Lemma no_dispatch_uploadUniform1iVals binary uniformName values :
  ExecuteProgram ∉ calls (uploadUniform1iVals binary uniformName values).
Proof.
  unfold uploadUniform1iVals. destruct (uniformLocation _ _); simpl.
  - by rewrite list_elem_of_singleton.
  - apply not_elem_of_nil.
Qed.

Ltac no_dispatch :=
  repeat first
    [ apply no_dispatch_uploadUniform1ivVals
    | apply no_dispatch_uploadUniform1iVals
    | apply no_dispatch_pure
    | apply not_elem_of_nil
    | (apply no_dispatch_bind; [|intros ?])
    | (simpl; rewrite list_elem_of_singleton; discriminate) ].

Lemma no_dispatch_runProgramInput `{!Imports} binary input i :
  ExecuteProgram ∉ calls (runProgramInput binary input i).
Proof.
  unfold runProgramInput. destruct (uniformLocation _ _); [|no_dispatch].
  destruct (TensorData.isUniform input).
  - case_bool_decide; no_dispatch.
  - no_dispatch. destruct (TextureData.slice _); no_dispatch.
Qed.

Lemma no_dispatch_forEachGLFrom {A} (f : A → nat → GL unit) k l :
  (∀ x i, ExecuteProgram ∉ calls (f x i)) →
  ExecuteProgram ∉ calls (forEachGLFrom f k l).
Proof.
  intros Hf. revert k. induction l as [|x l IH]; intros k; simpl.
  - apply not_elem_of_nil.
  - apply no_dispatch_bind; [apply Hf|intros _; apply IH].
Qed.

Lemma no_dispatch_runProgramOutput `{!Imports} binary output :
  ExecuteProgram ∉ calls (runProgramOutput binary output).
Proof.
  unfold runProgramOutput, when. case_bool_decide; no_dispatch.
Qed.

Lemma no_dispatch_runProgramUploads `{!Imports} binary inputs output :
  ExecuteProgram ∉ calls (runProgramUploads binary inputs output).
Proof.
  unfold runProgramUploads, when. no_dispatch.
  - destruct (TextureData.isPacked _); no_dispatch.
  - case_bool_decide; [destruct (GPGPUBinary.infLoc _)|]; no_dispatch.
  - destruct (GPGPUBinary.nanLoc _); no_dispatch.
  - apply no_dispatch_forEachGLFrom. apply no_dispatch_runProgramInput.
  - apply no_dispatch_runProgramOutput.
Qed.

(** C9. In every run that completes with a setup hook, the calls of the run
    are: the standard calls (output binding, program activation, constants,
    per-input and output metadata: exactly the calls a run without hook makes
    before its dispatch, none of which is a dispatch), then the calls of the
    hook, then the dispatch as the last call.  Hence a uniform the hook writes
    holds the hook's value when the dispatch is issued. *)
Theorem customSetup_runs_between_uploads_and_dispatch `{!Imports} gpgpu binary
    inputs output customSetup :
  let standard := calls (runProgramUploads binary inputs output) in
  let hook := calls (customSetup gpgpu (GPGPUBinary.webGLProgram binary)) in
  result (runProgram gpgpu binary inputs output (Some customSetup)) = Ok tt →
  calls (runProgram gpgpu binary inputs output (Some customSetup))
    = standard ++ hook ++ [ExecuteProgram] ∧
  runProgram gpgpu binary inputs output None
    = mkGL (Ok tt) (standard ++ [ExecuteProgram]) ∧
  (ExecuteProgram ∉ standard) ∧
  (∀ loc v, uniformState hook loc = Some v →
            uniformState (standard ++ hook) loc = Some v).
Proof.
  intros standard hook Hok.
  apply runProgram_Ok in Hok as (Hin & Hout & Hup & Hcalls).
  split_and!.
  - exact Hcalls.
  - rewrite (runProgram_unfold _ _ _ _ _ Hin Hout).
    rewrite (GL_bind_Ok_eq _ _ tt Hup). done.
  - apply no_dispatch_runProgramUploads.
  - intros loc v Hv. by rewrite uniformState_app, Hv.
Qed.

Lemma customSetup_runs_between_uploads_and_dispatch_witness :
  calls (@runProgram (exampleImports 2) (exampleContext allUniforms) addBinary
           [inputA; inputB] outputC (Some overwriteShapeA))
    = calls (@runProgramUploads (exampleImports 2) addBinary [inputA; inputB]
               outputC)
      ++ [Uniform1iv 12%N [6; 2]] ++ [ExecuteProgram] ∧
  uniformState
    (calls (@runProgramUploads (exampleImports 2) addBinary [inputA; inputB]
              outputC) ++ [Uniform1iv 12%N [6; 2]]) 12%N
    = Some (IntArrayValue [6; 2]) ∧
  uniformState
    (calls (@runProgramUploads (exampleImports 2) addBinary [inputA; inputB]
              outputC)) 12%N
    = Some (IntArrayValue [2; 6]).
Proof.
  destruct (@customSetup_runs_between_uploads_and_dispatch (exampleImports 2)
              (exampleContext allUniforms) addBinary [inputA; inputB] outputC
              overwriteShapeA) as (Hcalls & _ & _ & Hstate);
    [vm_compute; reflexivity|].
  split_and!; [exact Hcalls| |vm_compute; reflexivity].
  apply (Hstate 12%N (IntArrayValue [6; 2])). reflexivity.
Defined.

(** ** The compiler: special constants *)

Lemma Forall_calls_bind {A B} (P : GLCall → Prop) (m : GL A) (f : A → GL B) :
  Forall P (calls m) → (∀ a, Forall P (calls (f a))) →
  Forall P (calls (m ≫= f)).
Proof.
  intros Hm Hf. unfold mbind, GL_bind. destruct (result m) as [a|e]; simpl.
  - apply Forall_app. split; [done|apply Hf].
  - done.
Qed.

Lemma Forall_calls_foldl {A S} (P : GLCall → Prop)
    (step : GL S → A → GL S) (init : GL S) (l : list A) :
  Forall P (calls init) →
  (∀ acc x, x ∈ l → Forall P (calls acc) → Forall P (calls (step acc x))) →
  Forall P (calls (foldl step init l)).
Proof.
  revert init. induction l as [|x l IH]; intros init Hinit Hstep; [done|].
  simpl. apply IH.
  - apply Hstep; [left|done].
  - intros acc y Hy. apply Hstep. by right.
Qed.

Lemma notInfinityQuery_getUniformLocation gpgpu webGLProgram name shouldThrow :
  name ≠ "INFINITY" →
  Forall notInfinityQuery
    (calls (gpgpu_getUniformLocation gpgpu webGLProgram name shouldThrow)).
Proof. intros Hne. by repeat constructor. Qed.

Lemma notInfinityQuery_recordUniformLocations gpgpu webGLProgram uniformLocations
    shouldThrow varNames :
  Forall (λ name, name ≠ "INFINITY") varNames →
  Forall notInfinityQuery
    (calls (recordUniformLocations gpgpu webGLProgram uniformLocations
              shouldThrow varNames)).
Proof.
  intros Hnames. unfold recordUniformLocations.
  apply Forall_calls_foldl; [constructor|].
  intros acc x Hx Hacc. apply Forall_calls_bind; [done|]. intros locs.
  apply Forall_calls_bind; [|intros loc; constructor].
  apply notInfinityQuery_getUniformLocation.
  rewrite Forall_forall in Hnames. by apply Hnames.
Qed.

Lemma inputUniformNames_not_INFINITY name :
  Forall (λ name, name ≠ "INFINITY") (inputUniformNames name).
Proof. unfold inputUniformNames. repeat constructor; simpl; discriminate. Qed.

Lemma outputUniformNames_not_INFINITY :
  Forall (λ name, name ≠ "INFINITY") outputUniformNames.
Proof. unfold outputUniformNames. repeat constructor; discriminate. Qed.

Lemma compileProgram_Ok `{!Imports} gpgpu program inputs output binary :
  result (compileProgram gpgpu program inputs output) = Ok binary →
  let webGLProgram := GPGPUBinary.webGLProgram binary in
  ∃ rest,
    GPGPUBinary.nanLoc binary = getUniformLocation gpgpu webGLProgram "NAN" false ∧
    GPGPUBinary.infLoc binary =
      (if bool_decide (ENV_getNumber "WEBGL_VERSION" = 1)
       then getUniformLocation gpgpu webGLProgram "INFINITY" false else None) ∧
    calls (compileProgram gpgpu program inputs output) =
      CreateProgram (GPGPUBinary.source binary) ::
      GetUniformLocation webGLProgram "NAN" false ::
      (if bool_decide (ENV_getNumber "WEBGL_VERSION" = 1)
       then [GetUniformLocation webGLProgram "INFINITY" false] else []) ++ rest ∧
    ("INFINITY" ∉ GPGPUProgram.variableNames program →
     Forall notInfinityQuery rest).
Proof.
  unfold compileProgram.
  destruct (assembleProgramSource program inputs output) as [assembled|e];
    [|done].
  rewrite GL_bind_pure_Ok. intros Hok.
  apply GL_bind_result_Ok in Hok as (p & Hp & Hok & ->).
  apply GL_bind_result_Ok in Hok as (nanLoc & Hnan & Hok & ->).
  apply GL_bind_result_Ok in Hok as (infLoc & Hinf & Hok & ->).
  apply GL_bind_result_Ok in Hok as (locs1 & Hlocs1 & Hok & ->).
  apply GL_bind_result_Ok in Hok as (locs2 & Hlocs2 & Hok & ->).
  apply GL_bind_result_Ok in Hok as (locs3 & Hlocs3 & Hok & ->).
  cbn in Hok. injection Hok as <-.
  cbn in Hp, Hnan. injection Hnan as <-.
  match goal with
  | |- context [calls ?c1 ++ calls ?c2 ++ calls ?c3 ++ calls ?f1 ++ calls ?f2
                  ++ calls ?f3 ++ calls ?r] =>
      exists (calls f1 ++ calls f2 ++ calls f3 ++ calls r);
      assert (Forall notInfinityQuery (calls r)) as Hr by constructor;
      assert ("INFINITY" ∉ GPGPUProgram.variableNames program →
              Forall notInfinityQuery (calls f1)) as Hf1;
      [|assert (Forall notInfinityQuery (calls f2)) as Hf2;
        [|assert (Forall notInfinityQuery (calls f3)) as Hf3]]
  end.
  - clear. intros Hnames. apply Forall_calls_foldl; [constructor|].
    intros acc varName Hvar Hacc. apply Forall_calls_bind; [done|].
    intros locs. repeat constructor; cbn; [congruence|discriminate].
  - clear. apply Forall_calls_foldl; [constructor|].
    intros acc inputInfo _ Hacc. apply Forall_calls_bind; [done|].
    intros locs. cbv beta. case_bool_decide; [|by constructor].
    apply notInfinityQuery_recordUniformLocations,
      inputUniformNames_not_INFINITY.
  - clear. case_bool_decide; [|by constructor].
    apply notInfinityQuery_recordUniformLocations,
      outputUniformNames_not_INFINITY.
  - split_and!.
    + reflexivity.
    + destruct (bool_decide _); cbn in Hinf; by injection Hinf as <-.
    + cbn [calls gpgpu_createProgram gpgpu_getUniformLocation app
           GPGPUBinary.source GPGPUBinary.webGLProgram].
      do 2 f_equal. by destruct (bool_decide _).
    + intros Hnames. repeat apply Forall_app_2; auto.
Qed.

(** ** The executor: special constants *)

Lemma runProgramUploads_eq `{!Imports} binary inputs output td :
  TensorData.texData output = Some td →
  let rest :=
    forEachGL (runProgramInput binary) inputs;; runProgramOutput binary output in
  runProgramUploads binary inputs output =
    mkGL (result rest)
      ((if TextureData.isPacked td
        then SetOutputPackedMatrixTexture (TextureData.texture td)
               (TextureData.texShape td).1 (TextureData.texShape td).2
        else SetOutputMatrixTexture (TextureData.texture td)
               (TextureData.texShape td).1 (TextureData.texShape td).2) ::
       SetProgram (GPGPUBinary.webGLProgram binary) ::
       (if bool_decide (ENV_getNumber "WEBGL_VERSION" = 1) then
          match GPGPUBinary.infLoc binary with
          | Some infLoc => [Uniform1f infLoc (Some infinity)]
          | None => []
          end
        else []) ++
       match GPGPUBinary.nanLoc binary with
       | Some nanLoc => [Uniform1f nanLoc (Some nan)]
       | None => []
       end ++ calls rest).
Proof.
  intros Htd rest. unfold runProgramUploads, texDataOf. rewrite Htd.
  rewrite GL_bind_pure_Ok. fold rest.
  rewrite (GL_bind_Ok_eq _ _ tt) by (by destruct (TextureData.isPacked td)).
  rewrite (GL_bind_Ok_eq _ _ tt) by done.
  rewrite (GL_bind_Ok_eq _ _ tt)
    by (unfold when; case_bool_decide; [|done];
        by destruct (GPGPUBinary.infLoc binary)).
  rewrite (GL_bind_Ok_eq _ _ tt) by (by destruct (GPGPUBinary.nanLoc binary)).
  unfold when. cbn [result calls].
  destruct (TextureData.isPacked td); destruct (bool_decide _);
    destruct (GPGPUBinary.infLoc binary); destruct (GPGPUBinary.nanLoc binary);
    reflexivity.
Qed.

(** C7 (as the code has it).  At compile time the [NAN] location is always
    queried and recorded; the [INFINITY] location is queried only under
    [WEBGL_VERSION] 1 and stays [null] otherwise (no query names [INFINITY] at
    all then, unless an operand variable has that name).  At execution time a
    run that completes uploads each constant right after the program is
    activated and only if its location was resolved: Infinity only under
    [WEBGL_VERSION] 1, NaN under every version; apart from these uploads the
    run makes the calls it makes when neither location is resolved. *)
Theorem special_constant_uniforms `{!Imports} :
  (∀ gpgpu program inputs output binary,
     result (compileProgram gpgpu program inputs output) = Ok binary →
     let webGLProgram := GPGPUBinary.webGLProgram binary in
     let legacy := bool_decide (ENV_getNumber "WEBGL_VERSION" = 1) in
     GPGPUBinary.nanLoc binary
       = getUniformLocation gpgpu webGLProgram "NAN" false ∧
     GPGPUBinary.infLoc binary
       = (if legacy then getUniformLocation gpgpu webGLProgram "INFINITY" false
          else None) ∧
     GetUniformLocation webGLProgram "NAN" false
       ∈ calls (compileProgram gpgpu program inputs output) ∧
     (legacy = true →
      GetUniformLocation webGLProgram "INFINITY" false
        ∈ calls (compileProgram gpgpu program inputs output)) ∧
     (legacy = false →
      "INFINITY" ∉ GPGPUProgram.variableNames program →
      ∀ p shouldThrow,
        GetUniformLocation p "INFINITY" shouldThrow
          ∉ calls (compileProgram gpgpu program inputs output))) ∧
  (∀ gpgpu binary inputs output customSetup,
     result (runProgram gpgpu binary inputs output customSetup) = Ok tt →
     let legacy := bool_decide (ENV_getNumber "WEBGL_VERSION" = 1) in
     let plain :=
       runProgram gpgpu (withoutSpecialUniforms binary) inputs output
         customSetup in
     result plain = Ok tt ∧
     (∃ binding, take 2 (calls plain)
                 = [binding; SetProgram (GPGPUBinary.webGLProgram binary)]) ∧
     calls (runProgram gpgpu binary inputs output customSetup) =
       take 2 (calls plain) ++
       (if legacy then
          match GPGPUBinary.infLoc binary with
          | Some infLoc => [Uniform1f infLoc (Some infinity)]
          | None => []
          end
        else []) ++
       match GPGPUBinary.nanLoc binary with
       | Some nanLoc => [Uniform1f nanLoc (Some nan)]
       | None => []
       end ++
       drop 2 (calls plain)).
Proof.
  split.
  - intros gpgpu program inputs output binary Hok webGLProgram legacy.
    destruct (compileProgram_Ok _ _ _ _ _ Hok)
      as (rest & Hnan & Hinf & Hcalls & Hrest).
    fold webGLProgram legacy in Hnan, Hinf, Hcalls.
    split_and!; [exact Hnan|exact Hinf|..]; rewrite Hcalls.
    + right; left.
    + intros ->. right; right; left.
    + intros -> Hnames p shouldThrow Hin.
      apply elem_of_cons in Hin as [?|Hin]; [done|].
      apply elem_of_cons in Hin as [?|Hin]; [done|].
      simpl in Hin. specialize (Hrest Hnames).
      rewrite Forall_forall in Hrest. by apply Hrest in Hin.
  - intros gpgpu binary inputs output customSetup Hok legacy plain.
    pose proof Hok as Hok'.
    apply runProgram_Ok in Hok as (Hin & Hout & Hup & Hcalls).
    destruct (runProgramUploads_Ok _ _ _ Hup) as (td & Htd & _).
    rewrite (runProgramUploads_eq _ _ _ td Htd) in Hup, Hcalls.
    assert (plain = mkGL (result plain) (calls plain)) as _ by apply GL_eta.
    unfold plain.
    rewrite (runProgram_unfold gpgpu (withoutSpecialUniforms binary)
               inputs output customSetup Hin Hout).
    rewrite (runProgramUploads_eq (withoutSpecialUniforms binary) _ _ td Htd).
    cbn [GPGPUBinary.infLoc GPGPUBinary.nanLoc withoutSpecialUniforms
         GPGPUBinary.webGLProgram].
    change (runProgramInput (withoutSpecialUniforms binary))
      with (runProgramInput binary).
    change (runProgramOutput (withoutSpecialUniforms binary) output)
      with (runProgramOutput binary output).
    cbn [result calls] in Hup.
    rewrite (GL_bind_Ok_eq _ _ tt) by exact Hup.
    rewrite Hcalls. cbn [result calls]. rewrite Tauto.if_same. cbn [app].
    destruct customSetup as [customSetup|].
    + rewrite (GL_bind_Ok_eq _ _ tt (runProgram_Ok_hook _ _ _ _ _ Hok')).
      cbn [result calls take drop].
      split_and!; [done|by eexists|].
      cbn [app]. do 2 f_equal. by rewrite <-!app_assoc.
    + rewrite (GL_bind_Ok_eq _ _ tt) by done. cbn [result calls take drop].
      split_and!; [done|by eexists|].
      cbn [app]. do 2 f_equal. by rewrite <-!app_assoc.
Qed.

Lemma special_constant_uniforms_witness :
  (∃ binary,
     result (@compileProgram (exampleImports 1) contextWithoutNaN exampleProgram
               [inputA; inputB] outputC) = Ok binary ∧
     GPGPUBinary.nanLoc binary = None ∧
     GPGPUBinary.infLoc binary = Some 2%N) ∧
  calls (@runProgram (exampleImports 1) (exampleContext allUniforms) addBinary
           [inputA; inputB] outputC None) =
    [SetOutputMatrixTexture 102%N 3 5; SetProgram 1%N] ++
    [Uniform1f 2%N (Some infinity)] ++ [Uniform1f 3%N (Some nan)] ++
    drop 2 (calls (@runProgram (exampleImports 1) (exampleContext allUniforms)
                     (withoutSpecialUniforms addBinary) [inputA; inputB]
                     outputC None)).
Proof.
  destruct (@special_constant_uniforms (exampleImports 1)) as [Hcompile Hrun].
  split.
  - assert (∃ binary,
      result (@compileProgram (exampleImports 1) contextWithoutNaN
                exampleProgram [inputA; inputB] outputC) = Ok binary)
      as [binary Hbinary] by (vm_compute; eexists; reflexivity).
    destruct (Hcompile _ _ _ _ _ Hbinary) as (Hnan & Hinf & _).
    exists binary. split_and!; [exact Hbinary|by rewrite Hnan|by rewrite Hinf].
  - destruct (Hrun (exampleContext allUniforms) addBinary [inputA; inputB]
                outputC None) as (_ & _ & Hcalls); [vm_compute; reflexivity|].
    exact Hcalls.
Defined.

(** C7, as stated, fails: with a shader that does not use [NAN], the compiled
    binary has no [NAN] location, and the run completes without uploading NaN
    (under [WEBGL_VERSION] 1 here, where Infinity is uploaded). *)
Lemma nan_not_always_uploaded :
  ∃ binary,
    result (@compileProgram (exampleImports 1) contextWithoutNaN exampleProgram
              [inputA; inputB] outputC) = Ok binary ∧
    GPGPUBinary.nanLoc binary = None ∧
    @runProgram (exampleImports 1) contextWithoutNaN binary [inputA; inputB]
      outputC None =
    mkGL (Ok tt)
      [ SetOutputMatrixTexture 102%N 3 5; SetProgram 1%N;
        Uniform1f 2%N (Some infinity);
        Uniform1iv 12%N [2; 6]; Uniform1iv 14%N [6]; Uniform1iv 13%N [3; 5];
        Uniform1iv 15%N [2; 3]; Uniform1i 16%N (Some (JS.Int 3));
        Uniform1i 17%N (Some (JS.Int 3));
        SetInputMatrixTexture 100%N 10%N 0;
        Uniform1fv 20%N [1; 2; 3; 4]%float;
        Uniform1iv 30%N [2; 6]; Uniform1iv 31%N [6]; Uniform1iv 32%N [3; 5];
        Uniform1iv 33%N [2; 3]; Uniform1i 34%N (Some (JS.Int 3));
        Uniform1i 35%N (Some (JS.Int 3));
        ExecuteProgram ].
Proof.
  eexists. split_and!; [vm_compute; reflexivity|reflexivity|].
  vm_compute. reflexivity.
Qed.

(** ** The shader key *)

Lemma string_app_cons x (a b : string) : String x a +:+ b = String x (a +:+ b).
Proof. reflexivity. Qed.

Lemma string_app_nil_l (a : string) : "" +:+ a = a.
Proof. reflexivity. Qed.

Ltac string_simpl :=
  rewrite ?string_app_cons, ?string_app_nil_l in *.

Lemma string_app_assoc (a b c : string) : (a +:+ b) +:+ c = a +:+ (b +:+ c).
Proof. induction a as [|x a IH]; string_simpl; [done|by f_equal]. Qed.

Lemma string_app_nil_r (a : string) : a +:+ "" = a.
Proof. induction a as [|x a IH]; string_simpl; [done|by f_equal]. Qed.

Lemma string_length_app (a b : string) :
  String.length (a +:+ b) = (String.length a + String.length b)%nat.
Proof. induction a as [|x a IH]; string_simpl; simpl; [done|by f_equal]. Qed.

Lemma string_app_inv_tail (a b r : string) : a +:+ r = b +:+ r → a = b.
Proof.
  revert b. induction a as [|x a IH]; intros [|y b] Heq; string_simpl.
  - done.
  - apply (f_equal String.length) in Heq. simpl in Heq.
    rewrite string_length_app in Heq. lia.
  - apply (f_equal String.length) in Heq. simpl in Heq.
    rewrite string_length_app in Heq. lia.
  - injection Heq as -> Heq. f_equal. by apply IH.
Qed.

Lemma allChars_app P a b : allChars P (a +:+ b) = allChars P a && allChars P b.
Proof.
  induction a as [|x a IH]; string_simpl; simpl; [done|].
  by rewrite IH, andb_assoc.
Qed.

Lemma allChars_impl (P Q : ascii → bool) s :
  (∀ c, P c = true → Q c = true) → allChars P s = true → allChars Q s = true.
Proof.
  intros HPQ. induction s as [|x s IH]; simpl; [done|].
  rewrite !andb_true_iff. intros [? ?]. auto.
Qed.

(** Two texts that end at the same separator, which occurs in neither, are
    equal, and so is what follows them. *)
Lemma string_split_at P (c : ascii) (a b ra rb : string) :
  P c = false → allChars P a = true → allChars P b = true →
  a +:+ String c ra = b +:+ String c rb → a = b ∧ ra = rb.
Proof.
  intros Hc. revert b.
  induction a as [|x a IH]; intros [|y b] Ha Hb Heq; string_simpl; simpl in *.
  - by injection Heq as ->.
  - injection Heq as -> _. apply andb_true_iff in Hb as [Hb _]. congruence.
  - injection Heq as -> _. apply andb_true_iff in Ha as [Ha _]. congruence.
  - injection Heq as -> Heq.
    apply andb_true_iff in Ha as [_ Ha]. apply andb_true_iff in Hb as [_ Hb].
    destruct (IH b Ha Hb Heq) as [-> ->]. done.
Qed.

(** The decimal text of an integer: digits and a sign, and never empty. *)
Lemma pretty_N_char_isNumberChar x : isNumberChar (pretty_N_char x) = true.
Proof. unfold pretty_N_char. by repeat case_match. Qed.

Lemma pretty_N_go_allChars x s :
  allChars isNumberChar s = true →
  allChars isNumberChar (pretty_N_go x s) = true.
Proof.
  revert s. induction (N.lt_wf_0 x) as [x _ IH]; intros s Hs.
  destruct (decide (x = 0)%N) as [->|Hne]; [by rewrite pretty_N_go_0|].
  rewrite pretty_N_go_step by lia. apply IH.
  - apply N.div_lt; lia.
  - simpl. by rewrite pretty_N_char_isNumberChar.
Qed.

Lemma pretty_N_go_nonempty x s : s ≠ "" → pretty_N_go x s ≠ "".
Proof.
  revert s. induction (N.lt_wf_0 x) as [x _ IH]; intros s Hs.
  destruct (decide (x = 0)%N) as [->|Hne]; [by rewrite pretty_N_go_0|].
  rewrite pretty_N_go_step by lia. apply IH; [apply N.div_lt; lia|done].
Qed.

Lemma pretty_N_allChars (x : N) : allChars isNumberChar (pretty x) = true.
Proof.
  unfold pretty, pretty_N. case_decide; [done|].
  by apply pretty_N_go_allChars.
Qed.

Lemma pretty_N_nonempty (x : N) : pretty x ≠ "".
Proof.
  unfold pretty, pretty_N. case_decide as Hx; [done|].
  rewrite pretty_N_go_step by lia. by apply pretty_N_go_nonempty.
Qed.

Lemma ofNumber_allChars (n : Z) : allChars isNumberChar (JS.ofNumber n) = true.
Proof.
  unfold JS.ofNumber, pretty, pretty_Z. destruct n as [|p|p]; [done|..].
  - apply pretty_N_allChars.
  - simpl. apply pretty_N_allChars.
Qed.

Lemma ofNumber_nonempty (n : Z) : JS.ofNumber n ≠ "".
Proof.
  unfold JS.ofNumber, pretty, pretty_Z. destruct n as [|p|p]; [done| |done].
  apply pretty_N_nonempty.
Qed.

Lemma ofNumber_inj : Inj (=) (=) JS.ofNumber.
Proof. unfold JS.ofNumber. apply _. Qed.

Lemma isNumberChar_isArrayChar c : isNumberChar c = true → isArrayChar c = true.
Proof. unfold isArrayChar. by intros ->. Qed.

Lemma isArrayChar_notUnderscore c : isArrayChar c = true → notUnderscore c = true.
Proof.
  unfold isArrayChar, notUnderscore, isNumberChar.
  rewrite orb_true_iff, !bool_decide_eq_true, negb_true_iff, bool_decide_eq_false.
  intros [Hin| ->]; [|done]. intros ->.
  repeat (apply elem_of_cons in Hin as [?|Hin]; [done|]).
  by apply elem_of_nil in Hin.
Qed.

Lemma join_cons_cons sep s s' l :
  JS.join sep (s :: s' :: l) = s +:+ sep +:+ JS.join sep (s' :: l).
Proof. reflexivity. Qed.

(** The text of an array of integers: number characters and commas. *)
Lemma ofArray_allChars (a : list Z) : allChars isArrayChar (JS.ofArray a) = true.
Proof.
  unfold JS.ofArray. induction a as [|n [|n' a] IH]; [done|..].
  - simpl. eapply allChars_impl; [apply isNumberChar_isArrayChar|].
    apply ofNumber_allChars.
  - rewrite !fmap_cons, join_cons_cons, !allChars_app.
    rewrite !fmap_cons in IH. rewrite IH.
    assert (allChars isArrayChar (JS.ofNumber n) = true) as ->; [|done].
    eapply allChars_impl; [apply isNumberChar_isArrayChar|].
    apply ofNumber_allChars.
Qed.

Lemma ofArray_cons_nonempty n (a : list Z) : JS.ofArray (n :: a) ≠ "".
Proof.
  unfold JS.ofArray. destruct a as [|n' a].
  - simpl. apply ofNumber_nonempty.
  - rewrite !fmap_cons, join_cons_cons. intros Heq.
    apply (ofNumber_nonempty n). by destruct (JS.ofNumber n).
Qed.

(** Distinct arrays of integers have distinct texts. *)
Lemma ofArray_inj : Inj (=) (=) JS.ofArray.
Proof.
  intros a. induction a as [|n a IH]; intros [|m b] Heq.
  - done.
  - symmetry in Heq. by apply ofArray_cons_nonempty in Heq.
  - by apply ofArray_cons_nonempty in Heq.
  - unfold JS.ofArray in Heq.
    destruct a as [|n' a], b as [|m' b]; rewrite ?fmap_cons, ?join_cons_cons in Heq.
    + simpl in Heq. by apply ofNumber_inj in Heq as ->.
    + simpl in Heq. apply (f_equal (allChars isNumberChar)) in Heq.
      rewrite ofNumber_allChars, allChars_app, ofNumber_allChars in Heq.
      string_simpl. simpl in Heq. done.
    + simpl in Heq. apply (f_equal (allChars isNumberChar)) in Heq.
      rewrite ofNumber_allChars, allChars_app, ofNumber_allChars in Heq.
      string_simpl. simpl in Heq. done.
    + apply (string_split_at isNumberChar) in Heq as [Hn Hrest];
        [|done|apply ofNumber_allChars..].
      apply ofNumber_inj in Hn as ->. f_equal. apply IH.
      unfold JS.ofArray. by rewrite !fmap_cons.
Qed.

Lemma ofArray_not_uniform (a : list Z) : JS.ofArray a ≠ "uniform".
Proof.
  intros Heq. apply (f_equal (allChars isArrayChar)) in Heq.
  by rewrite ofArray_allChars in Heq.
Qed.

(** The three fields of an operand's key text. *)
Lemma operandKey_Ok x k :
  operandKey x = Ok k →
  ∃ texShapeText,
    k = JS.ofArray (TensorData.shape x) +:+ String "_" (texShapeText +:+
          String "_" (JS.ofBool (hasOffset x))) ∧
    allChars notUnderscore texShapeText = true ∧
    (TensorData.isUniform x = true ∧ texShapeText = "uniform" ∨
     ∃ td, TensorData.isUniform x = false ∧ TensorData.texData x = Some td ∧
           texShapeText = JS.ofArray (texShapeArray (TextureData.texShape td))).
Proof.
  unfold operandKey, texDataOf.
  destruct (TensorData.isUniform x).
  - simpl. intros [= <-]. exists "uniform". split_and!; [done|done|by left].
  - destruct (TensorData.texData x) as [td|]; [|done]. simpl. intros [= <-].
    eexists. split_and!; [done| |right; by exists td].
    eapply allChars_impl; [apply isArrayChar_notUnderscore|].
    apply ofArray_allChars.
Qed.

Lemma ofBool_prefix_inj b b' (r r' : string) :
  JS.ofBool b +:+ r = JS.ofBool b' +:+ r' → b = b' ∧ r = r'.
Proof.
  destruct b, b'; unfold JS.ofBool; string_simpl; intros Heq;
    by simplify_eq.
Qed.

(** Reading one operand's text off the front of a key. *)
Lemma operandKey_prefix_inj x y kx ky (rx ry : string) :
  operandKey x = Ok kx → operandKey y = Ok ky →
  kx +:+ rx = ky +:+ ry → sameLayout x y ∧ rx = ry.
Proof.
  intros Hx Hy Heq.
  apply operandKey_Ok in Hx as (tx & -> & Htx & Hx).
  apply operandKey_Ok in Hy as (ty & -> & Hty & Hy).
  rewrite !string_app_assoc in Heq. string_simpl.
  apply (string_split_at notUnderscore) in Heq as [Hshape Heq];
    [|done|eapply allChars_impl;
           [apply isArrayChar_notUnderscore|apply ofArray_allChars]..].
  rewrite !string_app_assoc in Heq. string_simpl.
  apply (string_split_at notUnderscore) in Heq as [Htex Heq]; [|done..].
  apply ofBool_prefix_inj in Heq as [Hoff ->].
  apply ofArray_inj in Hshape. split; [|done].
  unfold sameLayout, physicalTexShape.
  destruct Hx as [[Hux ->]|(tdx & Hux & Htdx & ->)],
           Hy as [[Huy ->]|(tdy & Huy & Htdy & ->)];
    rewrite Hux, Huy, ?Htdx, ?Htdy; simpl.
  - done.
  - symmetry in Htex. by apply ofArray_not_uniform in Htex.
  - by apply ofArray_not_uniform in Htex.
  - apply ofArray_inj, texShapeArray_inj in Htex. by rewrite Htex.
Qed.



Lemma operandKey_nonempty x k : operandKey x = Ok k → k ≠ "".
Proof.
  intros Hx. apply operandKey_Ok in Hx as (tx & -> & _).
  by destruct (JS.ofArray (TensorData.shape x)).
Qed.

(** The accumulated text is the start text followed by the operands' texts. *)
Lemma keyInputsFrom_cons keyInputs x xs k :
  keyInputsFrom keyInputs (x :: xs) = Ok k ↔
  ∃ kx, operandKey x = Ok kx ∧ keyInputsFrom (keyInputs +:+ kx) xs = Ok k.
Proof.
  simpl. destruct (operandKey x) as [kx|e]; simpl.
  - split; [by exists kx|by intros (? & [= <-] & ?)].
  - split; [done|by intros (? & ? & ?)].
Qed.

Lemma keyInputsFrom_start keyInputs xs k :
  keyInputsFrom keyInputs xs = Ok k ↔
  ∃ k', keyInputsFrom "" xs = Ok k' ∧ k = keyInputs +:+ k'.
Proof.
  revert keyInputs k. induction xs as [|x xs IH]; intros keyInputs k.
  - simpl. split.
    + intros [= <-]. exists "". by rewrite string_app_nil_r.
    + intros (k' & [= <-] & ->). by rewrite string_app_nil_r.
  - rewrite keyInputsFrom_cons. split.
    + intros (kx & Hx & Hrest). apply IH in Hrest as (k1 & Hk1 & ->).
      exists (kx +:+ k1). split; [|by rewrite string_app_assoc].
      apply keyInputsFrom_cons. exists kx. split; [done|].
      string_simpl. apply IH. by exists k1.
    + intros (k' & Hk' & ->).
      apply keyInputsFrom_cons in Hk' as (kx & Hx & Hrest). string_simpl.
      apply IH in Hrest as (k1 & Hk1 & ->).
      exists kx. split; [done|]. apply IH. exists k1.
      split; [done|by rewrite string_app_assoc].
Qed.

(** Equal key texts come from operand lists of the same layout. *)
Lemma keyInputsFrom_inj xs ys k :
  keyInputsFrom "" xs = Ok k → keyInputsFrom "" ys = Ok k →
  Forall2 sameLayout xs ys.
Proof.
  revert ys k. induction xs as [|x xs IH]; intros [|y ys] k Hxs Hys.
  - constructor.
  - exfalso. simpl in Hxs. injection Hxs as <-.
    apply keyInputsFrom_cons in Hys as (ky & Hy & Hrest). string_simpl.
    apply keyInputsFrom_start in Hrest as (k1 & _ & Heq).
    apply (operandKey_nonempty _ _ Hy). by destruct ky.
  - exfalso. simpl in Hys. injection Hys as <-.
    apply keyInputsFrom_cons in Hxs as (kx & Hx & Hrest). string_simpl.
    apply keyInputsFrom_start in Hrest as (k1 & _ & Heq).
    apply (operandKey_nonempty _ _ Hx). by destruct kx.
  - apply keyInputsFrom_cons in Hxs as (kx & Hx & Hxs).
    apply keyInputsFrom_cons in Hys as (ky & Hy & Hys). string_simpl.
    apply keyInputsFrom_start in Hxs as (k1 & Hk1 & ->).
    apply keyInputsFrom_start in Hys as (k2 & Hk2 & Heq).
    destruct (operandKey_prefix_inj x y kx ky k1 k2 Hx Hy Heq) as [Hxy <-].
    constructor; [done|]. by eapply IH.
Qed.


Lemma sameLayout_refl x : sameLayout x x.
Proof. by repeat split. Qed.





(** A slice whose flat offset is negative is outside this reading: it
    carries a nonzero offset, and the key prints [false] for it, as for an
    operand that is not sliced. *)
Lemma negative_offset_prints_false :
  carriesNonzeroOffset inputA_sliced_before_0 = true ∧
  offsetInBuffer inputA_sliced_before_0 = false ∧
  makeShaderKey exampleProgram [inputA_sliced_before_0; inputB] outputC
    = makeShaderKey exampleProgram [inputA; inputB] outputC.
Proof. split_and!; vm_compute; reflexivity. Qed.

(** * Further properties *)

(** ** The validator, exactly *)

Lemma validateOperand_Ok_iff s input :
  validateOperand s input = Ok tt ↔ agreesWith s input.
Proof.
  split; [|apply validateOperand_agreesWith].
  destruct (decide (ShapeInfo.logicalShape s = TensorData.shape input))
    as [Hshape|Hne].
  - rewrite (validateOperand_same_shape _ _ Hshape). intros Hok.
    split; [done|]. destruct (_ && _); [by left|right].
    destruct (texShapeOrNull input) as [ts|]; [|done]. simpl in Hok.
    case_bool_decide; [by subst|done].
  - by rewrite (validateOperand_shape_differs _ _ Hne).
Qed.

Lemma validate_forEachFrom_Ok_inv (inputs : list TensorData.t)
    (l : list ShapeInfo.t) k :
  length l = length (drop k inputs) →
  forEachFrom (λ s i,
    match inputs !! i with
    | Some input => validateOperand s input
    | None => Throw (TypeError "Cannot read property 'shape' of undefined")
    end) k l = Ok tt →
  Forall2 (λ s x, validateOperand s x = Ok tt) l (drop k inputs).
Proof.
  revert k. induction l as [|s l IH]; intros k Hlen Hok.
  - destruct (drop k inputs); [constructor|done].
  - simpl in Hok. destruct (inputs !! k) as [x|] eqn:Hx; [|done].
    rewrite (drop_S _ _ _ Hx) in Hlen |- *.
    destruct (validateOperand s x) as [[ ]|] eqn:Hv; [|done].
    constructor; [done|]. apply IH; [simpl in Hlen; lia|done].
Qed.

Lemma validate_Ok_iff_agreesWith shapeInfos inputs :
  validateBinaryAndProgram shapeInfos inputs = Ok tt ↔
  Forall2 agreesWith shapeInfos inputs.
Proof.
  split.
  - unfold validateBinaryAndProgram. case_bool_decide as Hlen; [|done].
    simpl. intros Hok.
    apply (validate_forEachFrom_Ok_inv inputs shapeInfos 0) in Hok; [|done].
    eapply Forall2_impl; [exact Hok|]. intros s x. apply validateOperand_Ok_iff.
  - intros Hall. apply validateBinaryAndProgram_Ok.
    eapply Forall2_impl; [exact Hall|]. intros s x. apply validateOperand_Ok_iff.
Qed.

(** X1. The validator accepts an operand list exactly when it has the
    recorded length and every operand agrees with its recorded [ShapeInfo]:
    same logical shape, and either uniform-backed on both sides or with the
    recorded texture shape as its current one. *)
Theorem validateBinaryAndProgram_Ok_iff shapeInfos inputs :
  validateBinaryAndProgram shapeInfos inputs = Ok tt ↔
  (length shapeInfos = length inputs ∧
   ∀ i s input, shapeInfos !! i = Some s → inputs !! i = Some input →
     ShapeInfo.logicalShape s = TensorData.shape input ∧
     (ShapeInfo.isUniform s && TensorData.isUniform input = true ∨
      texShapeOrNull input = Ok (ShapeInfo.texShape s))).
Proof.
  rewrite validate_Ok_iff_agreesWith. apply Forall2_same_length_lookup.
Qed.

(** ** The shape metadata recorded at assembly *)

Lemma inputShapeInfo_Ok input s :
  inputShapeInfo input = Ok s →
  ShapeInfo.logicalShape s = TensorData.shape input ∧
  ShapeInfo.isUniform s = TensorData.isUniform input ∧
  texShapeOrNull input = Ok (ShapeInfo.texShape s) ∧
  ShapeInfo.texShape s = physicalTexShape input ∧
  (TensorData.isUniform input = true → ShapeInfo.isPacked s = false) ∧
  (is_Some (ShapeInfo.flatOffset s) ↔ hasOffset input = true) ∧
  (∀ offset, ShapeInfo.flatOffset s = Some offset →
     0 < offset ∧
     ∃ td slice, TensorData.texData input = Some td ∧
                 TextureData.slice td = Some slice ∧
                 Slice.flatOffset slice = offset).
Proof.
  unfold inputShapeInfo, texShapeOrNull, physicalTexShape, hasOffset, texDataOf.
  destruct (TensorData.isUniform input) eqn:Huni;
    destruct (TensorData.texData input) as [td|] eqn:Htd; simpl;
    try discriminate; intros [= <-]; simpl.
  - destruct (TextureData.slice td) as [slice|] eqn:Hslice;
      [case_bool_decide as Hpos|]; split_and!; try done;
      try (split; [by intros [? ?]|done]);
      try (split; [done|by eexists]).
    intros offset [= <-]. split; [done|]. by exists td, slice.
  - split_and!; try done; try (split; [by intros [? ?]|done]).
  - destruct (TextureData.slice td) as [slice|] eqn:Hslice;
      [case_bool_decide as Hpos|]; split_and!; try done;
      try (split; [by intros [? ?]|done]);
      try (split; [done|by eexists]).
    intros offset [= <-]. split; [done|]. by exists td, slice.
Qed.

Lemma inputShapeInfo_Throw_iff input :
  (∃ e, inputShapeInfo input = Throw e) ↔ hasStorage input = false.
Proof.
  unfold inputShapeInfo, texShapeOrNull, hasStorage, texDataOf.
  destruct (TensorData.isUniform input);
    destruct (TensorData.texData input) as [td|]; simpl.
  - split; [by intros [? ?]|done].
  - split; [by intros [? ?]|done].
  - split; [by intros [? ?]|done].
  - split; [done|by eexists].
Qed.

Lemma inputInfosFrom_Ok variableNames i inputs infos :
  inputInfosFrom variableNames i inputs = Ok infos →
  length infos = length inputs ∧
  ∀ j input, inputs !! j = Some input →
    ∃ info, infos !! j = Some info ∧
            InputInfo.name info = variableNames !! (i + j)%nat ∧
            inputShapeInfo input = Ok (InputInfo.shapeInfo info).
Proof.
  revert i infos. induction inputs as [|x inputs IH]; intros i infos; simpl.
  - intros [= <-]. split; [done|]. by intros j input.
  - destruct (inputShapeInfo x) as [s|] eqn:Hs; [|done]. simpl.
    destruct (inputInfosFrom variableNames (S i) inputs) as [rest|] eqn:Hrest;
      [|done]. simpl. intros [= <-].
    destruct (IH _ _ Hrest) as [Hlen Hat]. split; [simpl; lia|].
    intros [|j] input Hj; simpl in Hj.
    + simplify_eq. eexists. split_and!; [done| |done].
      by rewrite Nat.add_0_r.
    + destruct (Hat j input Hj) as (info & Hinfo & Hname & Hshape).
      exists info. split_and!; [done| |done].
      by replace (i + S j)%nat with (S i + j)%nat by lia.
Qed.

Lemma assembleProgramSource_texData `{!Imports} program inputs output a :
  assembleProgramSource program inputs output = Ok a →
  is_Some (TensorData.texData output) ∧
  ∃ infos, inputInfosFrom (GPGPUProgram.variableNames program) 0 inputs
             = Ok infos.
Proof.
  unfold assembleProgramSource, texDataOf.
  destruct (inputInfosFrom _ 0 inputs) as [infos|]; [|done]. simpl.
  destruct (TensorData.texData output) as [td|]; [|done].
  intros _. split; by eexists.
Qed.

Lemma assembleProgramSource_spec `{!Imports} program inputs output a :
  assembleProgramSource program inputs output = Ok a →
  length (inputInfos a) = length inputs ∧
  (∀ j input, inputs !! j = Some input →
     ∃ info, inputInfos a !! j = Some info ∧
       InputInfo.name info = GPGPUProgram.variableNames program !! j ∧
       ShapeInfo.logicalShape (InputInfo.shapeInfo info)
         = TensorData.shape input ∧
       ShapeInfo.isUniform (InputInfo.shapeInfo info)
         = TensorData.isUniform input ∧
       ShapeInfo.texShape (InputInfo.shapeInfo info) = physicalTexShape input ∧
       (is_Some (ShapeInfo.flatOffset (InputInfo.shapeInfo info))
          ↔ hasOffset input = true) ∧
       (∀ offset,
          ShapeInfo.flatOffset (InputInfo.shapeInfo info) = Some offset →
          0 < offset ∧
          (TensorData.texData input ≫= TextureData.slice)
            = Some (Slice.mk offset))) ∧
  ∃ td, TensorData.texData output = Some td ∧
    assembledOutShapeInfo a =
      ShapeInfo.mk (TensorData.shape output) (Some (TextureData.texShape td))
        false (TextureData.isPacked td) None.
Proof.
  unfold assembleProgramSource, texDataOf.
  destruct (inputInfosFrom _ 0 inputs) as [infos|] eqn:Hinfos; [|done]. simpl.
  destruct (TensorData.texData output) as [td|]; [|done]. simpl.
  destruct (shader_compiler_makeShader _ _ _ _) as [source key].
  intros [= <-]. simpl.
  destruct (inputInfosFrom_Ok _ _ _ _ Hinfos) as [Hlen Hat].
  split_and!; [done| |by exists td].
  intros j input Hj. destruct (Hat j input Hj) as (info & Hinfo & Hname & Hs).
  apply inputShapeInfo_Ok in Hs as (H1 & H2 & _ & H4 & _ & H6 & H7).
  exists info. split_and!; try done.
  intros offset Hoff. destruct (H7 offset Hoff) as (Hpos & td' & [o] & -> & Hsl & Ho).
  split; [done|]. simpl in *. by subst.
Qed.

(** X2. When [assembleProgramSource] succeeds, it has recorded one
    [InputInfo] per input, named by the variable at the same position (no
    name past the declared variables); each records the input's logical
    shape and storage mode, its texture shape unless it is uniform-backed,
    and a flat offset exactly when the input carries a slice with a positive
    flat offset (the condition [makeShaderKey] prints as [hasOffset]), which
    is then that offset.  The output is recorded as texture-backed, with its
    texture shape and no flat offset, whatever its [isUniform] flag. *)
Theorem assembleProgramSource_records `{!Imports} program inputs output a :
  assembleProgramSource program inputs output = Ok a →
  length (inputInfos a) = length inputs ∧
  (∀ j input, inputs !! j = Some input →
     ∃ info, inputInfos a !! j = Some info ∧
       InputInfo.name info = GPGPUProgram.variableNames program !! j ∧
       ShapeInfo.logicalShape (InputInfo.shapeInfo info)
         = TensorData.shape input ∧
       ShapeInfo.isUniform (InputInfo.shapeInfo info)
         = TensorData.isUniform input ∧
       ShapeInfo.texShape (InputInfo.shapeInfo info) = physicalTexShape input ∧
       (is_Some (ShapeInfo.flatOffset (InputInfo.shapeInfo info))
          ↔ hasOffset input = true) ∧
       (∀ offset,
          ShapeInfo.flatOffset (InputInfo.shapeInfo info) = Some offset →
          0 < offset ∧
          (TensorData.texData input ≫= TextureData.slice)
            = Some (Slice.mk offset))) ∧
  ∃ td, TensorData.texData output = Some td ∧
    assembledOutShapeInfo a =
      ShapeInfo.mk (TensorData.shape output) (Some (TextureData.texShape td))
        false (TextureData.isPacked td) None.
Proof. apply assembleProgramSource_spec. Qed.

Lemma assembleProgramSource_records_witness :
  ∃ a,
    @assembleProgramSource (exampleImports 2) exampleProgram
      [inputA_packed_sliced; inputB] outputC = Ok a ∧
    InputInfo.shapeInfo <$> inputInfos a =
      [textureInfo [2; 6] (3, 5) true (Some 4); uniformInfo [1; 4]] ∧
    assembledOutShapeInfo a = textureInfo [2; 6] (3, 5) false None.
Proof.
  assert (∃ a, @assembleProgramSource (exampleImports 2) exampleProgram
                 [inputA_packed_sliced; inputB] outputC = Ok a)
    as [a Ha] by (vm_compute; eexists; reflexivity).
  destruct (@assembleProgramSource_records (exampleImports 2) _ _ _ _ Ha)
    as (_ & _ & td & Htd & Hout).
  exists a. split_and!; [exact Ha| |].
  - vm_compute in Ha. by injection Ha as <-.
  - rewrite Hout. by injection Htd as <-.
Defined.

(** ** Compiling *)

(** The loops of [compileProgram] never throw. *)
Lemma foldl_result_Ok {A S} (step : GL S → A → GL S) (l : list A) :
  (∀ acc x s, result acc = Ok s → ∃ s', result (step acc x) = Ok s') →
  ∀ init s, result init = Ok s → ∃ s', result (foldl step init l) = Ok s'.
Proof.
  intros Hstep. induction l as [|x l IH]; intros init s Hinit; simpl.
  - by exists s.
  - destruct (Hstep init x s Hinit) as [s' Hs']. by eapply IH.
Qed.

Lemma GL_bind_completes {A B} (m : GL A) (f : A → GL B) :
  (∃ a, result m = Ok a) → (∀ a, ∃ b, result (f a) = Ok b) →
  ∃ b, result (m ≫= f) = Ok b.
Proof.
  intros [a Ha] Hf. rewrite (GL_bind_Ok_eq _ _ a Ha). apply Hf.
Qed.

Lemma recordUniformLocations_result gpgpu webGLProgram uniformLocations
    shouldThrow varNames :
  ∃ locs, result (recordUniformLocations gpgpu webGLProgram uniformLocations
                    shouldThrow varNames) = Ok locs.
Proof.
  unfold recordUniformLocations.
  eapply foldl_result_Ok; [|reflexivity].
  intros acc x s Hacc. rewrite (GL_bind_Ok_eq _ _ s Hacc). simpl. by eexists.
Qed.

(** What a successful compilation returns. *)
Lemma compileProgram_fields `{!Imports} gpgpu program inputs output binary :
  result (compileProgram gpgpu program inputs output) = Ok binary →
  ∃ a, assembleProgramSource program inputs output = Ok a ∧
    createProgram gpgpu (assembledSource a)
      = Ok (GPGPUBinary.webGLProgram binary) ∧
    GPGPUBinary.program binary = program ∧
    GPGPUBinary.source binary = assembledSource a ∧
    GPGPUBinary.inShapeInfos binary = InputInfo.shapeInfo <$> inputInfos a ∧
    GPGPUBinary.outShapeInfo binary = assembledOutShapeInfo a.
Proof.
  unfold compileProgram.
  destruct (assembleProgramSource program inputs output) as [a|e]; [|done].
  rewrite GL_bind_pure_Ok. intros Hok. exists a.
  apply GL_bind_result_Ok in Hok as (p & Hp & Hok & _).
  apply GL_bind_result_Ok in Hok as (nanLoc & _ & Hok & _).
  apply GL_bind_result_Ok in Hok as (infLoc & _ & Hok & _).
  apply GL_bind_result_Ok in Hok as (locs1 & _ & Hok & _).
  apply GL_bind_result_Ok in Hok as (locs2 & _ & Hok & _).
  apply GL_bind_result_Ok in Hok as (locs3 & _ & Hok & _).
  cbn in Hok, Hp. injection Hok as <-. by cbn.
Qed.

Lemma compileProgram_agreesWith `{!Imports} gpgpu program inputs output binary :
  result (compileProgram gpgpu program inputs output) = Ok binary →
  Forall2 agreesWith (GPGPUBinary.inShapeInfos binary) inputs ∧
  ∃ td, TensorData.texData output = Some td ∧
    GPGPUBinary.outShapeInfo binary =
      ShapeInfo.mk (TensorData.shape output) (Some (TextureData.texShape td))
        false (TextureData.isPacked td) None.
Proof.
  intros Hok.
  destruct (compileProgram_fields _ _ _ _ _ Hok)
    as (a & Ha & _ & _ & _ & -> & ->).
  pose proof Ha as Ha'. unfold assembleProgramSource, texDataOf in Ha'.
  destruct (inputInfosFrom _ 0 inputs) as [infos|] eqn:Hinfos; [|done].
  simpl in Ha'. destruct (TensorData.texData output) as [td|]; [|done].
  simpl in Ha'. destruct (shader_compiler_makeShader _ _ _ _) as [source key].
  injection Ha' as <-. simpl. split; [|by exists td].
  destruct (inputInfosFrom_Ok _ _ _ _ Hinfos) as [Hlen Hat].
  apply Forall2_same_length_lookup. split; [by rewrite length_fmap|].
  intros j s input Hs Hj. rewrite list_lookup_fmap in Hs.
  destruct (Hat j input Hj) as (info & Hinfo & _ & Hshape).
  rewrite Hinfo in Hs. simpl in Hs. injection Hs as <-.
  apply inputShapeInfo_Ok in Hshape as (H1 & _ & H3 & _).
  split; [done|by right].
Qed.

Lemma compileProgram_then_validate_aux `{!Imports} gpgpu program inputs output
    binary :
  result (compileProgram gpgpu program inputs output) = Ok binary →
  TensorData.isUniform output = false →
  validateBinaryAndProgram (GPGPUBinary.inShapeInfos binary) inputs = Ok tt ∧
  validateBinaryAndProgram [GPGPUBinary.outShapeInfo binary] [output] = Ok tt.
Proof.
  intros Hok Huni.
  destruct (compileProgram_agreesWith _ _ _ _ _ Hok) as (Hin & td & Htd & Hout).
  split; apply validate_Ok_iff_agreesWith; [done|].
  constructor; [|constructor]. rewrite Hout. split; [done|right].
  unfold texShapeOrNull, texDataOf. by rewrite Huni, Htd.
Qed.

(** X3. A binary validates against the operands it was compiled with,
    provided the output is not flagged uniform: the output is always recorded
    as texture-backed, so an output flagged uniform is rejected by the
    validator of its own binary with the texture-shape error, whatever its
    texture data. *)
Theorem compileProgram_then_validate `{!Imports} gpgpu program inputs output
    binary :
  result (compileProgram gpgpu program inputs output) = Ok binary →
  validateBinaryAndProgram (GPGPUBinary.inShapeInfos binary) inputs = Ok tt ∧
  (TensorData.isUniform output = false →
   validateBinaryAndProgram [GPGPUBinary.outShapeInfo binary] [output] = Ok tt) ∧
  (TensorData.isUniform output = true →
   validateBinaryAndProgram [GPGPUBinary.outShapeInfo binary] [output]
     = Throw (texShapeMismatch
                (ShapeInfo.texShape (GPGPUBinary.outShapeInfo binary)) None)).
Proof.
  intros Hok.
  destruct (compileProgram_agreesWith _ _ _ _ _ Hok) as (Hin & td & Htd & Hout).
  split_and!.
  - by apply validate_Ok_iff_agreesWith.
  - intros Huni. apply validate_Ok_iff_agreesWith.
    constructor; [|constructor]. rewrite Hout. split; [done|right].
    unfold texShapeOrNull, texDataOf. by rewrite Huni, Htd.
  - intros Huni. unfold validateBinaryAndProgram, forEach. simpl.
    rewrite validateOperand_same_shape by (by rewrite Hout).
    rewrite Hout. simpl. unfold texShapeOrNull. by rewrite Huni.
Qed.

Lemma compileProgram_then_validate_witness :
  ∃ binary,
    result (@compileProgram (exampleImports 2) (exampleContext allUniforms)
              exampleProgram [inputA; inputB] outputC) = Ok binary ∧
    validateBinaryAndProgram (GPGPUBinary.inShapeInfos binary) [inputA; inputB]
      = Ok tt ∧
    validateBinaryAndProgram [GPGPUBinary.outShapeInfo binary] [outputC]
      = Ok tt.
Proof.
  assert (∃ binary,
    result (@compileProgram (exampleImports 2) (exampleContext allUniforms)
              exampleProgram [inputA; inputB] outputC) = Ok binary)
    as [binary Hbinary] by (vm_compute; eexists; reflexivity).
  destruct (@compileProgram_then_validate (exampleImports 2) _ _ _ _ _ Hbinary)
    as (Hin & Hout & _).
  exists binary. split_and!; [exact Hbinary|exact Hin|exact (Hout eq_refl)].
Defined.

(** X4. If the driver rejects the assembled source, [compileProgram] throws
    the driver's error having made the single call [createProgram]: no
    uniform location is queried.  If assembly itself fails (an operand that
    needs texture data has none) it throws before any call on the context. *)
Theorem compileProgram_failure `{!Imports} gpgpu program inputs output :
  (∀ e, assembleProgramSource program inputs output = Throw e →
     compileProgram gpgpu program inputs output = mkGL (Throw e) []) ∧
  (∀ a e, assembleProgramSource program inputs output = Ok a →
     createProgram gpgpu (assembledSource a) = Throw e →
     compileProgram gpgpu program inputs output
       = mkGL (Throw e) [CreateProgram (assembledSource a)]) ∧
  (∀ a p, assembleProgramSource program inputs output = Ok a →
     createProgram gpgpu (assembledSource a) = Ok p →
     ∃ binary, result (compileProgram gpgpu program inputs output) = Ok binary).
Proof.
  unfold compileProgram. split_and!.
  - by intros e ->.
  - intros a e -> He. rewrite GL_bind_pure_Ok.
    unfold gpgpu_createProgram. rewrite He. done.
  - intros a p -> Hp. rewrite GL_bind_pure_Ok.
    apply GL_bind_completes; [by exists p|intros webGLProgram].
    apply GL_bind_completes; [by eexists|intros nanLoc].
    apply GL_bind_completes; [case_bool_decide; by eexists|intros infLoc].
    apply GL_bind_completes; [|intros locs1].
    { eapply foldl_result_Ok; [|reflexivity].
      intros acc x s Hacc. rewrite (GL_bind_Ok_eq _ _ s Hacc). by eexists. }
    apply GL_bind_completes; [|intros locs2].
    { eapply foldl_result_Ok; [|reflexivity].
      intros acc x s Hacc. rewrite (GL_bind_Ok_eq _ _ s Hacc). cbn [result].
      clear. case_bool_decide; [apply recordUniformLocations_result|by eexists]. }
    apply GL_bind_completes; [|intros locs3; by eexists].
    clear. case_bool_decide; [apply recordUniformLocations_result|by eexists].
Qed.

Lemma compileProgram_failure_witness :
  @compileProgram (exampleImports 2) rejectingContext exampleProgram
    [inputA; inputB] outputC
    = mkGL (Throw (Error "Failed to link vertex and fragment shaders."))
        [CreateProgram "return a + b;"] ∧
  @compileProgram (exampleImports 2) rejectingContext exampleProgram
    [inputA; inputB] inputB
    = mkGL (Throw (TypeError "Cannot read property 'texShape' of null")) [].
Proof.
  split.
  - destruct (@compileProgram_failure (exampleImports 2) rejectingContext
                exampleProgram [inputA; inputB] outputC) as (_ & Hlink & _).
    eapply (Hlink (mkAssembled _ _ _ _)); vm_compute; reflexivity.
  - destruct (@compileProgram_failure (exampleImports 2) rejectingContext
                exampleProgram [inputA; inputB] inputB) as (Hassemble & _).
    apply Hassemble. vm_compute. reflexivity.
Defined.

(** ** The key and the validator *)

Lemma sameLayout_agreesWith s x y :
  sameLayout x y → agreesWith s x → agreesWith s y.
Proof.
  intros (Hshape & Huni & Htex & _) [Hs Hx]. split; [congruence|].
  rewrite <-Huni. destruct Hx as [Hboth|Hx]; [by left|right].
  unfold texShapeOrNull, physicalTexShape, texDataOf in *.
  rewrite <-Huni in *. destruct (TensorData.isUniform x); [done|].
  destruct (TensorData.texData x) as [tdx|]; [|done].
  destruct (TensorData.texData y) as [tdy|]; [|done].
  simpl in *. injection Htex as Htex. by rewrite <-Htex.
Qed.

Lemma makeShaderKey_eq_sameLayout program inputs output inputs' output' k :
  makeShaderKey program inputs output = Ok k →
  makeShaderKey program inputs' output' = Ok k →
  Forall2 sameLayout inputs inputs' ∧ sameLayout output output'.
Proof.
  unfold makeShaderKey. intros Hk Hk'.
  destruct (keyInputsFrom "" (inputs ++ [output])) as [ki|] eqn:Hki; [|done].
  destruct (keyInputsFrom "" (inputs' ++ [output'])) as [ki'|] eqn:Hki'; [|done].
  simpl in Hk, Hk'. injection Hk as <-. injection Hk' as Heq.
  do 2 apply (inj (String.append _)) in Heq.
  apply string_app_inv_tail in Heq. subst ki'.
  pose proof (keyInputsFrom_inj _ _ _ Hki' Hki) as Hall.
  pose proof (Forall2_length _ _ _ Hall) as Hlen.
  rewrite !length_app in Hlen. simpl in Hlen.
  apply Forall2_app_inv in Hall as [Hin Hout]; [|lia].
  split.
  - eapply Forall2_flip, Forall2_impl; [exact Hin|].
    intros x y (? & ? & ? & ?). by repeat split.
  - apply Forall2_cons_1 in Hout as [(? & ? & ? & ?) _]. by repeat split.
Qed.

Lemma same_key_validates_aux `{!Imports} gpgpu program inputs output binary
    inputs' output' k :
  result (compileProgram gpgpu program inputs output) = Ok binary →
  TensorData.isUniform output = false →
  makeShaderKey program inputs output = Ok k →
  makeShaderKey program inputs' output' = Ok k →
  validateBinaryAndProgram (GPGPUBinary.inShapeInfos binary) inputs' = Ok tt ∧
  validateBinaryAndProgram [GPGPUBinary.outShapeInfo binary] [output'] = Ok tt.
Proof.
  intros Hbinary Huni Hk Hk'.
  destruct (makeShaderKey_eq_sameLayout _ _ _ _ _ _ Hk Hk') as [Hin Hout].
  destruct (compileProgram_then_validate_aux _ _ _ _ _ Hbinary Huni)
    as [Hvin Hvout].
  apply validate_Ok_iff_agreesWith in Hvin, Hvout.
  split; apply validate_Ok_iff_agreesWith.
  - apply Forall2_same_length_lookup. split.
    + rewrite (Forall2_length _ _ _ Hvin). by eapply Forall2_length.
    + intros j s y Hs Hy.
      destruct (Forall2_lookup_r _ _ _ _ _ Hin Hy) as (x & Hx & Hxy).
      eapply sameLayout_agreesWith; [exact Hxy|].
      exact (Forall2_lookup_lr _ _ _ _ _ _ Hvin Hs Hx).
  - apply Forall2_cons_1 in Hvout as [Hagree _].
    constructor; [|constructor]. by eapply sameLayout_agreesWith.
Qed.

(** X5. The cache key protects the validator: if a binary was compiled for
    a program with some operands whose output is not flagged uniform, then
    any operands for which [makeShaderKey] returns the same key pass both
    validations of [runProgram] against that binary. *)
Theorem same_key_validates `{!Imports} gpgpu program inputs output binary
    inputs' output' k :
  result (compileProgram gpgpu program inputs output) = Ok binary →
  TensorData.isUniform output = false →
  makeShaderKey program inputs output = Ok k →
  makeShaderKey program inputs' output' = Ok k →
  validateBinaryAndProgram (GPGPUBinary.inShapeInfos binary) inputs' = Ok tt ∧
  validateBinaryAndProgram [GPGPUBinary.outShapeInfo binary] [output'] = Ok tt.
Proof. apply same_key_validates_aux. Qed.

Lemma same_key_validates_witness :
  ∃ binary,
    result (@compileProgram (exampleImports 2) (exampleContext allUniforms)
              exampleProgram [inputA; inputB] outputC) = Ok binary ∧
    makeShaderKey exampleProgram [inputA_repacked; inputB] outputC
      = makeShaderKey exampleProgram [inputA; inputB] outputC ∧
    validateBinaryAndProgram (GPGPUBinary.inShapeInfos binary)
      [inputA_repacked; inputB] = Ok tt ∧
    validateBinaryAndProgram [GPGPUBinary.outShapeInfo binary] [outputC]
      = Ok tt.
Proof.
  assert (∃ binary,
    result (@compileProgram (exampleImports 2) (exampleContext allUniforms)
              exampleProgram [inputA; inputB] outputC) = Ok binary)
    as [binary Hbinary] by (vm_compute; eexists; reflexivity).
  exists binary. split_and!; [exact Hbinary|vm_compute; reflexivity|..];
    apply (@same_key_validates (exampleImports 2) _ exampleProgram
             [inputA; inputB] outputC binary [inputA_repacked; inputB] outputC
             _ Hbinary eq_refl eq_refl eq_refl).
Defined.

(** ** When the key exists *)

Lemma operandKey_Ok_iff x :
  (∃ k, operandKey x = Ok k) ↔ hasStorage x = true.
Proof.
  unfold operandKey, hasStorage, texDataOf.
  destruct (TensorData.isUniform x); simpl.
  - split; [done|by eexists].
  - destruct (TensorData.texData x) as [td|]; simpl.
    + split; [done|by eexists].
    + split; [by intros [? ?]|done].
Qed.

Lemma operandKey_Throw x e :
  operandKey x = Throw e →
  e = TypeError "Cannot read property 'texShape' of null".
Proof.
  unfold operandKey, texDataOf. destruct (TensorData.isUniform x); [done|].
  destruct (TensorData.texData x); [done|]. simpl. by intros [= <-].
Qed.

Lemma keyInputsFrom_Ok_iff keyInputs xs :
  (∃ k, keyInputsFrom keyInputs xs = Ok k) ↔
  Forall (λ x, hasStorage x = true) xs.
Proof.
  revert keyInputs. induction xs as [|x xs IH]; intros keyInputs; simpl.
  - split; [constructor|by eexists].
  - rewrite Forall_cons, <-operandKey_Ok_iff.
    destruct (operandKey x) as [kx|e]; simpl.
    + rewrite IH. split; [intros ?; split; [by eexists|done]|by intros [_ ?]].
    + split; [by intros [? ?]|by intros [[? ?] _]].
Qed.

Lemma keyInputsFrom_Throw keyInputs xs e :
  keyInputsFrom keyInputs xs = Throw e →
  e = TypeError "Cannot read property 'texShape' of null".
Proof.
  revert keyInputs. induction xs as [|x xs IH]; intros keyInputs; [done|].
  simpl. destruct (operandKey x) as [kx|e'] eqn:Hx; simpl.
  - apply IH.
  - intros [= <-]. by eapply operandKey_Throw.
Qed.

(** X6. [makeShaderKey] returns a key exactly when every operand that is not
    uniform-backed, the output included, has texture data; otherwise it throws
    a [TypeError] (that of reading [texShape] on [null]).  In particular it returns
    a key for all operands that [assembleProgramSource] accepts. *)
Theorem makeShaderKey_defined_iff `{!Imports} program inputs output :
  ((∃ k, makeShaderKey program inputs output = Ok k) ↔
   Forall (λ x, hasStorage x = true) (inputs ++ [output])) ∧
  (∀ e, makeShaderKey program inputs output = Throw e →
        ∃ message, e = TypeError message) ∧
  (∀ a, assembleProgramSource program inputs output = Ok a →
        ∃ k, makeShaderKey program inputs output = Ok k).
Proof.
  assert ((∃ k, makeShaderKey program inputs output = Ok k) ↔
          Forall (λ x, hasStorage x = true) (inputs ++ [output])) as Hiff.
  { rewrite <-(keyInputsFrom_Ok_iff ""). unfold makeShaderKey.
    destruct (keyInputsFrom "" (inputs ++ [output])) as [ki|]; simpl.
    - split; intros _; by eexists.
    - split; by intros [? ?]. }
  split_and!; [exact Hiff| |].
  - unfold makeShaderKey. intros e.
    destruct (keyInputsFrom "" (inputs ++ [output])) as [ki|e'] eqn:Hki;
      [done|]. simpl. intros [= <-]. eexists. by eapply keyInputsFrom_Throw.
  - intros a Ha. apply Hiff. apply Forall_app. split.
    + unfold assembleProgramSource in Ha.
      destruct (inputInfosFrom _ 0 inputs) as [infos|] eqn:Hinfos; [|done].
      destruct (inputInfosFrom_Ok _ _ _ _ Hinfos) as [_ Hat].
      apply Forall_lookup. intros j input Hj.
      destruct (Hat j input Hj) as (info & _ & _ & Hs).
      destruct (hasStorage input) eqn:Hst; [done|].
      apply inputShapeInfo_Throw_iff in Hst as [e He]. congruence.
    + destruct (proj1 (assembleProgramSource_texData _ _ _ _ Ha)) as [td Htd].
      repeat constructor. unfold hasStorage. rewrite Htd.
      by rewrite bool_decide_true, orb_true_r by by eexists.
Qed.

(** ** Recording uniform locations *)

Lemma foldl_prefix_inv {A B} (P : list A → B → Prop) (step : B → A → B) l :
  (∀ done acc x, P done acc → P (done ++ [x]) (step acc x)) →
  ∀ done init, P done init → P (done ++ l) (foldl step init l).
Proof.
  intros Hstep. induction l as [|x l IH]; intros done init Hinit; simpl.
  - by rewrite app_nil_r.
  - rewrite (cons_middle x), app_assoc. apply IH. by apply Hstep.
Qed.

Lemma queries_app webGLProgram shouldThrow names names' :
  queries webGLProgram shouldThrow (names ++ names')
    = queries webGLProgram shouldThrow names
      ++ queries webGLProgram shouldThrow names'.
Proof. apply fmap_app. Qed.

Lemma recordUniformLocations_spec gpgpu webGLProgram uniformLocations
    shouldThrow varNames :
  ∃ locs,
    recordUniformLocations gpgpu webGLProgram uniformLocations shouldThrow
      varNames = mkGL (Ok locs) (queries webGLProgram shouldThrow varNames) ∧
    ∀ name,
      locs !! name =
        match getUniformLocation gpgpu webGLProgram name shouldThrow with
        | Some loc =>
            if bool_decide (name ∈ varNames) then Some (Some loc)
            else uniformLocations !! name
        | None => uniformLocations !! name
        end.
Proof.
  unfold recordUniformLocations.
  pose (P := λ (done : list string)
               (acc : GL (gmap string (option WebGLUniformLocation))),
    ∃ locs, acc = mkGL (Ok locs) (queries webGLProgram shouldThrow done) ∧
      ∀ name,
        locs !! name =
          match getUniformLocation gpgpu webGLProgram name shouldThrow with
          | Some loc =>
              if bool_decide (name ∈ done) then Some (Some loc)
              else uniformLocations !! name
          | None => uniformLocations !! name
          end).
  apply (foldl_prefix_inv P _ varNames) with (done := []).
  - intros done acc x (locs & -> & Hlocs). unfold P.
    eexists. split.
    + rewrite queries_app. reflexivity.
    + intros name. cbn.
      destruct (decide (name = x)) as [->|Hne].
      * destruct (getUniformLocation gpgpu webGLProgram x shouldThrow)
          as [loc|] eqn:Hx.
        -- rewrite lookup_insert_eq, bool_decide_true; [done|].
           apply elem_of_app. right. by left.
        -- rewrite Hlocs, Hx. done.
      * assert ((match getUniformLocation gpgpu webGLProgram x shouldThrow with
                 | Some _ =>
                     <[x:=getUniformLocation gpgpu webGLProgram x shouldThrow]>
                       locs
                 | None => locs
                 end) !! name = locs !! name) as ->.
        { destruct (getUniformLocation gpgpu webGLProgram x shouldThrow);
            [by rewrite lookup_insert_ne by congruence|done]. }
        rewrite Hlocs.
        destruct (getUniformLocation gpgpu webGLProgram name shouldThrow);
          [|done].
        rewrite (bool_decide_ext (name ∈ done ++ [x]) (name ∈ done)); [done|].
        rewrite elem_of_app, list_elem_of_singleton.
        split; [by intros [?|?]|by left].
  - exists uniformLocations. split; [done|]. intros name.
    destruct (getUniformLocation _ _ _ _); [|done].
    by rewrite bool_decide_false by apply not_elem_of_nil.
Qed.

(** X7. Called as [compileProgram] calls it, with [shouldThrow = false],
    [recordUniformLocations] completes and queries each name once, in order.
    It stores only resolved locations: afterwards a queried name whose
    location exists maps to it, and every other name keeps the entry it had,
    so a missing uniform never overwrites an entry with [null]. *)
Theorem recordUniformLocations_stores_resolved gpgpu webGLProgram
    uniformLocations varNames :
  ∃ locs,
    recordUniformLocations gpgpu webGLProgram uniformLocations false varNames
      = mkGL (Ok locs) (queries webGLProgram false varNames) ∧
    (∀ name loc,
       name ∈ varNames →
       getUniformLocation gpgpu webGLProgram name false = Some loc →
       locs !! name = Some (Some loc)) ∧
    (∀ name,
       name ∉ varNames ∨
       getUniformLocation gpgpu webGLProgram name false = None →
       locs !! name = uniformLocations !! name).
Proof.
  destruct (recordUniformLocations_spec gpgpu webGLProgram uniformLocations
              false varNames) as (locs & Hrun & Hlocs).
  exists locs. split_and!; [exact Hrun|..].
  - intros name loc Hin Hloc. by rewrite Hlocs, Hloc, bool_decide_true.
  - intros name Hcase. rewrite Hlocs.
    destruct (getUniformLocation gpgpu webGLProgram name false); [|done].
    destruct Hcase as [Hnot|?]; [|done]. by rewrite bool_decide_false.
Qed.

(** ** The location table of a compiled program *)

Lemma tableSound_empty oracle : tableSound oracle ∅.
Proof. intros name v. by rewrite lookup_empty. Qed.

Lemma tableSound_insert oracle t name :
  tableSound oracle t → tableSound oracle (<[name := oracle name]> t).
Proof.
  intros Ht n v. destruct (decide (name = n)) as [->|Hne].
  - rewrite lookup_insert_eq. by intros [= <-].
  - rewrite lookup_insert_ne by done. apply Ht.
Qed.

Lemma tableKnows_insert oracle t name n :
  tableKnows oracle t n → tableKnows oracle (<[name := oracle name]> t) n.
Proof.
  unfold tableKnows. destruct (decide (name = n)) as [->|Hne].
  - by rewrite lookup_insert_eq.
  - by rewrite lookup_insert_ne.
Qed.

Lemma tableKnows_insert_eq oracle t name :
  tableKnows oracle (<[name := oracle name]> t) name.
Proof. unfold tableKnows. by rewrite lookup_insert_eq. Qed.

Lemma tableSound_uniformLocation oracle t name loc :
  tableSound oracle t → mjoin (t !! name) = Some loc → oracle name = Some loc.
Proof.
  intros Ht. destruct (t !! name) as [v|] eqn:Hv; [|done]. simpl.
  intros ->. symmetry. by apply Ht.
Qed.

Lemma recordUniformLocations_table gpgpu webGLProgram t names
    (K : string → Prop) :
  let oracle := λ name, getUniformLocation gpgpu webGLProgram name false in
  tableSound oracle t → (∀ n, K n → tableKnows oracle t n) →
  ∃ t', recordUniformLocations gpgpu webGLProgram t false names
          = mkGL (Ok t') (queries webGLProgram false names) ∧
        tableSound oracle t' ∧
        ∀ n, K n ∨ n ∈ names → tableKnows oracle t' n.
Proof.
  intros oracle Ht HK.
  destruct (recordUniformLocations_spec gpgpu webGLProgram t false names)
    as (t' & Hrun & Ht').
  exists t'. split_and!; [done|..].
  - intros name v. rewrite Ht'. fold (oracle name).
    destruct (oracle name) as [loc|] eqn:Hname; [case_bool_decide|].
    + by intros [= <-].
    + intros Hv. rewrite <-Hname. by apply Ht.
    + intros Hv. rewrite <-Hname. by apply Ht.
  - intros n Hn. unfold tableKnows. rewrite Ht'. fold (oracle n).
    destruct (oracle n) as [loc|] eqn:Hname; [case_bool_decide as Hin|].
    + done.
    + destruct Hn as [Hn|?]; [|done]. rewrite <-Hname. by apply HK.
    + destruct (t !! n) as [v|] eqn:Hv; [|done]. simpl.
      rewrite (Ht n v Hv). done.
Qed.

Lemma concat_fmap_app {A B} (f : A → list B) (l l' : list A) :
  concat (f <$> (l ++ l')) = concat (f <$> l) ++ concat (f <$> l').
Proof. by rewrite fmap_app, concat_app. Qed.

(** What a successful compilation queried and recorded. *)
Lemma compileProgram_spec `{!Imports} gpgpu program inputs output binary :
  result (compileProgram gpgpu program inputs output) = Ok binary →
  let webGLProgram := GPGPUBinary.webGLProgram binary in
  let oracle := λ name, getUniformLocation gpgpu webGLProgram name false in
  ∃ a, assembleProgramSource program inputs output = Ok a ∧
    calls (compileProgram gpgpu program inputs output) =
      CreateProgram (assembledSource a) ::
      GetUniformLocation webGLProgram "NAN" false ::
      (if bool_decide (ENV_getNumber "WEBGL_VERSION" = 1)
       then [GetUniformLocation webGLProgram "INFINITY" false] else []) ++
      concat (variableQueries webGLProgram
                <$> GPGPUProgram.variableNames program) ++
      concat (inputQueries webGLProgram <$> inputInfos a) ++
      (if bool_decide (0 < length (ShapeInfo.logicalShape
                                     (assembledOutShapeInfo a)))%nat
       then queries webGLProgram false outputUniformNames else []) ∧
    tableSound oracle (GPGPUBinary.uniformLocations binary) ∧
    (∀ v, v ∈ GPGPUProgram.variableNames program →
       tableKnows oracle (GPGPUBinary.uniformLocations binary) v ∧
       tableKnows oracle (GPGPUBinary.uniformLocations binary)
         ("offset" +:+ v)) ∧
    (∀ info n, info ∈ inputInfos a →
       (0 < length (ShapeInfo.logicalShape (InputInfo.shapeInfo info)))%nat →
       n ∈ inputUniformNames (InputInfo.name info) →
       tableKnows oracle (GPGPUBinary.uniformLocations binary) n) ∧
    (∀ n, (0 < length (ShapeInfo.logicalShape (assembledOutShapeInfo a)))%nat →
       n ∈ outputUniformNames →
       tableKnows oracle (GPGPUBinary.uniformLocations binary) n).
Proof.
  unfold compileProgram.
  destruct (assembleProgramSource program inputs output) as [a|e]; [|done].
  rewrite GL_bind_pure_Ok. intros Hok. exists a. split; [done|].
  apply GL_bind_result_Ok in Hok as (p & Hp & Hok & ->).
  apply GL_bind_result_Ok in Hok as (nanLoc & Hnan & Hok & ->).
  apply GL_bind_result_Ok in Hok as (infLoc & Hinf & Hok & ->).
  apply GL_bind_result_Ok in Hok as (locs1 & Hlocs1 & Hok & ->).
  apply GL_bind_result_Ok in Hok as (locs2 & Hlocs2 & Hok & ->).
  apply GL_bind_result_Ok in Hok as (locs3 & Hlocs3 & Hok & ->).
  cbn in Hok. injection Hok as <-.
  cbn [GPGPUBinary.webGLProgram GPGPUBinary.uniformLocations].
  set (oracle := λ name, getUniformLocation gpgpu p name false).
  (* the loop over the declared variables *)
  pose (P1 := λ (done : list string)
                (acc : GL (gmap string (option WebGLUniformLocation))),
    ∃ t, acc = mkGL (Ok t) (concat (variableQueries p <$> done)) ∧
      tableSound oracle t ∧
      ∀ v, v ∈ done → tableKnows oracle t v ∧
                       tableKnows oracle t ("offset" +:+ v)).
  match type of Hlocs1 with
  | result (foldl ?step ?init ?l) = _ =>
      assert (P1 l (foldl step init l)) as (t1 & HF1 & Hs1 & Hk1)
  end.
  { apply (foldl_prefix_inv P1) with (done := []).
    - intros done acc x (t & -> & Hs & Hk). eexists. split_and!.
      + rewrite concat_fmap_app. cbn. reflexivity.
      + apply (tableSound_insert oracle), (tableSound_insert oracle), Hs.
      + intros v Hv. apply elem_of_app in Hv as [Hv|Hv].
        * destruct (Hk v Hv).
          split; by do 2 apply (tableKnows_insert oracle).
        * apply list_elem_of_singleton in Hv as ->. split.
          -- apply (tableKnows_insert oracle), (tableKnows_insert_eq oracle).
          -- apply (tableKnows_insert_eq oracle).
    - exists ∅. split_and!; [done|apply tableSound_empty|].
      intros v Hv. by apply elem_of_nil in Hv. }
  rewrite HF1 in Hlocs1 |- *. cbn in Hlocs1. injection Hlocs1 as <-.
  (* the loop over the inputs *)
  pose (P2 := λ (done : list InputInfo.t)
                (acc : GL (gmap string (option WebGLUniformLocation))),
    ∃ t, acc = mkGL (Ok t) (concat (inputQueries p <$> done)) ∧
      tableSound oracle t ∧
      (∀ v, v ∈ GPGPUProgram.variableNames program →
         tableKnows oracle t v ∧ tableKnows oracle t ("offset" +:+ v)) ∧
      ∀ info n, info ∈ done →
        (0 < length (ShapeInfo.logicalShape (InputInfo.shapeInfo info)))%nat →
        n ∈ inputUniformNames (InputInfo.name info) → tableKnows oracle t n).
  match type of Hlocs2 with
  | result (foldl ?step ?init ?l) = _ =>
      assert (P2 l (foldl step init l)) as (t2 & HF2 & Hs2 & Hv2 & Hk2)
  end.
  { apply (foldl_prefix_inv P2) with (done := []).
    - intros done acc x (t & -> & Hs & Hv & Hk). unfold P2.
      rewrite concat_fmap_app. cbn [fmap list_fmap concat]. rewrite app_nil_r.
      rewrite GL_bind_Ok_eq with (a := t) by done. cbn [result calls].
      unfold inputQueries.
      destruct (bool_decide (0 < length (ShapeInfo.logicalShape
                                           (InputInfo.shapeInfo x)))%nat)
        eqn:Hrank.
      + destruct (recordUniformLocations_table gpgpu p t
                    (inputUniformNames (InputInfo.name x))
                    (λ n, (∃ v, v ∈ GPGPUProgram.variableNames program ∧
                                (n = v ∨ n = "offset" +:+ v)) ∨
                          ∃ info, info ∈ done ∧
                            (0 < length (ShapeInfo.logicalShape
                                           (InputInfo.shapeInfo info)))%nat ∧
                            n ∈ inputUniformNames (InputInfo.name info))
                    Hs) as (t' & Hrun & Hs' & Hk').
        { intros n [(v & Hin & [-> | ->])|(info & Hin & Hr & Hn)].
          - by apply Hv.
          - by apply Hv.
          - by eapply Hk. }
        rewrite Hrun. exists t'. split_and!; [done|done|..].
        * intros v Hin. split; apply Hk'; left; left; exists v; auto.
        * intros info n Hin Hr Hn. apply Hk'.
          apply elem_of_app in Hin as [Hin|Hin].
          -- left. right. by exists info.
          -- apply list_elem_of_singleton in Hin as ->. by right.
      + exists t. cbn. rewrite app_nil_r. split_and!; [done|done|done|].
        intros info n Hin Hr Hn.
        apply elem_of_app in Hin as [Hin|Hin]; [by eapply Hk|].
        apply list_elem_of_singleton in Hin as ->.
        by apply bool_decide_eq_false in Hrank.
    - exists t1. split_and!; [done|done|done|].
      intros info n Hin. by apply elem_of_nil in Hin. }
  rewrite HF2 in Hlocs2 |- *. cbn in Hlocs2. injection Hlocs2 as <-.
  (* the output *)
  assert (∃ t3,
    (if bool_decide (0 < length (ShapeInfo.logicalShape
                                   (assembledOutShapeInfo a)))%nat
     then recordUniformLocations gpgpu p t2 false outputUniformNames
     else mret t2)
    = mkGL (Ok t3)
        (if bool_decide (0 < length (ShapeInfo.logicalShape
                                       (assembledOutShapeInfo a)))%nat
         then queries p false outputUniformNames else []) ∧
    tableSound oracle t3 ∧
    (∀ v, v ∈ GPGPUProgram.variableNames program →
       tableKnows oracle t3 v ∧ tableKnows oracle t3 ("offset" +:+ v)) ∧
    (∀ info n, info ∈ inputInfos a →
       (0 < length (ShapeInfo.logicalShape (InputInfo.shapeInfo info)))%nat →
       n ∈ inputUniformNames (InputInfo.name info) → tableKnows oracle t3 n) ∧
    (∀ n, (0 < length (ShapeInfo.logicalShape (assembledOutShapeInfo a)))%nat →
       n ∈ outputUniformNames → tableKnows oracle t3 n))
    as (t3 & HF3 & Hs3 & Hv3 & Hk3 & Ho3).
  { clear Hlocs3.
    destruct (bool_decide (0 < length (ShapeInfo.logicalShape
                                         (assembledOutShapeInfo a)))%nat)
      eqn:Hrank.
    - destruct (recordUniformLocations_table gpgpu p t2 outputUniformNames
                  (λ n, (∃ v, v ∈ GPGPUProgram.variableNames program ∧
                              (n = v ∨ n = "offset" +:+ v)) ∨
                        ∃ info, info ∈ inputInfos a ∧
                          (0 < length (ShapeInfo.logicalShape
                                         (InputInfo.shapeInfo info)))%nat ∧
                          n ∈ inputUniformNames (InputInfo.name info))
                  Hs2) as (t' & Hrun & Hs' & Hk').
      { intros n [(v & Hin & [-> | ->])|(info & Hin & Hr & Hn)].
        - by apply Hv2.
        - by apply Hv2.
        - by eapply Hk2. }
      exists t'. split_and!; [done|done|..].
      + intros v Hin. split; apply Hk'; left; left; exists v; auto.
      + intros info n Hin Hr Hn. apply Hk'. left. right. by exists info.
      + intros n _ Hn. apply Hk'. by right.
    - exists t2. split_and!; [done|done|done|done|].
      intros n Hr. by apply bool_decide_eq_false in Hrank. }
  rewrite HF3 in Hlocs3 |- *. cbn in Hlocs3. injection Hlocs3 as <-.
  cbn in Hp, Hnan.
  split_and!; [|done..].
  cbn [calls gpgpu_createProgram gpgpu_getUniformLocation app].
  do 2 f_equal. rewrite app_nil_r.
  clear. by case_bool_decide.
Qed.

(** X8. A successful [compileProgram] makes exactly these calls, in this
    order: [createProgram] on the assembled source; the query for [NAN]; the
    query for [INFINITY] under [WEBGL_VERSION] 1; for each declared variable
    its name and then [offset<name>]; for each input with a non-scalar
    logical shape its six layout names; and, for a non-scalar output, the six
    output names.  Every query is for the program just created and asks the
    context not to throw; scalar operands cause no layout query. *)
Theorem compileProgram_queries `{!Imports} gpgpu program inputs output binary :
  result (compileProgram gpgpu program inputs output) = Ok binary →
  let webGLProgram := GPGPUBinary.webGLProgram binary in
  ∃ a, assembleProgramSource program inputs output = Ok a ∧
    calls (compileProgram gpgpu program inputs output) =
      CreateProgram (assembledSource a) ::
      GetUniformLocation webGLProgram "NAN" false ::
      (if bool_decide (ENV_getNumber "WEBGL_VERSION" = 1)
       then [GetUniformLocation webGLProgram "INFINITY" false] else []) ++
      concat (variableQueries webGLProgram
                <$> GPGPUProgram.variableNames program) ++
      concat (inputQueries webGLProgram <$> inputInfos a) ++
      (if bool_decide (0 < length (TensorData.shape output))%nat
       then queries webGLProgram false outputUniformNames else []).
Proof.
  intros Hok webGLProgram.
  destruct (compileProgram_spec _ _ _ _ _ Hok) as (a & Ha & Hcalls & _).
  exists a. split; [done|]. rewrite Hcalls.
  destruct (assembleProgramSource_spec _ _ _ _ Ha) as (_ & _ & td & _ & ->).
  done.
Qed.

Lemma compileProgram_queries_witness :
  calls (@compileProgram (exampleImports 2) (exampleContext allUniforms)
           exampleProgram [inputA; inputB_scalar] outputC) =
    CreateProgram "return a + b;" ::
    queries 1%N false
      [ "NAN"; "A"; "offsetA"; "B"; "offsetB";
        "shapeA"; "texShapeA"; "stridesA"; "packedTexShapeA";
        "valuesPerRowA"; "texelsInBatchA";
        "shapeB"; "texShapeB"; "stridesB"; "packedTexShapeB";
        "valuesPerRowB"; "texelsInBatchB";
        "outputShape"; "outputStrides"; "outputTexShape";
        "outputPackedTexShape"; "outputTexelsInLogicalRow";
        "outputTexelsInBatch" ].
Proof.
  assert (∃ binary,
    result (@compileProgram (exampleImports 2) (exampleContext allUniforms)
              exampleProgram [inputA; inputB_scalar] outputC) = Ok binary)
    as [binary Hbinary] by (vm_compute; eexists; reflexivity).
  destruct (@compileProgram_queries (exampleImports 2) _ _ _ _ _ Hbinary)
    as (a & Ha & Hcalls).
  rewrite Hcalls. vm_compute in Ha. injection Ha as <-.
  vm_compute in Hbinary. injection Hbinary as <-. reflexivity.
Defined.

(** X9. The location table of a compiled binary holds the context's answers:
    a name it resolves is resolved to the same location by the context, for
    the compiled program.  For every name the compiler queried (each declared
    variable and its [offset<name>], the six layout names of each input with
    a non-scalar shape, the six output names of a non-scalar output) the
    table gives exactly what the context answers, a missing uniform being
    "no location". *)
Theorem compileProgram_table `{!Imports} gpgpu program inputs output binary :
  result (compileProgram gpgpu program inputs output) = Ok binary →
  let oracle := λ name,
    getUniformLocation gpgpu (GPGPUBinary.webGLProgram binary) name false in
  (∀ name loc, uniformLocation binary name = Some loc →
               oracle name = Some loc) ∧
  (∀ v, v ∈ GPGPUProgram.variableNames program →
     uniformLocation binary v = oracle v ∧
     uniformLocation binary ("offset" +:+ v) = oracle ("offset" +:+ v)) ∧
  (∀ j input name,
     inputs !! j = Some input →
     (0 < length (TensorData.shape input))%nat →
     name ∈ inputUniformNames (GPGPUProgram.variableNames program !! j) →
     uniformLocation binary name = oracle name) ∧
  (∀ name,
     (0 < length (TensorData.shape output))%nat →
     name ∈ outputUniformNames →
     uniformLocation binary name = oracle name).
Proof.
  intros Hok oracle.
  destruct (compileProgram_spec _ _ _ _ _ Hok)
    as (a & Ha & _ & Hsound & Hvars & Hins & Hout).
  destruct (assembleProgramSource_spec _ _ _ _ Ha)
    as (_ & Hat & td & _ & Houtinfo).
  split_and!.
  - intros name loc. by apply tableSound_uniformLocation.
  - exact Hvars.
  - intros j input name Hj Hrank Hname.
    destruct (Hat j input Hj) as (info & Hinfo & Hn & Hshape & _).
    apply (Hins info name).
    + by eapply list_elem_of_lookup_2.
    + by rewrite Hshape.
    + by rewrite Hn.
  - intros name Hrank Hname. apply Hout; [|done]. by rewrite Houtinfo.
Qed.

Lemma compileProgram_table_witness :
  ∃ binary,
    result (@compileProgram (exampleImports 2) (exampleContext allUniforms)
              exampleProgram [inputA; inputB] outputC) = Ok binary ∧
    uniformLocation binary "A" = Some 10%N ∧
    uniformLocation binary "offsetB" = None ∧
    uniformLocation binary "stridesA" = Some 14%N ∧
    uniformLocation binary "outputTexShape" = Some 32%N.
Proof.
  assert (∃ binary,
    result (@compileProgram (exampleImports 2) (exampleContext allUniforms)
              exampleProgram [inputA; inputB] outputC) = Ok binary)
    as [binary Hbinary] by (vm_compute; eexists; reflexivity).
  destruct (@compileProgram_table (exampleImports 2) _ _ _ _ _ Hbinary)
    as (_ & Hvars & Hins & Hout).
  exists binary. split_and!; [exact Hbinary|..].
  - destruct (Hvars "A") as [HA _]; [|exact HA].
    apply (list_elem_of_lookup_2 _ 0%nat). reflexivity.
  - destruct (Hvars "B") as [_ HB]; [|exact HB].
    apply (list_elem_of_lookup_2 _ 1%nat). reflexivity.
  - apply (Hins 0%nat inputA "stridesA"); [reflexivity| |].
    + simpl. lia.
    + apply (list_elem_of_lookup_2 _ 2%nat). reflexivity.
  - apply (Hout "outputTexShape").
    + simpl. lia.
    + apply (list_elem_of_lookup_2 _ 2%nat). reflexivity.
Defined.

(** ** The executor: when a run completes, and how it fails *)

Lemma GL_bind_result {A B} (m : GL A) (f : A → GL B) a :
  result m = Ok a → result (m ≫= f) = result (f a).
Proof. intros Hm. by rewrite (GL_bind_Ok_eq _ _ _ Hm). Qed.

Lemma GL_bind_Throw {A B} (m : GL A) (f : A → GL B) e :
  result m = Throw e → m ≫= f = mkGL (Throw e) (calls m).
Proof. unfold mbind, GL_bind. by intros ->. Qed.

Lemma forEachGLFrom_result_Ok {A} (f : A → nat → GL unit) k l :
  (∀ i x, l !! i = Some x → result (f x (k + i)%nat) = Ok tt) →
  result (forEachGLFrom f k l) = Ok tt.
Proof.
  revert k. induction l as [|x l IH]; intros k Hf; [done|].
  simpl. rewrite (GL_bind_result _ _ tt).
  - apply IH. intros i y Hy.
    replace (S k + i)%nat with (k + S i)%nat by lia. by apply Hf.
  - specialize (Hf 0%nat x eq_refl). by rewrite Nat.add_0_r in Hf.
Qed.

Lemma forEachGLFrom_result_Throw {A} (f : A → nat → GL unit) k l e :
  result (forEachGLFrom f k l) = Throw e →
  ∃ i x, l !! i = Some x ∧ result (f x (k + i)%nat) = Throw e.
Proof.
  revert k. induction l as [|x l IH]; intros k He; [done|].
  simpl in He. destruct (result (f x k)) as [[ ]|e'] eqn:Hx.
  - rewrite (GL_bind_result _ _ tt Hx) in He.
    destruct (IH _ He) as (i & y & Hy & Hfy). exists (S i), y.
    split; [done|]. by replace (k + S i)%nat with (S k + i)%nat by lia.
  - rewrite (GL_bind_Throw _ _ e' Hx) in He. simpl in He. injection He as <-.
    exists 0%nat, x. split; [done|]. by rewrite Nat.add_0_r.
Qed.

(** How the callback of one input ends, for an input that has its texture
    data unless it is uniform-backed. *)
Lemma runProgramInput_result `{!Imports} binary input i :
  (TensorData.isUniform input = false → is_Some (TensorData.texData input)) →
  result (runProgramInput binary input i) =
    match uniformLocation binary (inputVarName binary i) with
    | Some _ =>
        if TensorData.isUniform input &&
           bool_decide (util.sizeFromShape (TensorData.shape input) < 2)
        then match TensorData.uniformValues input with
             | Some _ => Ok tt
             | None => Throw (TypeError "Cannot read property '0' of undefined")
             end
        else Ok tt
    | None => Ok tt
    end.
Proof.
  intros Htex. unfold inputVarName.
  destruct (uniformLocation binary _) as [loc|] eqn:Hloc.
  - destruct (TensorData.isUniform input) eqn:Hu.
    + unfold runProgramInput. rewrite Hloc, Hu. simpl.
      destruct (bool_decide _); [|done]. unfold firstUniformValue.
      by destruct (TensorData.uniformValues input).
    + destruct (Htex eq_refl) as [td Htd].
      by rewrite (runProgramInput_texture _ _ _ td loc).
  - unfold runProgramInput. by rewrite Hloc.
Qed.

Lemma runProgramOutput_result `{!Imports} binary output :
  is_Some (TensorData.texData output) →
  result (runProgramOutput binary output) = Ok tt.
Proof.
  intros [td Htd].
  destruct (decide (0 < length (TensorData.shape output))%nat) as [Hrank|Hrank].
  - by rewrite (runProgramOutput_nonscalar _ _ td).
  - unfold runProgramOutput, when. by rewrite bool_decide_eq_false_2.
Qed.

Lemma agreesWith_texData s input :
  agreesWith s input →
  TensorData.isUniform input = false → is_Some (TensorData.texData input).
Proof.
  intros [_ Hor] Hu. unfold texShapeOrNull, texDataOf in Hor. rewrite Hu in Hor.
  rewrite andb_false_r in Hor. destruct Hor as [|Hor]; [done|].
  destruct (TensorData.texData input); [by eexists|done].
Qed.

Lemma validated_texData shapeInfos inputs i input :
  validateBinaryAndProgram shapeInfos inputs = Ok tt →
  inputs !! i = Some input →
  TensorData.isUniform input = false → is_Some (TensorData.texData input).
Proof.
  rewrite validate_Ok_iff_agreesWith. intros Hall Hi.
  destruct (Forall2_lookup_r _ _ _ _ _ Hall Hi) as (s & _ & Hs).
  by apply (agreesWith_texData s).
Qed.

(** The three ways a run that passed validation ends. *)
Lemma runProgram_cases `{!Imports} gpgpu binary inputs output customSetup :
  validateBinaryAndProgram (GPGPUBinary.inShapeInfos binary) inputs = Ok tt →
  validateBinaryAndProgram [GPGPUBinary.outShapeInfo binary] [output] = Ok tt →
  let uploads := runProgramUploads binary inputs output in
  let hook := setupHook gpgpu binary customSetup in
  runProgram gpgpu binary inputs output customSetup =
    match result uploads with
    | Throw e => mkGL (Throw e) (calls uploads)
    | Ok _ =>
        match result hook with
        | Throw e => mkGL (Throw e) (calls uploads ++ calls hook)
        | Ok _ => mkGL (Ok tt) (calls uploads ++ calls hook ++ [ExecuteProgram])
        end
    end.
Proof.
  intros Hin Hout uploads hook. rewrite (runProgram_unfold _ _ _ _ _ Hin Hout).
  fold (setupHook gpgpu binary customSetup). fold uploads hook.
  unfold mbind, GL_bind.
  destruct (result uploads) as [[ ]|e]; [|done]. simpl.
  by destruct (result hook) as [[ ]|e].
Qed.

Lemma runProgramUploads_result `{!Imports} binary inputs output :
  (∀ i input, inputs !! i = Some input →
     TensorData.isUniform input = false → is_Some (TensorData.texData input)) →
  result (runProgramUploads binary inputs output) = Ok tt ↔
  is_Some (TensorData.texData output) ∧ scalarUniformsHaveValues binary inputs.
Proof.
  intros Htex. split.
  - intros Hok. apply runProgramUploads_Ok in Hok as (td & Htd & Hloop & _).
    split; [by exists td|]. intros i input loc Hi Hloc Hu Hsize.
    destruct (forEachGLFrom_Ok_lookup _ _ 0%nat i input Hloop Hi) as [Hin _].
    simpl in Hin. rewrite runProgramInput_result in Hin by eauto.
    rewrite Hloc, Hu, bool_decide_eq_true_2 in Hin by done. simpl in Hin.
    by destruct (TensorData.uniformValues input).
  - intros [[td Htd] Hvals]. rewrite (runProgramUploads_eq _ _ _ td Htd).
    simpl. rewrite (GL_bind_result _ _ tt).
    + apply runProgramOutput_result. by exists td.
    + apply forEachGLFrom_result_Ok. intros i input Hi. simpl.
      rewrite runProgramInput_result by eauto.
      destruct (uniformLocation binary _) as [loc|] eqn:Hloc; [|done].
      destruct (TensorData.isUniform input) eqn:Hu; [|done]. simpl.
      case_bool_decide as Hsize; [|done].
      by destruct (Hvals i input loc Hi Hloc Hu Hsize) as [vals ->].
Qed.

Lemma runProgram_completes_aux `{!Imports} gpgpu binary inputs output
    customSetup :
  result (runProgram gpgpu binary inputs output customSetup) = Ok tt ↔
  validateBinaryAndProgram (GPGPUBinary.inShapeInfos binary) inputs = Ok tt ∧
  validateBinaryAndProgram [GPGPUBinary.outShapeInfo binary] [output] = Ok tt ∧
  is_Some (TensorData.texData output) ∧
  scalarUniformsHaveValues binary inputs ∧
  result (setupHook gpgpu binary customSetup) = Ok tt.
Proof.
  split.
  - intros Hok. destruct (runProgram_Ok _ _ _ _ _ Hok) as (Hin & Hout & Hup & _).
    assert (is_Some (TensorData.texData output) ∧
            scalarUniformsHaveValues binary inputs) as [Htd Hvals].
    { apply runProgramUploads_result; [|done].
      intros i input Hi. exact (validated_texData _ _ i input Hin Hi). }
    split_and!; [done..|].
    rewrite (runProgram_cases _ _ _ _ _ Hin Hout) in Hok. simpl in Hok.
    rewrite Hup in Hok.
    by destruct (result (setupHook gpgpu binary customSetup)) as [[ ]|e].
  - intros (Hin & Hout & Htd & Hvals & Hhook).
    rewrite (runProgram_cases _ _ _ _ _ Hin Hout). simpl.
    assert (result (runProgramUploads binary inputs output) = Ok tt) as ->.
    { apply runProgramUploads_result; [|done].
      intros i input Hi. exact (validated_texData _ _ i input Hin Hi). }
    by rewrite Hhook.
Qed.

(** X10. A run completes exactly when both validations pass, the output has
    its texture data, every uniform-backed input that the shader uses and
    whose size is below 2 has its [uniformValues], and the setup hook, if one
    is given, completes.  Nothing else can make [runProgram] throw. *)
Theorem runProgram_completes_iff `{!Imports} gpgpu binary inputs output
    customSetup :
  result (runProgram gpgpu binary inputs output customSetup) = Ok tt ↔
  validateBinaryAndProgram (GPGPUBinary.inShapeInfos binary) inputs = Ok tt ∧
  validateBinaryAndProgram [GPGPUBinary.outShapeInfo binary] [output] = Ok tt ∧
  is_Some (TensorData.texData output) ∧
  scalarUniformsHaveValues binary inputs ∧
  result (setupHook gpgpu binary customSetup) = Ok tt.
Proof. apply runProgram_completes_aux. Qed.

Lemma no_dispatch_Throw {A} (m : GL A) (l : list GLCall) e :
  ExecuteProgram ∉ l → ExecuteProgram ∉ calls (mkGL (A:=A) (Throw e) l).
Proof. done. Qed.

(** X11. Provided the setup hook itself does not dispatch, [runProgram]
    dispatches exactly when it completes, and then exactly once, as its last
    call: a run that throws, at whatever point, has not executed the
    program. *)
Theorem runProgram_dispatches_iff_completes `{!Imports} gpgpu binary inputs
    output customSetup :
  ExecuteProgram ∉ calls (setupHook gpgpu binary customSetup) →
  let run := runProgram gpgpu binary inputs output customSetup in
  (ExecuteProgram ∈ calls run ↔ result run = Ok tt) ∧
  (result run = Ok tt →
   ∃ before, calls run = before ++ [ExecuteProgram] ∧ ExecuteProgram ∉ before).
Proof.
  intros Hhook run.
  assert (result run = Ok tt →
    ∃ before, calls run = before ++ [ExecuteProgram] ∧ ExecuteProgram ∉ before)
    as Hlast.
  { intros Hok. destruct (runProgram_Ok _ _ _ _ _ Hok) as (_ & _ & _ & Hcalls).
    exists (calls (runProgramUploads binary inputs output) ++
            calls (setupHook gpgpu binary customSetup)).
    unfold run. rewrite Hcalls, <-app_assoc. split; [done|].
    rewrite elem_of_app. intros [Hup|Hh]; [|done].
    by apply no_dispatch_runProgramUploads in Hup. }
  split; [|done]. split.
  - unfold run.
    destruct (validateBinaryAndProgram (GPGPUBinary.inShapeInfos binary) inputs)
      as [[ ]|e] eqn:Hin;
      [|rewrite (runProgram_validation_Throw _ _ _ _ _ _ Hin);
        by intros ?%elem_of_nil].
    destruct (validateBinaryAndProgram [GPGPUBinary.outShapeInfo binary] [output])
      as [[ ]|e] eqn:Hout;
      [|rewrite (runProgram_output_validation_Throw _ _ _ _ _ _ Hin Hout);
        by intros ?%elem_of_nil].
    rewrite (runProgram_cases _ _ _ _ _ Hin Hout). simpl.
    destruct (result (runProgramUploads binary inputs output)) as [[ ]|e].
    + destruct (result (setupHook gpgpu binary customSetup)) as [[ ]|e];
        [done|]. simpl. rewrite elem_of_app. intros [Hup|Hh]; [|done].
      by apply no_dispatch_runProgramUploads in Hup.
    + simpl. intros Hup. by apply no_dispatch_runProgramUploads in Hup.
  - intros Hok. destruct (Hlast Hok) as (before & -> & _).
    rewrite elem_of_app, list_elem_of_singleton. by right.
Qed.

Lemma runProgram_dispatches_iff_completes_witness :
  (∃ before,
     calls (@runProgram (exampleImports 2) (exampleContext allUniforms)
              addBinary [inputA; inputB] outputC (Some overwriteShapeA))
       = before ++ [ExecuteProgram] ∧
     ExecuteProgram ∉ before) ∧
  ExecuteProgram ∉
    calls (@runProgram (exampleImports 2) (exampleContext allUniforms)
             scalarBinary [inputA; inputB_without_values] outputC
             (Some overwriteShapeA)).
Proof.
  split.
  - destruct (@runProgram_dispatches_iff_completes (exampleImports 2)
                (exampleContext allUniforms) addBinary [inputA; inputB] outputC
                (Some overwriteShapeA)) as [_ Hlast].
    + simpl. by intros ?%list_elem_of_singleton.
    + apply Hlast. vm_compute. reflexivity.
  - destruct (@runProgram_dispatches_iff_completes (exampleImports 2)
                (exampleContext allUniforms) scalarBinary
                [inputA; inputB_without_values] outputC
                (Some overwriteShapeA)) as [Hiff _].
    + simpl. by intros ?%list_elem_of_singleton.
    + intros Hc. apply Hiff in Hc. vm_compute in Hc. discriminate Hc.
Defined.

(** X12. The exceptions of [runProgram], in the order the code can raise
    them: the validator's exception for the inputs, then for the output;
    a [TypeError] when the output has no texture data; all three before any
    call is made on the context.  After that only a uniform-backed input
    without [uniformValues] (a [TypeError], when its variable is used and its
    size is below 2) or the setup hook can throw, and a throwing hook leaves
    exactly the standard calls followed by its own. *)
Theorem runProgram_exceptions `{!Imports} gpgpu binary inputs output
    customSetup e :
  let run := runProgram gpgpu binary inputs output customSetup in
  result run = Throw e →
  ((validateBinaryAndProgram (GPGPUBinary.inShapeInfos binary) inputs = Throw e ∨
    validateBinaryAndProgram [GPGPUBinary.outShapeInfo binary] [output] = Throw e ∨
    (TensorData.texData output = None ∧ ∃ message, e = TypeError message)) ∧
   calls run = []) ∨
  ((∃ message, e = TypeError message) ∧
   ∃ i input loc,
     inputs !! i = Some input ∧
     uniformLocation binary (inputVarName binary i) = Some loc ∧
     TensorData.isUniform input = true ∧
     util.sizeFromShape (TensorData.shape input) < 2 ∧
     TensorData.uniformValues input = None) ∨
  (result (setupHook gpgpu binary customSetup) = Throw e ∧
   calls run = calls (runProgramUploads binary inputs output) ++
               calls (setupHook gpgpu binary customSetup)).
Proof.
  intros run. unfold run.
  destruct (validateBinaryAndProgram (GPGPUBinary.inShapeInfos binary) inputs)
    as [[ ]|e'] eqn:Hin.
  2:{ rewrite (runProgram_validation_Throw _ _ _ _ _ _ Hin). simpl.
      intros [= ->]. left. split; [by left|done]. }
  destruct (validateBinaryAndProgram [GPGPUBinary.outShapeInfo binary] [output])
    as [[ ]|e'] eqn:Hout.
  2:{ rewrite (runProgram_output_validation_Throw _ _ _ _ _ _ Hin Hout). simpl.
      intros [= ->]. left. split; [right; by left|done]. }
  rewrite (runProgram_cases _ _ _ _ _ Hin Hout). simpl.
  destruct (result (runProgramUploads binary inputs output)) as [[ ]|e'] eqn:Hup.
  - destruct (result (setupHook gpgpu binary customSetup)) as [[ ]|e'];
      [done|]. simpl. intros [= ->]. right; right. done.
  - simpl. intros [= ->].
    destruct (TensorData.texData output) as [td|] eqn:Htd.
    + right; left. rewrite (runProgramUploads_eq _ _ _ td Htd) in Hup.
      simpl in Hup.
      destruct (result (forEachGL (runProgramInput binary) inputs))
        as [[ ]|e'] eqn:Hloop.
      * rewrite (GL_bind_result _ _ tt Hloop) in Hup.
        rewrite runProgramOutput_result in Hup by (by exists td). done.
      * rewrite (GL_bind_Throw _ _ e' Hloop) in Hup. simpl in Hup.
        injection Hup as ->.
        apply forEachGLFrom_result_Throw in Hloop as (i & input & Hi & Hthrow).
        simpl in Hthrow. rewrite runProgramInput_result in Hthrow
          by exact (validated_texData _ _ i input Hin Hi).
        destruct (uniformLocation binary _) as [loc|] eqn:Hloc; [|done].
        destruct (TensorData.isUniform input) eqn:Hu; [|done]. simpl in Hthrow.
        case_bool_decide as Hsize; [|done].
        destruct (TensorData.uniformValues input) eqn:Hvals; [done|].
        injection Hthrow as <-. split; [by eexists|]. by exists i, input, loc.
    + left. unfold runProgramUploads, texDataOf in Hup |- *. rewrite Htd in Hup |- *.
      simpl in Hup. injection Hup as <-. split; [|done]. right; right.
      split; [done|by eexists].
Qed.

Lemma runProgram_exceptions_witness :
  result (@runProgram (exampleImports 2) (exampleContext allUniforms)
            scalarBinary [inputA; inputB_without_values] outputC None)
    = Throw (TypeError "Cannot read property '0' of undefined") ∧
  ∃ i input loc,
    [inputA; inputB_without_values] !! i = Some input ∧
    uniformLocation scalarBinary (inputVarName scalarBinary i) = Some loc ∧
    TensorData.isUniform input = true ∧
    util.sizeFromShape (TensorData.shape input) < 2 ∧
    TensorData.uniformValues input = None.
Proof.
  assert (result (@runProgram (exampleImports 2) (exampleContext allUniforms)
                    scalarBinary [inputA; inputB_without_values] outputC None)
            = Throw (TypeError "Cannot read property '0' of undefined"))
    as Hthrow by (vm_compute; reflexivity).
  split; [exact Hthrow|].
  destruct (@runProgram_exceptions (exampleImports 2) _ _ _ _ _ _ Hthrow)
    as [[Hearly _]|[[_ Hinput]|[Hhook _]]].
  - exfalso. destruct Hearly as [Hv|[Hv|[Hv _]]];
      vm_compute in Hv; discriminate Hv.
  - exact Hinput.
  - vm_compute in Hhook. discriminate Hhook.
Defined.

(** ** Compiling, keying and running together *)

(** X13. A binary compiled for some operands, with an output that is not
    flagged uniform, runs to completion on any operands that [makeShaderKey]
    gives the same key (those it was compiled for among them), as soon as
    the small uniform-backed inputs the shader uses carry their values and
    the setup hook, if any, completes. *)
Theorem cached_binary_runs `{!Imports} gpgpu program inputs output binary
    inputs' output' k customSetup :
  result (compileProgram gpgpu program inputs output) = Ok binary →
  TensorData.isUniform output = false →
  makeShaderKey program inputs output = Ok k →
  makeShaderKey program inputs' output' = Ok k →
  scalarUniformsHaveValues binary inputs' →
  result (setupHook gpgpu binary customSetup) = Ok tt →
  result (runProgram gpgpu binary inputs' output' customSetup) = Ok tt.
Proof.
  intros Hbinary Huni Hk Hk' Hvals Hhook.
  destruct (same_key_validates_aux _ _ _ _ _ _ _ _ Hbinary Huni Hk Hk')
    as [Hvin Hvout].
  destruct (makeShaderKey_eq_sameLayout _ _ _ _ _ _ Hk Hk')
    as [_ (_ & Huni' & _)].
  apply runProgram_completes_aux. split_and!; [done..| |done|done].
  apply (validated_texData _ [output'] 0%nat output' Hvout); [done|].
  by rewrite <-Huni'.
Qed.

Lemma cached_binary_runs_witness :
  ∃ binary,
    result (@compileProgram (exampleImports 2) (exampleContext allUniforms)
              exampleProgram [inputA; inputB] outputC) = Ok binary ∧
    result (@runProgram (exampleImports 2) (exampleContext allUniforms) binary
              [inputA_repacked; inputB] outputC None) = Ok tt.
Proof.
  assert (∃ binary,
    result (@compileProgram (exampleImports 2) (exampleContext allUniforms)
              exampleProgram [inputA; inputB] outputC) = Ok binary)
    as [binary Hbinary] by (vm_compute; eexists; reflexivity).
  exists binary. split; [exact Hbinary|].
  apply (@cached_binary_runs (exampleImports 2) _ exampleProgram
           [inputA; inputB] outputC binary [inputA_repacked; inputB] outputC
           _ None Hbinary eq_refl eq_refl eq_refl); [|reflexivity].
  intros [|[|i]] input loc Hi _ Huni _; simpl in Hi; [| |done];
    injection Hi as <-; [discriminate Huni|by eexists].
Defined.

(** ** The executor: textures and locations *)

Lemma elem_of_forEachGLFrom {A} (f : A → nat → GL unit) k l c :
  result (forEachGLFrom f k l) = Ok tt →
  c ∈ calls (forEachGLFrom f k l) ↔
  ∃ i x, l !! i = Some x ∧ c ∈ calls (f x (k + i)%nat).
Proof.
  revert k. induction l as [|x l IH]; intros k Hok.
  - simpl. split; [by intros ?%elem_of_nil|]. by intros (i & y & Hy & _).
  - simpl in Hok |- *.
    apply GL_bind_result_Ok in Hok as ([] & Hx & Hrest & ->).
    rewrite elem_of_app, (IH _ Hrest). split.
    + intros [Hc|(i & y & Hy & Hc)].
      * exists 0%nat, x. by rewrite Nat.add_0_r.
      * exists (S i), y. split; [done|].
        by replace (k + S i)%nat with (S k + i)%nat by lia.
    + intros ([|i] & y & Hy & Hc).
      * simpl in Hy. injection Hy as <-. left. by rewrite Nat.add_0_r in Hc.
      * right. exists i, y. split; [done|].
        by replace (S k + i)%nat with (k + S i)%nat by lia.
Qed.

Lemma elem_of_calls_uploadUniform1ivVals binary uniformName values c :
  c ∈ calls (uploadUniform1ivVals binary uniformName values) →
  ∃ loc, uniformLocation binary uniformName = Some loc ∧
         c = Uniform1iv loc (JS.toInt32 <$> values).
Proof.
  unfold uploadUniform1ivVals.
  destruct (uniformLocation binary uniformName) as [loc|]; simpl.
  - intros ->%list_elem_of_singleton. by exists loc.
  - by intros ?%elem_of_nil.
Qed.

Lemma elem_of_calls_uploadUniform1iVals binary uniformName values c :
  c ∈ calls (uploadUniform1iVals binary uniformName values) →
  ∃ loc, uniformLocation binary uniformName = Some loc ∧
         c = Uniform1i loc values.
Proof.
  unfold uploadUniform1iVals.
  destruct (uniformLocation binary uniformName) as [loc|]; simpl.
  - intros ->%list_elem_of_singleton. by exists loc.
  - by intros ?%elem_of_nil.
Qed.

Lemma elem_of_calls_offsetUpload binary varName (slice : option Slice.t) c :
  c ∈ calls (match slice with
             | Some slice =>
                 uploadUniform1iVals binary ("offset" +:+ varName)
                   (Some (JS.Int (Slice.flatOffset slice)))
             | None => mret tt
             end) →
  ∃ loc x, uniformLocation binary ("offset" +:+ varName) = Some loc ∧
           c = Uniform1i loc x.
Proof.
  destruct slice as [slice|]; [|by intros ?%elem_of_nil].
  intros (loc & Hloc & ->)%elem_of_calls_uploadUniform1iVals.
  by exists loc, (Some (JS.Int (Slice.flatOffset slice))).
Qed.

(** Every call of the input callback writes a uniform at a location of the
    binary's table. *)
Lemma runProgramInput_writes `{!Imports} binary input i c :
  c ∈ calls (runProgramInput binary input i) →
  ∃ name loc v, uniformLocation binary name = Some loc ∧
                uniformWrite c = Some (loc, v).
Proof.
  destruct (uniformLocation binary (inputVarName binary i)) as [varLoc|]
    eqn:Hloc; unfold inputVarName in Hloc.
  2:{ unfold runProgramInput. rewrite Hloc. by intros ?%elem_of_nil. }
  destruct (TensorData.isUniform input) eqn:Hu.
  { unfold runProgramInput. rewrite Hloc, Hu.
    case_bool_decide.
    - unfold firstUniformValue.
      destruct (TensorData.uniformValues input); simpl;
        [|by intros ?%elem_of_nil].
      intros ->%list_elem_of_singleton. by eexists _, varLoc, _.
    - simpl. intros ->%list_elem_of_singleton. by eexists _, varLoc, _. }
  destruct (TensorData.texData input) as [td|] eqn:Htd.
  - rewrite (runProgramInput_texture _ _ _ td varLoc) by done. simpl.
    rewrite !elem_of_app, list_elem_of_singleton.
    intros [Hc|[Hc|[Hc|[Hc|[Hc|[Hc|[Hc| ->]]]]]]].
    1-4: apply elem_of_calls_uploadUniform1ivVals in Hc as (loc & ? & ->);
         by eexists _, loc, _.
    1-2: apply elem_of_calls_uploadUniform1iVals in Hc as (loc & ? & ->);
         by eexists _, loc, _.
    + apply elem_of_calls_offsetUpload in Hc as (loc & x & ? & ->).
      by eexists _, loc, _.
    + by eexists _, varLoc, _.
  - unfold runProgramInput. rewrite Hloc, Hu. unfold texDataOf. rewrite Htd.
    rewrite (GL_bind_Ok_eq _ _ tt) by apply uploadUniform1ivVals_result.
    rewrite (GL_bind_Ok_eq _ _ tt) by apply uploadUniform1ivVals_result.
    simpl. rewrite app_nil_r, elem_of_app.
    intros [Hc|Hc];
      apply elem_of_calls_uploadUniform1ivVals in Hc as (loc & ? & ->);
      by eexists _, loc, _.
Qed.

(** The texture bindings among the calls of the input callback. *)
Lemma runProgramInput_binding `{!Imports} binary input i tex loc textureUnit :
  (TensorData.isUniform input = false → is_Some (TensorData.texData input)) →
  SetInputMatrixTexture tex loc textureUnit
    ∈ calls (runProgramInput binary input i) ↔
  textureUnit = i ∧
  uniformLocation binary (inputVarName binary i) = Some loc ∧
  TensorData.isUniform input = false ∧
  TextureData.texture <$> TensorData.texData input = Some tex.
Proof.
  intros Htex.
  destruct (uniformLocation binary (inputVarName binary i)) as [varLoc|]
    eqn:Hloc; unfold inputVarName in Hloc.
  2:{ unfold runProgramInput. rewrite Hloc. split; [by intros ?%elem_of_nil|].
      by intros (_ & ? & _). }
  destruct (TensorData.isUniform input) eqn:Hu.
  { unfold runProgramInput. rewrite Hloc, Hu. split; [|by intros (_ & _ & ? & _)].
    case_bool_decide.
    - unfold firstUniformValue.
      destruct (TensorData.uniformValues input); simpl;
        [|by intros ?%elem_of_nil].
      by intros ?%list_elem_of_singleton.
    - simpl. by intros ?%list_elem_of_singleton. }
  destruct (Htex eq_refl) as [td Htd].
  rewrite (runProgramInput_texture _ _ _ td varLoc), Htd by done. simpl.
  rewrite !elem_of_app, list_elem_of_singleton. split.
  - intros [Hc|[Hc|[Hc|[Hc|[Hc|[Hc|[Hc|Hc]]]]]]].
    1-4: by apply elem_of_calls_uploadUniform1ivVals in Hc as (? & _ & ?).
    1-2: by apply elem_of_calls_uploadUniform1iVals in Hc as (? & _ & ?).
    + by apply elem_of_calls_offsetUpload in Hc as (? & ? & _ & ?).
    + by injection Hc as -> -> ->.
  - intros (-> & [= ->] & _ & [= ->]). by do 7 right.
Qed.

Lemma runProgramOutput_writes `{!Imports} binary output c :
  c ∈ calls (runProgramOutput binary output) →
  ∃ name loc, uniformLocation binary name = Some loc ∧
              ((∃ v, c = Uniform1iv loc v) ∨ (∃ x, c = Uniform1i loc x)).
Proof.
  destruct (decide (0 < length (TensorData.shape output))%nat) as [Hrank|Hrank].
  2:{ unfold runProgramOutput, when. rewrite bool_decide_eq_false_2 by done.
      by intros ?%elem_of_nil. }
  destruct (TensorData.texData output) as [td|] eqn:Htd.
  - rewrite (runProgramOutput_nonscalar _ _ td) by done. simpl.
    rewrite !elem_of_app. intros [Hc|[Hc|[Hc|[Hc|[Hc|Hc]]]]].
    1-4: apply elem_of_calls_uploadUniform1ivVals in Hc as (loc & ? & ->);
         eexists _, loc; split; [done|left; by eexists].
    1-2: apply elem_of_calls_uploadUniform1iVals in Hc as (loc & ? & ->);
         eexists _, loc; split; [done|right; by eexists].
  - unfold runProgramOutput, when, texDataOf.
    rewrite bool_decide_eq_true_2, Htd by done.
    rewrite (GL_bind_Ok_eq _ _ tt) by apply uploadUniform1ivVals_result.
    rewrite (GL_bind_Ok_eq _ _ tt) by apply uploadUniform1ivVals_result.
    simpl. rewrite app_nil_r, elem_of_app.
    intros [Hc|Hc];
      apply elem_of_calls_uploadUniform1ivVals in Hc as (loc & ? & ->);
      eexists _, loc; (split; [done|left; by eexists]).
Qed.

(** X14. In a run without setup hook that completes, the textures bound as
    inputs are exactly those of the texture-backed inputs whose variable the
    shader uses: the input at position [i] is bound to texture unit [i], at
    the location of its variable.  Uniform-backed inputs and inputs whose
    variable has no location bind no texture. *)
Theorem input_textures_bound `{!Imports} gpgpu binary inputs output tex loc
    textureUnit :
  let run := runProgram gpgpu binary inputs output None in
  result run = Ok tt →
  SetInputMatrixTexture tex loc textureUnit ∈ calls run ↔
  ∃ input,
    inputs !! textureUnit = Some input ∧
    TensorData.isUniform input = false ∧
    TextureData.texture <$> TensorData.texData input = Some tex ∧
    uniformLocation binary (inputVarName binary textureUnit) = Some loc.
Proof.
  intros run Hok. subst run.
  destruct (runProgram_Ok _ _ _ _ _ Hok) as (Hin & _ & Hup & ->).
  destruct (runProgramUploads_Ok _ _ _ Hup) as (td & _ & Hloop & _ & ->).
  simpl.
  assert (SetInputMatrixTexture tex loc textureUnit
            ∈ calls (forEachGL (runProgramInput binary) inputs) ↔
          ∃ input, inputs !! textureUnit = Some input ∧
            TensorData.isUniform input = false ∧
            TextureData.texture <$> TensorData.texData input = Some tex ∧
            uniformLocation binary (inputVarName binary textureUnit) = Some loc)
    as <-.
  { unfold forEachGL. rewrite (elem_of_forEachGLFrom _ _ _ _ Hloop). simpl.
    split.
    - intros (i & input & Hi & Hc).
      apply runProgramInput_binding in Hc as (-> & ? & ? & ?);
        [|exact (validated_texData _ _ i input Hin Hi)].
      by exists input.
    - intros (input & Hi & Hu & Htex & Hloc). exists textureUnit, input.
      split; [done|]. apply runProgramInput_binding; [|done].
      exact (validated_texData _ _ textureUnit input Hin Hi). }
  rewrite !elem_of_cons, !elem_of_app, list_elem_of_singleton.
  split; [|tauto].
  intros [Hc|[Hc|[[Hc|[Hc|[Hc|Hc]]]|Hc]]]; [| | | | |..]; try done.
  - by destruct (TextureData.isPacked td).
  - destruct (bool_decide _); [|by apply elem_of_nil in Hc].
    destruct (GPGPUBinary.infLoc binary); [|by apply elem_of_nil in Hc].
    by apply list_elem_of_singleton in Hc.
  - destruct (GPGPUBinary.nanLoc binary); [|by apply elem_of_nil in Hc].
    by apply list_elem_of_singleton in Hc.
  - by apply runProgramOutput_writes in Hc as (? & ? & _ & [[? ?]|[? ?]]).
Qed.

Lemma input_textures_bound_witness :
  SetInputMatrixTexture 100%N 10%N 0
    ∈ calls (@runProgram (exampleImports 2) (exampleContext allUniforms)
               addBinary [inputA; inputB] outputC None) ∧
  ¬ (∃ tex loc,
       SetInputMatrixTexture tex loc 1
         ∈ calls (@runProgram (exampleImports 2) (exampleContext allUniforms)
                    addBinary [inputA; inputB] outputC None)).
Proof.
  assert (result (@runProgram (exampleImports 2) (exampleContext allUniforms)
                    addBinary [inputA; inputB] outputC None) = Ok tt)
    as Hok by (vm_compute; reflexivity).
  split.
  - apply (@input_textures_bound (exampleImports 2) _ _ _ _ _ _ _ Hok).
    exists inputA. by split_and!.
  - intros (tex & loc & Hc).
    apply (@input_textures_bound (exampleImports 2) _ _ _ _ _ _ _ Hok) in Hc
      as (input & Hi & Huni & _).
    injection Hi as <-. discriminate Huni.
Defined.

Lemma elem_of_calls_bind {A B} (m : GL A) (f : A → GL B) c :
  c ∈ calls (m ≫= f) → c ∈ calls m ∨ ∃ a, c ∈ calls (f a).
Proof.
  unfold mbind, GL_bind. destruct (result m) as [a|e]; simpl; [|by left].
  rewrite elem_of_app. intros [Hc|Hc]; [by left|right; by exists a].
Qed.

Lemma elem_of_forEachGLFrom_inv {A} (f : A → nat → GL unit) k l c :
  c ∈ calls (forEachGLFrom f k l) →
  ∃ i x, l !! i = Some x ∧ c ∈ calls (f x (k + i)%nat).
Proof.
  revert k. induction l as [|x l IH]; intros k; [by intros ?%elem_of_nil|].
  simpl. intros [Hc|[_ Hc]]%elem_of_calls_bind.
  - exists 0%nat, x. by rewrite Nat.add_0_r.
  - destruct (IH _ Hc) as (i & y & Hy & Hfy). exists (S i), y.
    split; [done|]. by replace (k + S i)%nat with (S k + i)%nat by lia.
Qed.

(** Every uniform a run without setup hook writes is at a location the
    binary holds: in its table, or as one of the two special locations. *)
Lemma runProgram_writes `{!Imports} gpgpu binary inputs output c loc v :
  c ∈ calls (runProgram gpgpu binary inputs output None) →
  uniformWrite c = Some (loc, v) →
  GPGPUBinary.infLoc binary = Some loc ∨
  GPGPUBinary.nanLoc binary = Some loc ∨
  ∃ name, uniformLocation binary name = Some loc.
Proof.
  destruct (validateBinaryAndProgram (GPGPUBinary.inShapeInfos binary) inputs)
    as [[ ]|e] eqn:Hin;
    [|rewrite (runProgram_validation_Throw _ _ _ _ _ _ Hin);
      by intros ?%elem_of_nil].
  destruct (validateBinaryAndProgram [GPGPUBinary.outShapeInfo binary] [output])
    as [[ ]|e] eqn:Hout;
    [|rewrite (runProgram_output_validation_Throw _ _ _ _ _ _ Hin Hout);
      by intros ?%elem_of_nil].
  rewrite (runProgram_cases _ _ _ _ _ Hin Hout). simpl.
  intros Hc Hw.
  assert (c ∈ calls (runProgramUploads binary inputs output)) as Hup.
  { destruct (result (runProgramUploads binary inputs output)) as [[ ]|e];
      [|done]. simpl in Hc. rewrite elem_of_app, list_elem_of_singleton in Hc.
    destruct Hc as [Hc| ->]; [done|]. done. }
  clear Hc. destruct (TensorData.texData output) as [td|] eqn:Htd.
  2:{ unfold runProgramUploads, texDataOf in Hup. rewrite Htd in Hup.
      by apply elem_of_nil in Hup. }
  rewrite (runProgramUploads_eq _ _ _ td Htd) in Hup. simpl in Hup.
  rewrite !elem_of_cons, !elem_of_app in Hup.
  destruct Hup as [->|[->|[Hc|[Hc|Hc]]]].
  - by destruct (TextureData.isPacked td).
  - done.
  - destruct (bool_decide _); [|by apply elem_of_nil in Hc].
    destruct (GPGPUBinary.infLoc binary) as [infLoc|];
      [|by apply elem_of_nil in Hc].
    apply list_elem_of_singleton in Hc as ->. simpl in Hw.
    injection Hw as -> _. by left.
  - destruct (GPGPUBinary.nanLoc binary) as [nanLoc|];
      [|by apply elem_of_nil in Hc].
    apply list_elem_of_singleton in Hc as ->. simpl in Hw.
    injection Hw as -> _. right; by left.
  - right; right. apply elem_of_calls_bind in Hc as [Hc|[_ Hc]].
    + apply elem_of_forEachGLFrom_inv in Hc as (i & input & _ & Hc).
      apply runProgramInput_writes in Hc as (name & loc' & v' & Hloc & Hw').
      rewrite Hw in Hw'. injection Hw' as -> _. by exists name.
    + apply runProgramOutput_writes in Hc
        as (name & loc' & Hloc & [[x ->]|[x ->]]);
        simpl in Hw; injection Hw as -> _; by exists name.
Qed.

(** X15. Compiling and running fit together: whatever operands a compiled
    binary is later run on (without setup hook), and whether or not the run
    completes, every uniform it writes (values, arrays, texture samplers) is
    written at a location that the context returned, for the compiled
    program, for some uniform name.  No location is made up or kept from
    another program. *)
Theorem run_writes_resolved_locations `{!Imports} gpgpu program inputs output
    binary inputs' output' c loc v :
  result (compileProgram gpgpu program inputs output) = Ok binary →
  c ∈ calls (runProgram gpgpu binary inputs' output' None) →
  uniformWrite c = Some (loc, v) →
  ∃ name,
    getUniformLocation gpgpu (GPGPUBinary.webGLProgram binary) name false
      = Some loc.
Proof.
  intros Hok Hc Hw.
  destruct (compileProgram_Ok _ _ _ _ _ Hok) as (_ & Hnan & Hinf & _).
  destruct (compileProgram_spec _ _ _ _ _ Hok) as (_ & _ & _ & Hsound & _).
  destruct (runProgram_writes _ _ _ _ _ _ _ Hc Hw) as [Hl|[Hl|[name Hl]]].
  - rewrite Hinf in Hl. destruct (bool_decide _); [|done]. by exists "INFINITY".
  - rewrite Hnan in Hl. by exists "NAN".
  - exists name. exact (tableSound_uniformLocation _ _ _ _ Hsound Hl).
Qed.

Lemma run_writes_resolved_locations_witness :
  ∃ binary name,
    result (@compileProgram (exampleImports 2) (exampleContext allUniforms)
              exampleProgram [inputA; inputB] outputC) = Ok binary ∧
    getUniformLocation (exampleContext allUniforms)
      (GPGPUBinary.webGLProgram binary) name false = Some 12%N.
Proof.
  assert (∃ binary,
    result (@compileProgram (exampleImports 2) (exampleContext allUniforms)
              exampleProgram [inputA; inputB] outputC) = Ok binary)
    as [binary Hbinary] by (vm_compute; eexists; reflexivity).
  destruct (@run_writes_resolved_locations (exampleImports 2)
              (exampleContext allUniforms) exampleProgram [inputA; inputB]
              outputC binary [inputA; inputB] outputC
              (Uniform1iv 12%N [2; 6]) 12%N (IntArrayValue [2; 6]) Hbinary)
    as [name Hname]; [|reflexivity|by exists binary, name].
  vm_compute in Hbinary. injection Hbinary as <-.
  apply (list_elem_of_lookup_2 _ 2%nat). vm_compute. reflexivity.
Defined.

(** ** Texel counts *)

Lemma JS_index_from_end {A} (a : list A) (k : nat) :
  (0 < k)%nat →
  JS.index a (Z.of_nat (length a) - Z.of_nat k) =
    if bool_decide (k ≤ length a)%nat then a !! (length a - k)%nat else None.
Proof.
  intros Hk. unfold JS.index. repeat case_bool_decide; try lia; [|done].
  f_equal. lia.
Qed.

(** A product that is a double is computed exactly. *)
Lemma JS_mul_exact a b :
  Z.abs (a * b) ≤ 2 ^ 53 → JS.mul a b = JS.Int (a * b).
Proof.
  unfold JS.mul. generalize (a * b). intros z Hz.
  destruct (decide (Z.abs z < 2 ^ 53)) as [Hlt|Hge].
  - unfold JS.roundToDouble. by rewrite bool_decide_eq_true_2.
  - assert (z = 2 ^ 53 ∨ z = - 2 ^ 53) as [-> | ->] by lia;
      vm_compute; reflexivity.
Qed.

Lemma valuesPerRow_last batch c :
  valuesPerRow (batch ++ [c]) = Some (JS.ceilHalf c).
Proof.
  unfold valuesPerRow. cbv zeta.
  change 1 with (Z.of_nat 1). rewrite JS_index_from_end by lia.
  rewrite length_app. simpl. rewrite bool_decide_eq_true_2 by lia.
  replace (length batch + 1 - 1)%nat with (length batch + 0)%nat by lia.
  by rewrite lookup_app_r, Nat.add_0_r, Nat.sub_diag by lia.
Qed.

Lemma texelsInBatch_last batch r c :
  texelsInBatch (batch ++ [r; c])
    = Some (JS.mul (JS.ceilHalf c) (JS.ceilHalf r)).
Proof.
  unfold texelsInBatch. cbv zeta.
  replace (batch ++ [r; c]) with ((batch ++ [r]) ++ [c])
    by (by rewrite <-app_assoc).
  rewrite valuesPerRow_last. simpl.
  change 2 with (Z.of_nat 2). rewrite JS_index_from_end by lia.
  rewrite !length_app. simpl. rewrite bool_decide_eq_true_2 by lia.
  replace (length batch + 1 + 1 - 2)%nat with (length batch + 0)%nat by lia.
  rewrite <-app_assoc.
  by rewrite lookup_app_r, Nat.add_0_r, Nat.sub_diag by lia.
Qed.

Lemma texel_counts_defined (shape : list Z) :
  (is_Some (valuesPerRow shape) ↔ (1 ≤ length shape)%nat) ∧
  (is_Some (texelsInBatch shape) ↔ (2 ≤ length shape)%nat).
Proof.
  assert (∀ k : nat, (0 < k)%nat →
    JS.index shape (Z.of_nat (length shape) - Z.of_nat k) =
      if bool_decide (k ≤ length shape)%nat
      then shape !! (length shape - k)%nat else None) as Hindex
    by apply JS_index_from_end.
  pose proof (Hindex 1%nat ltac:(lia)) as H1.
  pose proof (Hindex 2%nat ltac:(lia)) as H2.
  change (Z.of_nat 1) with 1 in H1. change (Z.of_nat 2) with 2 in H2.
  unfold texelsInBatch, valuesPerRow. simpl. rewrite H1, H2. clear.
  split.
  - case_bool_decide as Hlen.
    + rewrite fmap_is_Some, lookup_lt_is_Some. split; [done|lia].
    + split; [by intros [? ?]|lia].
  - case_bool_decide as Hlen1; case_bool_decide as Hlen2; try lia.
    + destruct (lookup_lt_is_Some_2 shape (length shape - 1)%nat) as [c ->];
        [lia|].
      destruct (lookup_lt_is_Some_2 shape (length shape - 2)%nat) as [r ->];
        [lia|]. simpl. split; [done|by eexists].
    + simpl. destruct (shape !! _); simpl; (split; [by intros [? ?]|lia]).
    + simpl. split; [by intros [? ?]|lia].
Qed.

(** X16. The two texel counts that [runProgram] computes for a shape are
    numbers exactly from rank 1, respectively rank 2, on; below that the
    out-of-range read makes them [NaN].  The count per row is half the last
    dimension, rounded up; the count per batch is the product of that and of
    half the dimension before, rounded up: a product of doubles, exact up to
    [2^53] and rounded to the nearest double beyond.  In every run that
    completes these are the values uploaded, where the corresponding
    location exists, for the shader-visible shape of each texture-backed
    input whose variable is used and for the shape of a non-scalar output. *)
Theorem texel_counts_uploaded `{!Imports} :
  (∀ shape : list Z,
     (is_Some (valuesPerRow shape) ↔ (1 ≤ length shape)%nat) ∧
     (is_Some (texelsInBatch shape) ↔ (2 ≤ length shape)%nat)) ∧
  (∀ batch c, valuesPerRow (batch ++ [c]) = Some (JS.ceilHalf c)) ∧
  (∀ batch r c,
     texelsInBatch (batch ++ [r; c])
       = Some (JS.mul (JS.ceilHalf c) (JS.ceilHalf r)) ∧
     (Z.abs (JS.ceilHalf c * JS.ceilHalf r) ≤ 2 ^ 53 →
      texelsInBatch (batch ++ [r; c])
        = Some (JS.Int (JS.ceilHalf c * JS.ceilHalf r)))) ∧
  (∀ gpgpu binary inputs output customSetup,
     let run := runProgram gpgpu binary inputs output customSetup in
     result run = Ok tt →
     (∀ i input varLoc loc,
        inputs !! i = Some input →
        TensorData.isUniform input = false →
        uniformLocation binary (inputVarName binary i) = Some varLoc →
        (uniformLocation binary ("valuesPerRow" +:+ inputVarName binary i)
           = Some loc →
         Uniform1i loc (JS.Int <$> valuesPerRow (shaderShape binary input))
           ∈ calls run) ∧
        (uniformLocation binary ("texelsInBatch" +:+ inputVarName binary i)
           = Some loc →
         Uniform1i loc (texelsInBatch (shaderShape binary input))
           ∈ calls run)) ∧
     (∀ loc,
        (0 < length (TensorData.shape output))%nat →
        (uniformLocation binary "outputTexelsInLogicalRow" = Some loc →
         Uniform1i loc (JS.Int <$> valuesPerRow (TensorData.shape output))
           ∈ calls run) ∧
        (uniformLocation binary "outputTexelsInBatch" = Some loc →
         Uniform1i loc (texelsInBatch (TensorData.shape output))
           ∈ calls run))).
Proof.
  split_and!.
  - apply texel_counts_defined.
  - apply valuesPerRow_last.
  - intros batch r c. split; [apply texelsInBatch_last|].
    intros Hsmall. by rewrite texelsInBatch_last, (JS_mul_exact _ _ Hsmall).
  - intros gpgpu binary inputs output customSetup run Hok. subst run. split.
    + intros i input varLoc loc Hi Hu Hvar.
      destruct (runProgram_Ok _ _ _ _ _ Hok) as (Hin & _).
      destruct (validated_texData _ _ i input Hin Hi Hu) as [td Htd].
      pose proof (runProgram_calls_input _ _ _ _ _ _ _ Hok Hi) as Hpart.
      unfold inputVarName in *.
      rewrite (runProgramInput_texture _ _ _ td varLoc Hvar Hu Htd) in Hpart.
      simpl in Hpart.
      split; intros Hloc; (eapply calls_part_elem; [|exact Hpart]);
        rewrite !elem_of_app.
      * do 4 right. left. by apply elem_of_uploadUniform1iVals.
      * do 5 right. left. by apply elem_of_uploadUniform1iVals.
    + intros loc Hrank.
      destruct (runProgram_Ok _ _ _ _ _ Hok) as (_ & _ & Hup & _).
      destruct (runProgramUploads_Ok _ _ _ Hup) as (td & Htd & _).
      pose proof (runProgram_calls_output _ _ _ _ _ Hok) as Hpart.
      rewrite (runProgramOutput_nonscalar _ _ td Hrank Htd) in Hpart.
      simpl in Hpart.
      split; intros Hloc; (eapply calls_part_elem; [|exact Hpart]);
        rewrite !elem_of_app.
      * do 4 right. left. by apply elem_of_uploadUniform1iVals.
      * do 5 right. by apply elem_of_uploadUniform1iVals.
Qed.

Lemma texel_counts_uploaded_witness :
  texelsInBatch [2; 6] = Some (JS.Int 3) ∧
  texelsInBatch [268435458; 268435458] = Some (JS.Int 18014398777917440) ∧
  texelsInBatch [2 ^ 513; 2 ^ 513] = Some (JS.Inf false) ∧
  forallb (λ p, mulIsDoubleProduct p.1 p.2) productExamples = true ∧
  Uniform1i 17%N (Some (JS.Int 3))
    ∈ calls (@runProgram (exampleImports 2) (exampleContext allUniforms)
               addBinary [inputA; inputB] outputC None) ∧
  Uniform1i 35%N (Some (JS.Int 3))
    ∈ calls (@runProgram (exampleImports 2) (exampleContext allUniforms)
               addBinary [inputA; inputB] outputC None).
Proof.
  destruct (@texel_counts_uploaded (exampleImports 2))
    as (_ & _ & Hbatch & Hrun).
  destruct (Hrun (exampleContext allUniforms) addBinary [inputA; inputB]
              outputC None) as [Hinput Houtput]; [vm_compute; reflexivity|].
  split_and!.
  - apply (Hbatch [] 2 6). vm_compute. discriminate.
  - change [268435458; 268435458] with ([] ++ [268435458; 268435458]).
    rewrite (proj1 (Hbatch [] 268435458 268435458)). vm_compute. reflexivity.
  - change [2 ^ 513; 2 ^ 513] with ([] ++ [2 ^ 513; 2 ^ 513]).
    rewrite (proj1 (Hbatch [] (2 ^ 513) (2 ^ 513))). vm_compute. reflexivity.
  - vm_compute. reflexivity.
  - apply (Hinput 0%nat inputA 10%N 17%N); reflexivity.
  - apply (Houtput 35%N); [simpl; lia|reflexivity].
Defined.
